(** * Offscreen-worker demo: camera controller, frame loop and statistics

    A shallow embedding of the render-and-measure harness of the blog's
    offscreen-canvas demo:

    - the worker script ([offscreen-worker.ts], the text that follows the
      Matrix-rain shader in [src/components/ThreeJS/ShaderDemo.tsx]):
      [self.onmessage], [handleInteraction], [updateCameraPosition],
      [createScene], [animate];
    - the main-thread loop of the [OffscreenDemo] component:
      [createScene], [animate] and the [perfRef] record;
    - the rest of that component: the canvas listeners that relay the
      mouse to the worker ([setupOffscreenControls]), the life cycle of
      the three render modes ([initOffscreenMode], [initMainThreadMode],
      [cleanupWorker], [cleanupMainThread], [toggleRenderMode],
      [clearCanvas] and the effect on [currentMode]) and the indicators
      of the statistics panel ([getStatClass]);
    - the [WebGLDemo] component: the grid of cubes ([seededRandom],
      [buildMeshesGroup]) and the frame-rate display ([animate],
      [switchRenderer], [handleRendererChange]).

    Numbers.  A JavaScript [number] is modelled as an exact rational ([Q]):
    decimal literals denote their decimal value, and rounding error, NaN
    and the infinities are outside the model.  [Math.PI] is the double
    nearest to pi, which is itself a rational, and the frame-time target
    [1000 / 60] is the double that the division yields.  [Math.sin] and [Math.cos]
    are platform functions and are taken as parameters ([MathLib]).
    Computed numbers are compared with [==] (Qeq).  Counters that the code
    only increments from 0 are natural numbers, the object count is an
    integer.

    Environment.  [performance.now()], [Date.now()] and [Math.random()] are
    inputs: each frame receives the clock readings it makes, each scene
    construction receives the stream of random numbers it draws.  The
    renderer and the geometry/material objects carry no state that the
    statistics or the camera depend on and are not modelled. *)

From Stdlib Require Import String Ascii DecimalString.
From Stdlib Require Import QArith Qabs Qround Qminmax ZArith List Lia Lqa Bool.
Import ListNotations.

Local Open Scope Q_scope.

(** ** JavaScript primitives used by the demo *)

Definition Math_max (a b : Q) : Q := Qmax a b.
Definition Math_min (a b : Q) : Q := Qmin a b.
Definition Math_abs (a : Q) : Q := Qabs a.

(** [Math.round]: the nearest integer, ties towards +infinity. *)
Definition Math_round (a : Q) : Z := Qfloor (a + (1 # 2)).

(** [Math.PI] = 0x400921FB54442D18 = 884279719003555 / 2^48. *)
Definition Math_PI : Q := 884279719003555 # 281474976710656.

(** [arr.reduce((a, b) => a + b, 0)] *)
Definition sum (l : list Q) : Q := fold_left Qplus l 0.

(** [arr.push(v); if (arr.length > cap) arr.shift();] *)
Definition shift {A : Type} (l : list A) : list A := tl l.

Definition push_bounded (cap : nat) (v : Q) (l : list Q) : list Q :=
  let l1 := l ++ [v] in
  if Nat.ltb cap (length l1) then shift l1 else l1.

(** The arithmetic mean as the code computes it: sum / length. *)
Definition mean (l : list Q) : Q := sum l / inject_Z (Z.of_nat (length l)).

(** Values that cross [postMessage] / [setStats]: a number or a string. *)
Inductive JsValue : Type :=
| JNumber (q : Q)
| JString (s : string).

Definition is_string (v : JsValue) : bool :=
  match v with JString _ => true | JNumber _ => false end.

Definition digit_char (d : Z) : ascii :=
  ascii_of_nat (48 + Z.to_nat d).

(** [x.toFixed(2)]: sign, then the integer [n] nearest to [|x| * 100]
    (the larger one on a tie) printed with a point before its last two
    digits. *)
Definition toFixed2 (x : Q) : string :=
  let neg := if Qlt_le_dec x 0 then true else false in
  let n := Qfloor (Qabs x * 100 + (1 # 2)) in
  ((if neg then "-" else "") ++
   NilZero.string_of_uint (N.to_uint (Z.to_N (n / 100))) ++
   String "."
     (String (digit_char ((n mod 100) / 10))
        (String (digit_char (n mod 10)) EmptyString)))%string.

(** ** Animated objects (shared by both execution contexts)

    The cube construction loop and the per-object update are the same text
    in the worker's and in the component's [createScene] / [animate]. *)

Module Vec3.
Record t : Type := mk { x : Q; y : Q; z : Q }.
Definition zero : t := mk 0 0 0.
End Vec3.

Module Velocity.
Record t : Type := mk { x : Q; y : Q; z : Q; rx : Q; ry : Q; rz : Q }.
End Velocity.

Record Mesh : Type := mkMesh {
  color : Q;
  position : Vec3.t;
  rotation : Vec3.t;
  velocity : Velocity.t       (* cube.userData.velocity *)
}.

Definition boundary : Q := 25.

(** One cube of [createScene]; [rand] is the stream of [Math.random()]
    results drawn by this cube, in the order of the calls. *)
Definition newCube (rand : nat -> Q) : Mesh :=
  {| color := rand 0%nat * 16777215;
     position := Vec3.mk ((rand 1%nat - (1 # 2)) * 50)
                         ((rand 2%nat - (1 # 2)) * 50)
                         ((rand 3%nat - (1 # 2)) * 50);
     rotation := Vec3.zero;
     velocity := Velocity.mk ((rand 4%nat - (1 # 2)) * (2 # 100))
                             ((rand 5%nat - (1 # 2)) * (2 # 100))
                             ((rand 6%nat - (1 # 2)) * (2 # 100))
                             ((rand 7%nat - (1 # 2)) * (5 # 100))
                             ((rand 8%nat - (1 # 2)) * (5 # 100))
                             ((rand 9%nat - (1 # 2)) * (5 # 100)) |}.

(** [for (let i = 0; i < objectCount; i++) { ...; objects.push(cube); }]
    Each cube draws ten random numbers. *)
Fixpoint createCubes (n : nat) (rand : nat -> Q) : list Mesh :=
  match n with
  | O => []
  | S k => newCube rand :: createCubes k (fun i => rand (10 + i)%nat)
  end.

(** [if (Math.abs(p) > 25) v *= -1;] *)
Definition bounce (p v : Q) : Q :=
  if Qlt_le_dec boundary (Math_abs p) then v * (-1) else v.

(** The body of [objects.forEach(obj => { ... })]. *)
Definition updateObject (obj : Mesh) : Mesh :=
  let p := position obj in
  let r := rotation obj in
  let v := velocity obj in
  let px := Vec3.x p + Velocity.x v in
  let py := Vec3.y p + Velocity.y v in
  let pz := Vec3.z p + Velocity.z v in
  let v' := Velocity.mk (bounce px (Velocity.x v))
                        (bounce py (Velocity.y v))
                        (bounce pz (Velocity.z v))
                        (Velocity.rx v) (Velocity.ry v) (Velocity.rz v) in
  {| color := color obj;
     position := Vec3.mk px py pz;
     rotation := Vec3.mk (Vec3.x r + Velocity.rx v')
                         (Vec3.y r + Velocity.ry v')
                         (Vec3.z r + Velocity.rz v');
     velocity := v' |}.

Definition updateObjects (objs : list Mesh) : list Mesh := map updateObject objs.

(** ** Performance counters and the statistics snapshot

    The worker keeps these as module-level variables, the component as the
    fields of [perfRef.current]; the three blocks of [animate] that touch
    them are the same text in both. *)

(** [1000 / 60] as the division yields it: the double
    0x4030AAAAAAAAAAAB = 4691249611844267 / 2^48, the one nearest to
    50/3 and slightly above it. *)
Definition TARGET_FRAME_TIME : Q := 4691249611844267 # 281474976710656.

Module Stats.
(** [{ type: 'stats', fps, avgFrameTime, droppedFrames, maxDelay,
    interactionDelay }] *)
Record t : Type := mk {
  fps : JsValue;
  avgFrameTime : JsValue;
  droppedFrames : JsValue;
  maxDelay : JsValue;
  interactionDelay : JsValue
}.
End Stats.

Module Perf.
Record t : Type := mk {
  lastTime : Q;
  frames : nat;
  frameTimes : list Q;
  droppedFrames : nat;
  maxDelay : Q;
  lastInteractionTime : Q;
  interactionDelay : Q;
  interactionDelays : list Q
}.

(** The initial values; [t0] is the [performance.now()] reading. *)
Definition fresh (t0 : Q) : t := mk t0 0 [] 0 0 0 0 [].

(** [if (lastInteractionTime > 0) { ... lastInteractionTime = 0; }] *)
Definition measureInteraction (dateNow : Q) (p : t) : t :=
  if Qlt_le_dec 0 (lastInteractionTime p) then
    let currentDelay := dateNow - lastInteractionTime p in
    let delays := push_bounded 30 currentDelay (interactionDelays p) in
    mk (lastTime p) (frames p) (frameTimes p) (droppedFrames p) (maxDelay p)
       0 (mean delays) delays
  else p.

(** From [frameTimes.push(frameTime)] to [frames++]. *)
Definition recordFrame (frameTime : Q) (p : t) : t :=
  mk (lastTime p)
     (S (frames p))
     (push_bounded 60 frameTime (frameTimes p))
     (if Qlt_le_dec TARGET_FRAME_TIME frameTime
      then S (droppedFrames p) else droppedFrames p)
     (Math_max (maxDelay p) frameTime)
     (lastInteractionTime p) (interactionDelay p) (interactionDelays p).

(** [now >= lastTime + 1000] *)
Definition due (now : Q) (p : t) : bool :=
  if Qlt_le_dec now (lastTime p + 1000) then false else true.

(** [Math.round(frames * 1000 / (now - lastTime))] *)
Definition computeFps (now : Q) (p : t) : Z :=
  Math_round (inject_Z (Z.of_nat (frames p)) * 1000 / (now - lastTime p)).

(** The object handed to [postMessage] / [setStats]. *)
Definition snapshot (now : Q) (p : t) : Stats.t :=
  {| Stats.fps := JNumber (inject_Z (computeFps now p));
     Stats.avgFrameTime := JString (toFixed2 (mean (frameTimes p)));
     Stats.droppedFrames := JNumber (inject_Z (Z.of_nat (droppedFrames p)));
     Stats.maxDelay := JString (toFixed2 (maxDelay p));
     Stats.interactionDelay := JString (toFixed2 (interactionDelay p)) |}.

(** [frames = 0; lastTime = now; ...; droppedFrames = 0; maxDelay = 0;] *)
Definition restart (now : Q) (p : t) : t :=
  mk now 0 (frameTimes p) 0 0
     (lastInteractionTime p) (interactionDelay p) (interactionDelays p).

(** [if (now >= lastTime + 1000) { ... }] *)
Definition emitStats (now : Q) (p : t) : t * option Stats.t :=
  if due now p then (restart now p, Some (snapshot now p)) else (p, None).
End Perf.

(** The clock readings of one call of [animate], in call order:
    [performance.now()] at the top, [Date.now()] in the interaction block
    (read only when a timestamp is pending), [performance.now()] after
    [render], and [performance.now()] for the FPS block. *)
Record FrameClock : Type := mkClock {
  frameStart : Q;
  dateNow : Q;
  rendered : Q;
  now : Q
}.

Inductive Light : Type :=
| AmbientLight (color intensity : Q)
| DirectionalLight (color intensity : Q) (at_ : Vec3.t).

(** What [createScene] adds before the cubes. *)
Definition sceneLights : list Light :=
  [AmbientLight 16777215 (1 # 2);
   DirectionalLight 16777215 (1 # 2) (Vec3.mk 10 10 10)].

(** [Math.sin] and [Math.cos] of the host. *)
Class MathLib : Type := {
  Math_sin : Q -> Q;
  Math_cos : Q -> Q
}.

(** ** The worker script *)

(** The [interaction] payload, one constructor per [action]; [timestamp]
    is optional in the protocol. *)
Inductive Interaction : Type :=
| ActionStart (timestamp : option Q)
| ActionRotate (deltaX deltaY : Q)
| ActionEnd
| ActionZoom (delta : Q) (timestamp : option Q).

(** Messages to the worker, by [type]; the canvas of [init] is not
    modelled, [objectCount] may be absent. *)
Inductive Message : Type :=
| MsgInit (width height pixelRatio : Q) (objectCount : option Z)
| MsgResize (width height : Q)
| MsgUpdateCount (count : Z)
| MsgInteraction (data : Interaction)
| MsgOther.

(** [if (timestamp)]: present and not zero. *)
Definition truthy (v : option Q) : bool :=
  match v with
  | Some t => negb (Qeq_bool t 0)
  | None => false
  end.

(** [count || 100] *)
Definition or_default (count : option Z) (d : Z) : Z :=
  match count with
  | Some n => if Z.eqb n 0 then d else n
  | None => d
  end.

Definition dampingFactor : Q := 5 # 100.

Module Worker.

(** [{ x, y }] of [cameraRotation] and [cameraRotationTarget]:
    [x] is the pitch, [y] the yaw. *)
Record Rotation : Type := mkRotation { x : Q; y : Q }.

Record Camera : Type := mkCamera {
  aspect : Q;
  cam_position : Vec3.t;            (* camera.position *)
  lookingAt : option Vec3.t         (* the last camera.lookAt(...) *)
}.

(** The module-level variables.  [scene] and [camera] are [undefined]
    ([None]) until [init]; the cubes are children of the scene and
    elements of [objects] at once and are stored once, in [objects]. *)
Record t : Type := mk {
  scene : option (list Light);
  camera : option Camera;
  objects : list Mesh;
  objectCount : Z;
  perf : Perf.t;
  fps : Z;
  cameraRotation : Rotation;
  cameraRotationTarget : Rotation;
  cameraDistance : Q;
  cameraDistanceTarget : Q;
  isDragging : bool
}.

Definition initial (t0 : Q) : t :=
  {| scene := None; camera := None; objects := []; objectCount := 100;
     perf := Perf.fresh t0; fps := 0;
     cameraRotation := mkRotation 0 0;
     cameraRotationTarget := mkRotation 0 0;
     cameraDistance := 30; cameraDistanceTarget := 30;
     isDragging := false |}.

Definition set_perf (p : Perf.t) (w : t) : t :=
  mk (scene w) (camera w) (objects w) (objectCount w) p (fps w)
     (cameraRotation w) (cameraRotationTarget w)
     (cameraDistance w) (cameraDistanceTarget w) (isDragging w).

Definition set_lastInteractionTime (ts : Q) (w : t) : t :=
  let p := perf w in
  set_perf (Perf.mk (Perf.lastTime p) (Perf.frames p) (Perf.frameTimes p)
                    (Perf.droppedFrames p) (Perf.maxDelay p) ts
                    (Perf.interactionDelay p) (Perf.interactionDelays p)) w.

Definition set_isDragging (b : bool) (w : t) : t :=
  mk (scene w) (camera w) (objects w) (objectCount w) (perf w) (fps w)
     (cameraRotation w) (cameraRotationTarget w)
     (cameraDistance w) (cameraDistanceTarget w) b.

Definition set_cameraRotationTarget (r : Rotation) (w : t) : t :=
  mk (scene w) (camera w) (objects w) (objectCount w) (perf w) (fps w)
     (cameraRotation w) r
     (cameraDistance w) (cameraDistanceTarget w) (isDragging w).

Definition set_cameraDistanceTarget (d : Q) (w : t) : t :=
  mk (scene w) (camera w) (objects w) (objectCount w) (perf w) (fps w)
     (cameraRotation w) (cameraRotationTarget w)
     (cameraDistance w) d (isDragging w).

Definition set_objectCount (n : Z) (w : t) : t :=
  mk (scene w) (camera w) (objects w) n (perf w) (fps w)
     (cameraRotation w) (cameraRotationTarget w)
     (cameraDistance w) (cameraDistanceTarget w) (isDragging w).

Definition set_camera (c : option Camera) (w : t) : t :=
  mk (scene w) c (objects w) (objectCount w) (perf w) (fps w)
     (cameraRotation w) (cameraRotationTarget w)
     (cameraDistance w) (cameraDistanceTarget w) (isDragging w).

Definition handleInteraction (data : Interaction) (w : t) : t :=
  match data with
  | ActionStart timestamp =>
      let w1 := set_isDragging true w in
      match timestamp with
      | Some ts => if truthy timestamp then set_lastInteractionTime ts w1 else w1
      | None => w1
      end
  | ActionRotate deltaX deltaY =>
      if isDragging w then
        let ty := y (cameraRotationTarget w) - deltaX * (5 # 1000) in
        let tx := x (cameraRotationTarget w) + deltaY * (5 # 1000) in
        let tx' := Math_max (- Math_PI / 2) (Math_min (Math_PI / 2) tx) in
        set_cameraRotationTarget (mkRotation tx' ty) w
      else w
  | ActionEnd => set_isDragging false w
  | ActionZoom delta timestamp =>
      let d := cameraDistanceTarget w + delta * (5 # 100) in
      let w1 := set_cameraDistanceTarget (Math_max 10 (Math_min 100 d)) w in
      match timestamp with
      | Some ts => if truthy timestamp then set_lastInteractionTime ts w1 else w1
      | None => w1
      end
  end.

Section WithMath.
Context {M : MathLib}.

(** The three damping assignments, then the camera placement.  With
    [camera] undefined the placement throws; the damped values have
    been stored by then. *)
Definition updateCameraPosition (w : t) : t :=
  let cur := cameraRotation w in
  let tgt := cameraRotationTarget w in
  let rx := x cur + (x tgt - x cur) * dampingFactor in
  let ry := y cur + (y tgt - y cur) * dampingFactor in
  let d := cameraDistance w
           + (cameraDistanceTarget w - cameraDistance w) * dampingFactor in
  let cam :=
    match camera w with
    | Some c =>
        Some (mkCamera (aspect c)
                (Vec3.mk (d * Math_sin ry * Math_cos rx)
                         (d * Math_sin rx)
                         (d * Math_cos ry * Math_cos rx))
                (Some (Vec3.mk 0 0 0)))
    | None => None
    end in
  mk (scene w) cam (objects w) (objectCount w) (perf w) (fps w)
     (mkRotation rx ry) tgt d (cameraDistanceTarget w) (isDragging w).

(** Clears the scene and [objects], adds the lights and [objectCount]
    cubes.  With [scene] undefined the first line throws and nothing
    is changed. *)
Definition createScene (rand : nat -> Q) (w : t) : t :=
  match scene w with
  | None => w
  | Some _ =>
      mk (Some sceneLights) (camera w)
         (createCubes (Z.to_nat (objectCount w)) rand)
         (objectCount w) (perf w) (fps w)
         (cameraRotation w) (cameraRotationTarget w)
         (cameraDistance w) (cameraDistanceTarget w) (isDragging w)
  end.

(** One frame; the result carries the [stats] message when one is
    posted. *)
Definition animate (clk : FrameClock) (w : t) : t * option Stats.t :=
  let w1 := updateCameraPosition w in
  let p1 := Perf.measureInteraction (dateNow clk) (perf w1) in
  let objs := updateObjects (objects w1) in
  let frameTime := rendered clk - frameStart clk in
  let p2 := Perf.recordFrame frameTime p1 in
  let fps' := if Perf.due (now clk) p2
              then Perf.computeFps (now clk) p2 else fps w1 in
  let (p3, out) := Perf.emitStats (now clk) p2 in
  (mk (scene w1) (camera w1) objs (objectCount w1) p3 fps'
      (cameraRotation w1) (cameraRotationTarget w1)
      (cameraDistance w1) (cameraDistanceTarget w1) (isDragging w1),
   out).

(** What a message handler reads from its environment: the random
    numbers drawn by [createScene] and the clock of the frame that
    [init] runs. *)
Record Env : Type := mkEnv {
  rand : nat -> Q;
  clock : FrameClock
}.

Definition onmessage (m : Message) (env : Env) (w : t)
  : t * option Stats.t :=
  match m with
  | MsgInit width height pixelRatio count =>
      let w1 :=
        mk (Some []) (Some (mkCamera (width / height) Vec3.zero None))
           (objects w) (or_default count 100) (perf w) (fps w)
           (cameraRotation w) (cameraRotationTarget w)
           (cameraDistance w) (cameraDistanceTarget w) (isDragging w) in
      animate (clock env) (createScene (rand env) (updateCameraPosition w1))
  | MsgResize width height =>
      match camera w with
      | Some c =>
          (set_camera
             (Some (mkCamera (width / height) (cam_position c) (lookingAt c)))
             w, None)
      | None => (w, None)
      end
  | MsgUpdateCount count =>
      (createScene (rand env) (set_objectCount count w), None)
  | MsgInteraction data => (handleInteraction data w, None)
  | MsgOther => (w, None)
  end.

(** The worker's event loop: a message is delivered, or the frame
    callback registered by [animate] fires (only after [init] has
    started the loop). *)
Inductive Event : Type :=
| Receive (m : Message) (env : Env)
| Frame (clk : FrameClock).

Definition step (e : Event) (w : t) : t * option Stats.t :=
  match e with
  | Receive m env => onmessage m env w
  | Frame clk =>
      match camera w with
      | Some _ => animate clk w
      | None => (w, None)
      end
  end.

(** The state after a sequence of events and the messages posted. *)
Fixpoint run (evs : list Event) (w : t) : t * list Stats.t :=
  match evs with
  | [] => (w, [])
  | e :: rest =>
      let (w1, out) := step e w in
      let (w2, outs) := run rest w1 in
      (w2, match out with Some s => s :: outs | None => outs end)
  end.

(** [n] consecutive frames with the given clocks and no message in
    between. *)
Fixpoint frames_from (clks : list FrameClock) (w : t) : t :=
  match clks with
  | [] => w
  | c :: rest => frames_from rest (fst (animate c w))
  end.
End WithMath.
End Worker.

(** ** The main-thread loop of the component *)

Module MainThread.

Inductive RenderMode : Type := none | offscreen | main.

(** The refs the loop works on: [sceneRef.current] (its lights; the
    cubes are in [objects]), [objectsRef.current], [perfRef.current].
    Camera, renderer and orbit controls belong to the 3D library. *)
Record t : Type := mk {
  sceneRef : option (list Light);
  objects : list Mesh;
  perf : Perf.t
}.

Definition objectCount : Z := 20000.

Definition initial (t0 : Q) : t := mk None [] (Perf.fresh t0).

(** [if (!scene) return;] then the same construction as the worker's. *)
Definition createScene (rand : nat -> Q) (st : t) : t :=
  match sceneRef st with
  | None => st
  | Some _ =>
      mk (Some sceneLights) (createCubes (Z.to_nat objectCount) rand) (perf st)
  end.

(** The [start] listener of the orbit controls:
    [perfRef.current.lastInteractionTime = Date.now()]. *)
Definition onControlsStart (dateNow : Q) (st : t) : t :=
  let p := perf st in
  mk (sceneRef st) (objects st)
     (Perf.mk (Perf.lastTime p) (Perf.frames p) (Perf.frameTimes p)
              (Perf.droppedFrames p) (Perf.maxDelay p) dateNow
              (Perf.interactionDelay p) (Perf.interactionDelays p)).

(** [perfRef.current = { lastTime: performance.now(), frames: 0, ... }]
    of [toggleRenderMode] and [clearCanvas]. *)
Definition resetPerf (t0 : Q) (st : t) : t :=
  mk (sceneRef st) (objects st) (Perf.fresh t0).

(** [cleanupMainThread], as far as these refs go. *)
Definition cleanupMainThread (st : t) : t := mk None [] (perf st).

(** One frame.  [currentMode] is the value the closure captured; the
    argument of [setStats] is returned with the state. *)
Definition animate (currentMode : RenderMode) (clk : FrameClock) (st : t)
  : t * option Stats.t :=
  match currentMode with
  | main =>
      let p1 := Perf.measureInteraction (dateNow clk) (perf st) in
      let objs := updateObjects (objects st) in
      let frameTime := rendered clk - frameStart clk in
      let p2 := Perf.recordFrame frameTime p1 in
      let (p3, out) := Perf.emitStats (now clk) p2 in
      (mk (sceneRef st) objs p3, out)
  | _ => (st, None)
  end.

(** [initMainThreadMode] from [sceneRef.current = scene] on. *)
Definition initMainThreadMode (currentMode : RenderMode)
           (rand : nat -> Q) (clk : FrameClock) (st : t)
  : t * option Stats.t :=
  animate currentMode clk
          (createScene rand (mk (Some []) (objects st) (perf st))).

Inductive Event : Type :=
| Init (currentMode : RenderMode) (rand : nat -> Q) (clk : FrameClock)
| ControlsStart (dateNow : Q)
| ResetPerf (t0 : Q)
| Cleanup
| Frame (currentMode : RenderMode) (clk : FrameClock).

Definition step (e : Event) (st : t) : t * option Stats.t :=
  match e with
  | Init mode rand clk => initMainThreadMode mode rand clk st
  | ControlsStart dn => (onControlsStart dn st, None)
  | ResetPerf t0 => (resetPerf t0 st, None)
  | Cleanup => (cleanupMainThread st, None)
  | Frame mode clk => animate mode clk st
  end.

Fixpoint run (evs : list Event) (st : t) : t * list Stats.t :=
  match evs with
  | [] => (st, [])
  | e :: rest =>
      let (s1, out) := step e st in
      let (s2, outs) := run rest s1 in
      (s2, match out with Some s => s :: outs | None => outs end)
  end.
End MainThread.

(** ** Vocabulary of the statements *)

(** What is left of a distance to the target after [n] frames of
    damping: [(1 - dampingFactor)^n]. *)
Fixpoint decay (n : nat) : Q :=
  match n with
  | O => 1
  | S k => (1 - dampingFactor) * decay k
  end.

(** The messages that reach the two clamped assignments. *)
Definition is_rotate (m : Message) : bool :=
  match m with
  | MsgInteraction (ActionRotate _ _) => true
  | _ => false
  end.

Definition is_zoom (m : Message) : bool :=
  match m with
  | MsgInteraction (ActionZoom _ _) => true
  | _ => false
  end.

(** The two clamping invariants of the camera targets. *)
Definition pitch_ok (w : Worker.t) : Prop :=
  - Math_PI / 2 <= Worker.x (Worker.cameraRotationTarget w) <= Math_PI / 2.

Definition distance_ok (w : Worker.t) : Prop :=
  10 <= Worker.cameraDistanceTarget w <= 100.

(** One of the three position components of an object together with the
    matching linear velocity component. *)
Inductive Axis : Type := AxisX | AxisY | AxisZ.

Definition pos (a : Axis) (o : Mesh) : Q :=
  match a with
  | AxisX => Vec3.x (position o)
  | AxisY => Vec3.y (position o)
  | AxisZ => Vec3.z (position o)
  end.

Definition vel (a : Axis) (o : Mesh) : Q :=
  match a with
  | AxisX => Velocity.x (velocity o)
  | AxisY => Velocity.y (velocity o)
  | AxisZ => Velocity.z (velocity o)
  end.

(** The contract of [Math.random()]: a number in [[0, 1)]. *)
Definition random_ok (rand : nat -> Q) : Prop := forall i, 0 <= rand i < 1.

Definition worker_random_ok (e : Worker.Event) : Prop :=
  match e with
  | Worker.Receive _ env => random_ok (Worker.rand env)
  | Worker.Frame _ => True
  end.

Definition main_random_ok (e : MainThread.Event) : Prop :=
  match e with
  | MainThread.Init _ rand _ => random_ok rand
  | _ => True
  end.

(** On axis [a] the object is within the boundary, or its next move
    brings it back within. *)
Definition returning (a : Axis) (o : Mesh) : Prop :=
  Qabs (pos a o) <= boundary \/ Qabs (pos a o + vel a o) <= boundary.

(** The measured duration of a frame. *)
Definition frameTime (clk : FrameClock) : Q := rendered clk - frameStart clk.

(** The counters when a frame reaches its FPS block, and after it: the
    three statistics blocks of [animate] in the order they run. *)
Definition perf_before_stats (clk : FrameClock) (p : Perf.t) : Perf.t :=
  Perf.recordFrame (frameTime clk) (Perf.measureInteraction (dateNow clk) p).

Definition perf_after_frame (clk : FrameClock) (p : Perf.t)
  : Perf.t * option Stats.t :=
  Perf.emitStats (now clk) (perf_before_stats clk p).

(** Timestamps are [Date.now()] readings: milliseconds since the epoch,
    never negative. *)
Definition worker_clock_ok (e : Worker.Event) : Prop :=
  match e with
  | Worker.Receive (MsgInteraction (ActionStart (Some ts))) _ => 0 <= ts
  | Worker.Receive (MsgInteraction (ActionZoom _ (Some ts))) _ => 0 <= ts
  | _ => True
  end.

Definition main_clock_ok (e : MainThread.Event) : Prop :=
  match e with
  | MainThread.ControlsStart dn => 0 <= dn
  | _ => True
  end.

(** What the counters keep true between events. *)
Definition perf_ok (p : Perf.t) : Prop :=
  0 <= Perf.lastInteractionTime p
  /\ (length (Perf.interactionDelays p) <= 30)%nat
  /\ (length (Perf.frameTimes p) <= 60)%nat.

(** The interaction block of a frame, from the counters [p] before the
    frame to the counters [p'] after it: with a pending (nonzero)
    timestamp the delay is appended, the oldest entry leaves when that
    makes 31, the reported delay is the mean of the new contents and the
    timestamp is cleared; without one nothing changes.  The buffer holds
    at most 30 entries before and after. *)
Definition delay_measured (clk : FrameClock) (p p' : Perf.t) : Prop :=
  (length (Perf.interactionDelays p) <= 30)%nat
  /\ (length (Perf.interactionDelays p') <= 30)%nat
  /\ (~ Perf.lastInteractionTime p == 0 ->
      let d := dateNow clk - Perf.lastInteractionTime p in
      let l := Perf.interactionDelays p ++ [d] in
      Perf.interactionDelays p'
      = (if Nat.ltb 30 (length l) then tl l else l)
      /\ Perf.interactionDelay p'
         == fold_right Qplus 0 (Perf.interactionDelays p')
            / inject_Z (Z.of_nat (length (Perf.interactionDelays p')))
      /\ Perf.lastInteractionTime p' = 0)
  /\ (Perf.lastInteractionTime p == 0 ->
      Perf.interactionDelays p' = Perf.interactionDelays p
      /\ Perf.interactionDelay p' = Perf.interactionDelay p
      /\ Perf.lastInteractionTime p' = Perf.lastInteractionTime p).

(** The dropped-frame test and the dropped frames of a list of frames. *)
Definition over_target (clk : FrameClock) : bool :=
  if Qlt_le_dec TARGET_FRAME_TIME (frameTime clk) then true else false.

Definition dropped_in (clks : list FrameClock) : nat :=
  length (filter over_target clks).

(** The frame an event makes the worker run, if any: the frame callback
    once the loop is started, and the call of [animate] that ends [init]. *)
Definition worker_frame_of (e : Worker.Event) (w : Worker.t) : option FrameClock :=
  match e with
  | Worker.Frame clk =>
      match Worker.camera w with Some _ => Some clk | None => None end
  | Worker.Receive (MsgInit _ _ _ _) env => Some (Worker.clock env)
  | Worker.Receive _ _ => None
  end.

Definition add_frame (acc : list FrameClock) (f : option FrameClock)
  : list FrameClock :=
  match f with
  | Some clk => acc ++ [clk]
  | None => acc
  end.

(** The frames run while the worker processes [evs] from [w], after the
    frames [acc] already run in the current statistics window. *)
Fixpoint worker_window {M : MathLib} (evs : list Worker.Event) (w : Worker.t)
         (acc : list FrameClock) : list FrameClock :=
  match evs with
  | [] => acc
  | e :: rest =>
      worker_window rest (fst (Worker.step e w))
                    (add_frame acc (worker_frame_of e w))
  end.

Definition main_frame_of (e : MainThread.Event) : option FrameClock :=
  match e with
  | MainThread.Frame MainThread.main clk => Some clk
  | MainThread.Init MainThread.main _ clk => Some clk
  | _ => None
  end.

(** The same for the component; replacing [perfRef.current] starts the
    window afresh. *)
Fixpoint main_window (evs : list MainThread.Event) (acc : list FrameClock)
  : list FrameClock :=
  match evs with
  | [] => acc
  | MainThread.ResetPerf _ :: rest => main_window rest []
  | e :: rest => main_window rest (add_frame acc (main_frame_of e))
  end.

(** Shapes of the fields of a snapshot. *)
Definition is_number (v : JsValue) (q : Q) : Prop :=
  match v with
  | JNumber q' => q' == q
  | JString _ => False
  end.

Definition is_digit (c : ascii) : bool :=
  (Nat.leb 48 (nat_of_ascii c) && Nat.leb (nat_of_ascii c) 57)%bool.

(** A string that ends in a point and two decimal digits. *)
Definition two_decimals (v : JsValue) : Prop :=
  match v with
  | JString s =>
      exists (pre : string) (d1 d2 : ascii),
        s = (pre ++ String "." (String d1 (String d2 EmptyString)))%string
        /\ is_digit d1 = true /\ is_digit d2 = true
  | JNumber _ => False
  end.

(** The window the worker has just completed when the frame [clk] posts
    a snapshot from the state [w]: the frames rendered (this one
    included) and the milliseconds elapsed since [lastTime]. *)
Definition frames_rendered (w : Worker.t) : Q :=
  inject_Z (Z.of_nat (S (Perf.frames (Worker.perf w)))).

Definition elapsed_ms (clk : FrameClock) (w : Worker.t) : Q :=
  now clk - Perf.lastTime (Worker.perf w).

(** The snapshot as the specification words it: [fps] is the number
    [frames_rendered * 1000 / elapsed_ms], every other field is a string
    with two decimals, and the frame counter is 0 afterwards. *)
Definition stats_as_worded {M : MathLib} (clk : FrameClock) (w : Worker.t) : Prop :=
  forall m : Stats.t,
    snd (Worker.animate clk w) = Some m ->
    is_number (Stats.fps m) (frames_rendered w * 1000 / elapsed_ms clk w)
    /\ two_decimals (Stats.avgFrameTime m)
    /\ two_decimals (Stats.droppedFrames m)
    /\ two_decimals (Stats.maxDelay m)
    /\ two_decimals (Stats.interactionDelay m)
    /\ Perf.frames (Worker.perf (fst (Worker.animate clk w))) = 0%nat.

(** The FPS block when it posts a snapshot, from the counters [p] it
    finds to the counters [p'] it leaves: frame counter, dropped-frame
    counter and maximum delay are 0, [lastTime] is the time of the
    snapshot, and the two buffers, the reported interaction delay and
    the pending timestamp are as before. *)
Definition snapshot_effect (at_ : Q) (p p' : Perf.t) : Prop :=
  Perf.frames p' = 0%nat
  /\ Perf.droppedFrames p' = 0%nat
  /\ Perf.maxDelay p' = 0
  /\ Perf.lastTime p' = at_
  /\ Perf.frameTimes p' = Perf.frameTimes p
  /\ Perf.interactionDelays p' = Perf.interactionDelays p
  /\ Perf.interactionDelay p' = Perf.interactionDelay p
  /\ Perf.lastInteractionTime p' = Perf.lastInteractionTime p.

(** The same frame with another reading of the last clock. *)
Definition with_now (t : Q) (clk : FrameClock) : FrameClock :=
  mkClock (frameStart clk) (dateNow clk) (rendered clk) t.

(** ** Sample runs *)

(** A host whose sine and cosine are their low-order Taylor polynomials;
    it serves to run the model on concrete inputs. *)
Definition taylorMath : MathLib :=
  {| Math_sin := fun a => a - a * a * a / 6;
     Math_cos := fun a => 1 - a * a / 2 |}.

(** A frame that starts at [t] ms and takes [d] ms. *)
Definition frameAt (t d : Q) : FrameClock := mkClock t t (t + d) (t + d).

(** A worker after [init] with 3 objects, a drag of (100, 40) pixels and a
    wheel step of 200. *)
Definition sampleEvents : list Worker.Event :=
  let env := Worker.mkEnv (fun i => inject_Z (Z.of_nat i) / 40) (frameAt 0 5) in
  [Worker.Receive (MsgInit 800 600 2 (Some 3%Z)) env;
   Worker.Receive (MsgInteraction (ActionStart (Some 1000))) env;
   Worker.Receive (MsgInteraction (ActionRotate 100 40)) env;
   Worker.Receive (MsgInteraction (ActionZoom 200 (Some 1010))) env].

Definition sampleWorker : Worker.t :=
  fst (@Worker.run taylorMath sampleEvents (Worker.initial 0)).

(** A component whose orbit controls reported a drag start at 1000 ms
    after one frame was drawn (no scene is built). *)
Definition sampleMainEvents : list MainThread.Event :=
  [MainThread.Frame MainThread.main (frameAt 0 20);
   MainThread.ControlsStart 1000].

Definition sampleMain : MainThread.t :=
  fst (MainThread.run sampleMainEvents (MainThread.initial 0)).

(** Random numbers that place a cube at x = 24.99 with x velocity 0.0098
    (everything else centred), and a worker initialised with that single
    cube: its second frame carries the cube across the boundary. *)
Definition crossingRand (i : nat) : Q :=
  match i with
  | 1%nat => 9998 # 10000
  | 4%nat => 99 # 100
  | _ => 1 # 2
  end.

Definition crossingEvents : list Worker.Event :=
  [Worker.Receive (MsgInit 800 600 1 (Some 1%Z))
                  (Worker.mkEnv crossingRand (frameAt 0 5))].

(** A statistics window of the worker, from start-up to the first
    snapshot: frames of 5, 20, 18 and 20 ms, the last one ending 1010 ms
    after [lastTime]. *)
Definition windowEvents : list Worker.Event :=
  [Worker.Receive (MsgInit 800 600 1 (Some 2%Z))
                  (Worker.mkEnv (fun _ => 1 # 2) (frameAt 0 5));
   Worker.Frame (frameAt 300 20);
   Worker.Frame (frameAt 600 18)].

Definition windowClose : Worker.Event := Worker.Frame (frameAt 990 20).

(** The same for the component: frames of 20, 10 and 30 ms. *)
Definition mainWindowEvents : list MainThread.Event :=
  [MainThread.Frame MainThread.main (frameAt 0 20);
   MainThread.Frame MainThread.main (frameAt 500 10)].

Definition mainWindowClose : MainThread.Event :=
  MainThread.Frame MainThread.main (frameAt 990 30).

(** The worker just before the frame that closes its first window. *)
Definition windowWorker : Worker.t :=
  fst (@Worker.run taylorMath windowEvents (Worker.initial 0)).

(** ** The interaction relay of the component

    [setupOffscreenControls]: the listeners the component puts on the
    visible canvas while the worker renders.  Each returns the messages
    it posts. *)

Module Relay.

(** The three local variables the listeners share. *)
Record t : Type := mk { isDragging : bool; lastMouseX : Q; lastMouseY : Q }.

Definition initial : t := mk false 0 0.

(** [timestamp: Date.now()]; [dateNow] is that reading. *)
Definition handleMouseDown (clientX clientY dateNow : Q) (r : t)
  : t * list Message :=
  (mk true clientX clientY,
   [MsgInteraction (ActionStart (Some dateNow))]).

Definition handleMouseMove (clientX clientY : Q) (r : t) : t * list Message :=
  if isDragging r then
    let deltaX := clientX - lastMouseX r in
    let deltaY := clientY - lastMouseY r in
    (mk (isDragging r) clientX clientY,
     [MsgInteraction (ActionRotate deltaX deltaY)])
  else (r, []).

Definition handleMouseUp (r : t) : t * list Message :=
  (mk false (lastMouseX r) (lastMouseY r), [MsgInteraction ActionEnd]).

Definition handleWheel (deltaY dateNow : Q) (r : t) : t * list Message :=
  (r, [MsgInteraction (ActionZoom deltaY (Some dateNow))]).

(** The DOM events the canvas listens to. *)
Inductive DomEvent : Type :=
| mousedown (clientX clientY dateNow : Q)
| mousemove (clientX clientY : Q)
| mouseup
| wheel (deltaY dateNow : Q).

Definition dispatch (e : DomEvent) (r : t) : t * list Message :=
  match e with
  | mousedown cx cy dn => handleMouseDown cx cy dn r
  | mousemove cx cy => handleMouseMove cx cy r
  | mouseup => handleMouseUp r
  | wheel dy dn => handleWheel dy dn r
  end.

(** The listeners' state after a sequence of DOM events and everything
    posted, in posting order. *)
Fixpoint run (es : list DomEvent) (r : t) : t * list Message :=
  match es with
  | [] => (r, [])
  | e :: rest =>
      let (r1, out) := dispatch e r in
      let (r2, outs) := run rest r1 in
      (r2, out ++ outs)
  end.
End Relay.

(** The interaction payloads among messages and among the events of the
    worker, in order. *)
Definition payload (m : Message) : list Interaction :=
  match m with
  | MsgInteraction d => [d]
  | _ => []
  end.

Definition interactions_of (evs : list Worker.Event) : list Interaction :=
  flat_map (fun e => match e with
                     | Worker.Receive m _ => payload m
                     | Worker.Frame _ => []
                     end) evs.

(** [handleInteraction] over a list of payloads. *)
Definition handleAll (ds : list Interaction) (w : Worker.t) : Worker.t :=
  fold_left (fun w d => Worker.handleInteraction d w) ds w.

(** The [Date.now()] readings of DOM events are not negative. *)
Definition dom_clock_ok (e : Relay.DomEvent) : Prop :=
  match e with
  | Relay.mousedown _ _ dn => 0 <= dn
  | Relay.wheel _ dn => 0 <= dn
  | _ => True
  end.

(** The mouse path of one drag: the moves that follow a button press. *)
Definition dragPath (pts : list (Q * Q)) : list Relay.DomEvent :=
  map (fun p => Relay.mousemove (fst p) (snd p)) pts.

(** The timestamp a payload stores, if any, and the timestamp pending
    after a list of payloads. *)
Definition stamp_of (d : Interaction) : option Q :=
  match d with
  | ActionStart (Some ts) => if truthy (Some ts) then Some ts else None
  | ActionZoom _ (Some ts) => if truthy (Some ts) then Some ts else None
  | _ => None
  end.

Fixpoint latest_stamp (ds : list Interaction) (pending : Q) : Q :=
  match ds with
  | [] => pending
  | d :: rest =>
      latest_stamp rest (match stamp_of d with Some ts => ts | None => pending end)
  end.

(** The worker events that deliver a list of payloads. *)
Definition deliver (env : Worker.Env) (ds : list Interaction) : list Worker.Event :=
  map (fun d => Worker.Receive (MsgInteraction d) env) ds.

(** Two worker states with the same drag flag and camera targets. *)
Definition same_controls (w1 w2 : Worker.t) : Prop :=
  Worker.isDragging w1 = Worker.isDragging w2
  /\ Worker.cameraRotationTarget w1 = Worker.cameraRotationTarget w2
  /\ Worker.cameraDistanceTarget w1 = Worker.cameraDistanceTarget w2.

(** A drag from (100, 100) over (110, 95) to (130, 90), then a wheel
    step; and the events of a worker that receives what the relay posts
    for it after [init], with a frame in between. *)
Definition sampleDom : list Relay.DomEvent :=
  [Relay.mousedown 100 100 1000;
   Relay.mousemove 110 95;
   Relay.mousemove 130 90;
   Relay.mouseup;
   Relay.wheel 120 2000].

Definition sampleDelivery : list Worker.Event :=
  let env := Worker.mkEnv (fun _ => 1 # 2) (frameAt 0 5) in
  [Worker.Receive (MsgInit 800 600 1 (Some 2%Z)) env;
   Worker.Receive (MsgInteraction (ActionStart (Some 1000))) env;
   Worker.Receive (MsgInteraction (ActionRotate 10 (-5))) env;
   Worker.Frame (frameAt 1004 3);
   Worker.Receive (MsgInteraction (ActionRotate 20 (-5))) env;
   Worker.Receive (MsgInteraction ActionEnd) env;
   Worker.Receive (MsgInteraction (ActionZoom 120 (Some 2000))) env].

(** The drag part of the sample delivery. *)
Definition sampleDragDelivery : list Worker.Event := firstn 5 sampleDelivery.

(** A payload whose timestamp, if it has one, is a clock reading. *)
Definition stamp_ok (d : Interaction) : Prop :=
  match d with
  | ActionStart (Some ts) => 0 <= ts
  | ActionZoom _ (Some ts) => 0 <= ts
  | _ => True
  end.

(** The last [n] elements of a list. *)
Definition lastn {A : Type} (n : nat) (l : list A) : list A :=
  skipn (length l - n) l.

(** The largest of the durations of a list of frames, 0 if none is
    positive. *)
Definition longest (clks : list FrameClock) : Q :=
  fold_left Qmax (map frameTime clks) 0.

(** On axis [a] the object moves at no more than 0.01 per frame and is
    at most that far outside the boundary. *)
Definition contained (a : Axis) (o : Mesh) : Prop :=
  Qabs (vel a o) <= 1 # 100
  /\ Qabs (pos a o) <= boundary + (1 # 100)
  /\ returning a o.

(** The angular velocity and the rotation of an object about an axis. *)
Definition spin (a : Axis) (o : Mesh) : Q :=
  match a with
  | AxisX => Velocity.rx (velocity o)
  | AxisY => Velocity.ry (velocity o)
  | AxisZ => Velocity.rz (velocity o)
  end.

Definition angle (a : Axis) (o : Mesh) : Q :=
  match a with
  | AxisX => Vec3.x (rotation o)
  | AxisY => Vec3.y (rotation o)
  | AxisZ => Vec3.z (rotation o)
  end.

(** An object after [n] frames. *)
Definition afterFrames (n : nat) (o : Mesh) : Mesh := Nat.iter n updateObject o.

(** ** The lifecycle of the component

    The refs of [OffscreenDemo] and the functions that create and
    release what they hold: [initOffscreenMode], [initMainThreadMode],
    [cleanupWorker], [cleanupMainThread], [clearCanvas],
    [toggleRenderMode] and the effect on [currentMode].  A background
    context is known by the number of its creation; a frame callback by
    the number [requestAnimationFrame] returned for it. *)

Module Demo.

Record t : Type := mk {
  currentMode : MainThread.RenderMode;
  workerRef : option nat;          (* workerRef.current *)
  contexts : list nat;             (* workers created and not terminated *)
  created : nat;                   (* workers created so far *)
  rendererRef : bool;              (* rendererRef.current is set *)
  controlsRef : bool;
  cameraRef : bool;
  animationFrameRef : option nat;  (* animationFrameRef.current *)
  scheduled : list nat;            (* callbacks requested, not run, not cancelled *)
  requested : nat;                 (* callbacks requested so far *)
  canvases : nat;                  (* canvas elements in the container *)
  refs : MainThread.t              (* sceneRef, objectsRef, perfRef *)
}.

(** What a transition reads from outside: whether the container and
    canvas refs are set, whether the canvas yields a WebGL context, the
    [performance.now()] readings of [toggleRenderMode] and [clearCanvas],
    the random numbers of [createScene] and the clock of the first
    frame. *)
Record Env : Type := mkEnv {
  refsSet : bool;
  gl : bool;
  toggleNow : Q;
  clearNow : Q;
  rand : nat -> Q;
  clock : FrameClock
}.

(** The component as first rendered: mode [none], one canvas. *)
Definition initial (t0 : Q) : t :=
  mk MainThread.none None [] 0 false false false None [] 0 1
     (MainThread.initial t0).

Definition cleanupWorker (st : t) : t :=
  match workerRef st with
  | Some id =>
      mk (currentMode st) None (remove Nat.eq_dec id (contexts st)) (created st)
         (rendererRef st) (controlsRef st) (cameraRef st)
         (animationFrameRef st) (scheduled st) (requested st) (canvases st)
         (refs st)
  | None => st
  end.

Definition cleanupMainThread (st : t) : t :=
  mk (currentMode st) (workerRef st) (contexts st) (created st)
     false false false
     None
     (match animationFrameRef st with
      | Some id => remove Nat.eq_dec id (scheduled st)
      | None => scheduled st
      end)
     (requested st) (canvases st)
     (MainThread.cleanupMainThread (refs st)).

(** [oldCanvas.remove()] if there is one, then the new canvas. *)
Definition swapCanvas (n : nat) : nat := S (Nat.pred n).

Definition initOffscreenMode (env : Env) (st : t) : t :=
  let st1 := cleanupMainThread st in
  if refsSet env then
    let id := S (created st1) in
    mk (currentMode st1) (Some id) (contexts st1 ++ [id]) id
       (rendererRef st1) (controlsRef st1) (cameraRef st1)
       (animationFrameRef st1) (scheduled st1) (requested st1)
       (swapCanvas (canvases st1)) (refs st1)
  else st1.

(** [animate] of a render whose mode is [main]: the next callback is
    requested, then the frame runs. *)
Definition animate (clk : FrameClock) (st : t) : t * option Stats.t :=
  let id := S (requested st) in
  let (r, out) := MainThread.animate MainThread.main clk (refs st) in
  (mk (currentMode st) (workerRef st) (contexts st) (created st)
      (rendererRef st) (controlsRef st) (cameraRef st)
      (Some id) (scheduled st ++ [id]) id (canvases st) r,
   out).

Definition initMainThreadMode (env : Env) (st : t) : t * option Stats.t :=
  let st1 := cleanupWorker st in
  if refsSet env then
    let r := MainThread.createScene (rand env)
               (MainThread.mk (Some []) (MainThread.objects (refs st1))
                              (MainThread.perf (refs st1))) in
    animate (clock env)
      (mk (currentMode st1) (workerRef st1) (contexts st1) (created st1)
          true true true
          (animationFrameRef st1) (scheduled st1) (requested st1)
          (swapCanvas (canvases st1)) r)
  else (st1, None).

Definition clearCanvas (env : Env) (st : t) : t :=
  match canvases st with
  | O => st
  | S _ =>
      if gl env then
        mk (currentMode st) (workerRef st) (contexts st) (created st)
           (rendererRef st) (controlsRef st) (cameraRef st)
           (animationFrameRef st) (scheduled st) (requested st) (canvases st)
           (MainThread.resetPerf (clearNow env) (refs st))
      else st
  end.

Definition nextMode (m : MainThread.RenderMode) : MainThread.RenderMode :=
  match m with
  | MainThread.none => MainThread.offscreen
  | MainThread.offscreen => MainThread.main
  | MainThread.main => MainThread.none
  end.

Definition toggleRenderMode (env : Env) (st : t) : t :=
  mk (nextMode (currentMode st)) (workerRef st) (contexts st) (created st)
     (rendererRef st) (controlsRef st) (cameraRef st)
     (animationFrameRef st) (scheduled st) (requested st) (canvases st)
     (MainThread.resetPerf (toggleNow env) (refs st)).

(** The effect on [currentMode] and the cleanup it returns. *)
Definition effect (env : Env) (st : t) : t * option Stats.t :=
  match currentMode st with
  | MainThread.offscreen => (initOffscreenMode env st, None)
  | MainThread.main => initMainThreadMode env st
  | MainThread.none =>
      (clearCanvas env (cleanupMainThread (cleanupWorker st)), None)
  end.

Definition effectCleanup (st : t) : t := cleanupMainThread (cleanupWorker st).

(** What happens to the component: the button is clicked (the mode
    changes, the previous effect is cleaned up and the effect runs for
    the new mode), a requested frame callback fires, or the component is
    removed. *)
Inductive Event : Type :=
| Toggle (env : Env)
| Tick (clk : FrameClock)
| Unmount.

Definition step (e : Event) (st : t) : t * option Stats.t :=
  match e with
  | Toggle env => effect env (effectCleanup (toggleRenderMode env st))
  | Tick clk =>
      match scheduled st with
      | id :: rest =>
          animate clk
            (mk (currentMode st) (workerRef st) (contexts st) (created st)
                (rendererRef st) (controlsRef st) (cameraRef st)
                (animationFrameRef st) rest (requested st) (canvases st)
                (refs st))
      | [] => (st, None)
      end
  | Unmount => (effectCleanup st, None)
  end.

(** The component once mounted: the effect has run for the first
    render. *)
Definition mounted (env : Env) (t0 : Q) : t := fst (effect env (initial t0)).

Fixpoint run (evs : list Event) (st : t) : t :=
  match evs with
  | [] => st
  | e :: rest => run rest (fst (step e st))
  end.
End Demo.

(** No two modes' resources at once: the background contexts alive are
    the one [workerRef] holds, the callbacks scheduled are the one
    [animationFrameRef] holds, what exists belongs to the current mode,
    and the container has one canvas. *)
Definition exclusive (st : Demo.t) : Prop :=
  Demo.contexts st = match Demo.workerRef st with Some id => [id] | None => [] end
  /\ Demo.scheduled st
     = match Demo.animationFrameRef st with Some id => [id] | None => [] end
  /\ (Demo.workerRef st = None \/ Demo.currentMode st = MainThread.offscreen)
  /\ (Demo.animationFrameRef st = None \/ Demo.currentMode st = MainThread.main)
  /\ (Demo.rendererRef st = false \/ Demo.currentMode st = MainThread.main)
  /\ (Demo.controlsRef st = false \/ Demo.currentMode st = MainThread.main)
  /\ (MainThread.sceneRef (Demo.refs st) = None
      \/ Demo.currentMode st = MainThread.main)
  /\ Demo.canvases st = 1%nat.

(** Transitions during which the refs of the container and the canvas
    are set, as they are while the component is mounted. *)
Definition demo_ready (e : Demo.Event) : Prop :=
  match e with
  | Demo.Toggle env => Demo.refsSet env = true
  | Demo.Tick _ => True
  | Demo.Unmount => False
  end.

(** The current mode has what it needs. *)
Definition equipped (st : Demo.t) : Prop :=
  match Demo.currentMode st with
  | MainThread.offscreen =>
      exists id, Demo.workerRef st = Some id /\ Demo.contexts st = [id]
  | MainThread.main =>
      Demo.rendererRef st = true /\ Demo.controlsRef st = true
      /\ MainThread.sceneRef (Demo.refs st) = Some sceneLights
      /\ exists id, Demo.scheduled st = [id]
  | MainThread.none =>
      Demo.contexts st = [] /\ Demo.scheduled st = []
      /\ MainThread.objects (Demo.refs st) = []
  end.

(** A component toggled to offscreen, to main (two frames run) and on
    to none. *)
Definition readyEnv : Demo.Env :=
  Demo.mkEnv true true 0 0 (fun _ => 1 # 2) (frameAt 0 5).

Definition sampleToggles : list Demo.Event :=
  [Demo.Toggle readyEnv; Demo.Toggle readyEnv; Demo.Tick (frameAt 20 5);
   Demo.Toggle readyEnv].

(** The number of clicks among the events of the component. *)
Definition toggles (evs : list Demo.Event) : nat :=
  length (filter (fun e => match e with Demo.Toggle _ => true | _ => false end) evs).

(** Nothing is held: no background context, no scheduled callback, no
    renderer, controls or scene, no objects. *)
Definition released (st : Demo.t) : Prop :=
  Demo.workerRef st = None /\ Demo.contexts st = []
  /\ Demo.animationFrameRef st = None /\ Demo.scheduled st = []
  /\ Demo.rendererRef st = false /\ Demo.controlsRef st = false
  /\ MainThread.sceneRef (Demo.refs st) = None
  /\ MainThread.objects (Demo.refs st) = [].

(** ** The indicators of the statistics panel *)

(** [styles.statGood], [styles.statWarning], [styles.statBad] *)
Inductive StatClass : Type := statGood | statWarning | statBad.

Definition getStatClass (value : Q) (thresholds : Q * Q) : StatClass :=
  if Qle_bool value (fst thresholds) then statGood
  else if Qle_bool value (snd thresholds) then statWarning
  else statBad.

(** [getStatClass(60 - stats.fps, [5, 30])] *)
Definition fpsClass (fps : Q) : StatClass := getStatClass (60 - fps) (5, 30).

(** [getStatClass(stats.droppedFrames, [0, 10])] *)
Definition droppedClass (droppedFrames : Q) : StatClass :=
  getStatClass droppedFrames (0, 10).

(** How bad a class is. *)
Definition severity (c : StatClass) : nat :=
  match c with statGood => 0 | statWarning => 1 | statBad => 2 end.

(** What the panel shows for the snapshot [m] of a window in which
    [dropped] frames were over the target: the two numeric rows. *)
Definition panel_shows (m : Stats.t) (dropped : nat) : Prop :=
  exists f : Z,
    Stats.fps m = JNumber (inject_Z f)
    /\ Stats.droppedFrames m = JNumber (inject_Z (Z.of_nat dropped))
    /\ (fpsClass (inject_Z f) = statGood <-> (55 <= f)%Z)
    /\ (fpsClass (inject_Z f) = statWarning <-> (30 <= f < 55)%Z)
    /\ (fpsClass (inject_Z f) = statBad <-> (f < 30)%Z)
    /\ (droppedClass (inject_Z (Z.of_nat dropped)) = statGood <-> dropped = 0%nat)
    /\ (droppedClass (inject_Z (Z.of_nat dropped)) = statWarning
        <-> (1 <= dropped <= 10)%nat)
    /\ (droppedClass (inject_Z (Z.of_nat dropped)) = statBad
        <-> (10 < dropped)%nat).

(** ** The WebGL demo: the grid of cubes and the frame-rate display *)

Module WebGLDemo.

Inductive RendererType : Type := webgl | none.

Definition RendererType_eqb (a b : RendererType) : bool :=
  match a, b with
  | webgl, webgl | none, none => true
  | _, _ => false
  end.

Definition GRID_SIZE : nat := 25.
Definition SPACING : Q := 12 # 10.

(** A mesh of the group: the hue given to [color.setHSL(h, 0.7, 0.5)]
    and the position given to [mesh.position.set]. *)
Record Cube : Type := mkCube { hue : Q; position : Vec3.t }.

(** [const x = Math.sin(seed++) * 10000; return x - Math.floor(x);]
    The product and the difference are taken exactly here; in doubles
    both are rounded, and the difference can round up to 1 for a tiny
    negative sine.  Only that the result is a function of the seed is
    used below: nothing is stated about its range. *)
Definition seededRandom {M : MathLib} (seed : Q) : Q :=
  let x := Math_sin seed * 10000 in
  x - inject_Z (Qfloor x).

(** [x * 1000 + y * 100 + z] *)
Definition seed (x y z : nat) : Z :=
  (Z.of_nat x * 1000 + Z.of_nat y * 100 + Z.of_nat z)%Z.

(** The body of the innermost loop. *)
Definition cube {M : MathLib} (gridSize : nat) (spacing : Q) (x y z : nat) : Cube :=
  let half := inject_Z (Z.of_nat gridSize) / 2 in
  mkCube (seededRandom (inject_Z (seed x y z)))
         (Vec3.mk ((inject_Z (Z.of_nat x) - half) * spacing)
                  ((inject_Z (Z.of_nat y) - half) * spacing)
                  ((inject_Z (Z.of_nat z) - half) * spacing)).

(** The three nested loops, in the order in which [group.add] is called.
    [gridSize] is a count at the call site. *)
Definition buildMeshesGroup {M : MathLib} (gridSize : nat) (spacing : Q) : list Cube :=
  flat_map (fun x =>
    flat_map (fun y =>
      map (fun z => cube gridSize spacing x y z) (seq 0 gridSize))
      (seq 0 gridSize))
    (seq 0 gridSize).

(** What [animate] and [switchRenderer] read and write.  The scene, the
    camera and the mesh group do not influence the counters and are left
    out. *)
Record t : Type := mk {
  fps : Z;                            (* the [fps] state *)
  rendererType : RendererType;        (* the [rendererType] state *)
  rendererTypeRef : RendererType;
  lastRendererTypeRef : RendererType;
  rendererRef : bool;
  controlsRef : bool;
  frameCount : nat;
  lastTime : Q;
  isMounted : bool
}.

(** [fps] as [animate] reads it.  [animate] is created by the effect
    with the empty dependency list, which runs once, after the first
    render; the [fps] it closes over is that render's, the initial state
    of [useState<number>(0)]. *)
Definition fpsSeen : Z := 0.

(** After the first render and its two effects: [initScene] has read
    [performance.now()] for [lastTime], [switchRenderer] has run for
    ['none']. *)
Definition initial (t0 : Q) : t := mk 0 none none none false false 0 t0 true.

Definition animate (now : Q) (st : t) : t :=
  if negb (isMounted st) then st
  else
    if negb (RendererType_eqb (rendererTypeRef st) none) && rendererRef st then
      let frameCount1 := S (frameCount st) in
      if Qlt_le_dec now (lastTime st + 1000) then
        mk (fps st) (rendererType st) (rendererTypeRef st) (rendererTypeRef st)
           (rendererRef st) (controlsRef st) frameCount1 (lastTime st)
           (isMounted st)
      else
        mk (if isMounted st
            then Math_round (inject_Z (Z.of_nat frameCount1) * 1000
                             / (now - lastTime st))
            else fps st)
           (rendererType st) (rendererTypeRef st) (rendererTypeRef st)
           (rendererRef st) (controlsRef st) 0 now (isMounted st)
    else
      mk (if negb (Z.eqb fpsSeen 0) && isMounted st then 0%Z else fps st)
         (rendererType st) (rendererTypeRef st) (rendererTypeRef st)
         (rendererRef st) (controlsRef st) (frameCount st) (lastTime st)
         (isMounted st).

(** The effect on [rendererType]; [refsSet] tells whether the canvas
    and container refs are set. *)
Definition switchRenderer (refsSet : bool) (st : t) : t :=
  if negb refsSet then st
  else
    match rendererType st with
    | webgl =>
        mk (fps st) (rendererType st) webgl (lastRendererTypeRef st)
           true true (frameCount st) (lastTime st) (isMounted st)
    | none =>
        mk (fps st) (rendererType st) none (lastRendererTypeRef st)
           false false (frameCount st) (lastTime st) (isMounted st)
    end.

(** [setRendererType(e.target.value)]: a new value renders again and
    the effect runs; the same value changes nothing. *)
Definition handleRendererChange (value : RendererType) (refsSet : bool) (st : t) : t :=
  if RendererType_eqb value (rendererType st) then st
  else
    switchRenderer refsSet
      (mk (fps st) value (rendererTypeRef st) (lastRendererTypeRef st)
          (rendererRef st) (controlsRef st) (frameCount st) (lastTime st)
          (isMounted st)).

(** What happens to the component.  The function that would set
    [isMounted = false] and cancel the frame is the result of the async
    [initScene], which the effect does not return: removing the
    component runs no cleanup. *)
Inductive Event : Type :=
| Select (value : RendererType) (refsSet : bool)
| Frame (now : Q)
| Unmount.

Definition step (e : Event) (st : t) : t :=
  match e with
  | Select value refsSet => handleRendererChange value refsSet st
  | Frame now => animate now st
  | Unmount => st
  end.

Fixpoint run (evs : list Event) (st : t) : t :=
  match evs with
  | [] => st
  | e :: rest => run rest (step e st)
  end.
End WebGLDemo.

(** The grid coordinates in loop order. *)
Definition coords (g : nat) : list (nat * nat * nat) :=
  flat_map (fun x =>
    flat_map (fun y => map (fun z => (x, y, z)) (seq 0 g)) (seq 0 g))
    (seq 0 g).

Definition cubeAt {M : MathLib} (g : nat) (s : Q) (p : nat * nat * nat) : WebGLDemo.Cube :=
  let '(x, y, z) := p in WebGLDemo.cube g s x y z.

Definition seedAt (p : nat * nat * nat) : Z :=
  let '(x, y, z) := p in WebGLDemo.seed x y z.

Definition in_grid (g : nat) (p : nat * nat * nat) : Prop :=
  let '(x, y, z) := p in (x < g)%nat /\ (y < g)%nat /\ (z < g)%nat.

Definition same_place (a b : Vec3.t) : Prop :=
  Vec3.x a == Vec3.x b /\ Vec3.y a == Vec3.y b /\ Vec3.z a == Vec3.z b.

(** Each coordinate of [v] lies between [lo] and [hi]. *)
Definition in_box (lo hi : Q) (v : Vec3.t) : Prop :=
  (lo <= Vec3.x v <= hi) /\ (lo <= Vec3.y v <= hi) /\ (lo <= Vec3.z v <= hi).

(** Events that do not select the WebGL renderer. *)
Definition stays_off (e : WebGLDemo.Event) : Prop :=
  match e with
  | WebGLDemo.Select WebGLDemo.webgl _ => False
  | _ => True
  end.

(** A second of rendering at two frames, then the renderer is switched
    off. *)
Definition samplePaused : WebGLDemo.t :=
  WebGLDemo.run
    [WebGLDemo.Select WebGLDemo.webgl true; WebGLDemo.Frame 500;
     WebGLDemo.Frame 1000; WebGLDemo.Select WebGLDemo.none true]
    (WebGLDemo.initial 0).

(** * Properties *)

(** ** Bounded buffers and means *)

Lemma push_bounded_length (cap : nat) (v : Q) (l : list Q) :
  (length l <= cap)%nat -> (length (push_bounded cap v l) <= cap)%nat.
Proof.
  intros Hl. unfold push_bounded, shift.
  destruct (Nat.ltb cap (length (l ++ [v]))) eqn:E.
  - destruct l as [|a l']; simpl in *.
    + lia.
    + rewrite length_app in *. simpl in *. lia.
  - apply Nat.ltb_ge in E. exact E.
Qed.

Lemma push_bounded_room (cap : nat) (v : Q) (l : list Q) :
  (length l < cap)%nat -> push_bounded cap v l = l ++ [v].
Proof.
  intros Hl. unfold push_bounded.
  destruct (Nat.ltb cap (length (l ++ [v]))) eqn:E; [|reflexivity].
  apply Nat.ltb_lt in E. rewrite length_app in E. simpl in E. lia.
Qed.

Lemma push_bounded_full (cap : nat) (v : Q) (l : list Q) :
  (cap <= length l)%nat -> push_bounded cap v l = tl (l ++ [v]).
Proof.
  intros Hl. unfold push_bounded, shift.
  destruct (Nat.ltb cap (length (l ++ [v]))) eqn:E; [reflexivity|].
  apply Nat.ltb_ge in E. rewrite length_app in E. simpl in E. lia.
Qed.

Lemma push_bounded_nonempty (cap : nat) (v : Q) (l : list Q) :
  (0 < cap)%nat -> push_bounded cap v l <> [].
Proof.
  intros Hc. unfold push_bounded, shift.
  destruct (Nat.ltb cap (length (l ++ [v]))) eqn:E.
  - apply Nat.ltb_lt in E. rewrite length_app in E. simpl in E.
    destruct l as [|a [|b l']]; simpl in *; try lia; discriminate.
  - destruct l; discriminate.
Qed.

Lemma fold_left_Qplus_acc (l : list Q) (a : Q) :
  fold_left Qplus l a == a + fold_right Qplus 0 l.
Proof.
  revert a. induction l as [|b l IH]; intros a; simpl.
  - ring.
  - rewrite IH. ring.
Qed.

Lemma sum_fold_right (l : list Q) : sum l == fold_right Qplus 0 l.
Proof. unfold sum. rewrite fold_left_Qplus_acc. ring. Qed.

Lemma mean_total (l : list Q) :
  l <> [] ->
  mean l * inject_Z (Z.of_nat (length l)) == fold_right Qplus 0 l.
Proof.
  intros Hl. unfold mean. rewrite <- sum_fold_right.
  field. destruct l as [|a l']; [congruence|].
  simpl length. unfold inject_Z, Qeq. simpl. lia.
Qed.

(** [Math.round] gives the integer nearest to its argument. *)
Lemma Math_round_nearest (a : Q) :
  inject_Z (Math_round a) - (1 # 2) <= a /\ a < inject_Z (Math_round a) + (1 # 2).
Proof.
  unfold Math_round.
  pose proof (Qfloor_le (a + (1 # 2))) as H1.
  pose proof (Qlt_floor (a + (1 # 2))) as H2.
  rewrite inject_Z_plus in H2. change (inject_Z 1) with 1 in H2.
  split; lra.
Qed.

(** ** Camera damping *)

Lemma damp_gap (c t : Q) :
  (c + (t - c) * dampingFactor) - t == (1 - dampingFactor) * (c - t).
Proof. ring. Qed.

Lemma damp_closer (c t : Q) :
  Qabs ((c + (t - c) * dampingFactor) - t) <= Qabs (c - t).
Proof.
  rewrite damp_gap, Qabs_Qmult.
  assert (H : Qabs (1 - dampingFactor) == 19 # 20) by reflexivity.
  rewrite H. pose proof (Qabs_nonneg (c - t)). lra.
Qed.

Lemma decay_nonneg (n : nat) : 0 <= decay n.
Proof.
  induction n as [|n IH]; simpl; [lra|].
  unfold dampingFactor. nra.
Qed.

Lemma decay_bound (n : nat) : decay n * (inject_Z (Z.of_nat n) + 20) <= 20.
Proof.
  induction n as [|n IH].
  - unfold Qle. simpl. lia.
  - rewrite Nat2Z.inj_succ. unfold Z.succ. rewrite inject_Z_plus.
    change (inject_Z 1) with 1. simpl decay. unfold dampingFactor.
    pose proof (decay_nonneg n) as Hd.
    assert (Hn : 0 <= inject_Z (Z.of_nat n)).
    { change 0 with (inject_Z 0). rewrite <- Zle_Qle. lia. }
    set (q := inject_Z (Z.of_nat n)) in *. set (d := decay n) in *.
    pose proof (Qmult_le_0_compat _ _ Hd Hn) as Hdq.
    assert (E : (1 - (5 # 100)) * d * (q + 1 + 20)
                == d * (q + 20) - ((1 # 20) * (d * q) + (1 # 20) * d)) by ring.
    rewrite E. lra.
Qed.

Lemma decay_small (D eps : Q) :
  0 <= D -> 0 < eps ->
  exists N : nat, forall n d, (N <= n)%nat -> 0 <= d <= D -> decay n * d < eps.
Proof.
  intros HD He.
  exists (Z.to_nat (Qceiling (20 * D / eps))).
  intros n d Hn [Hd0 HdD].
  pose proof (decay_bound n) as Hb.
  pose proof (decay_nonneg n) as Hdn.
  set (q := inject_Z (Z.of_nat n)) in *.
  assert (Hq : 20 * D <= eps * q).
  { assert (Hc : 20 * D / eps <= q).
    { eapply Qle_trans; [apply Qle_ceiling|].
      unfold q. rewrite <- Zle_Qle. lia. }
    apply (Qmult_le_compat_r _ _ eps) in Hc; [|lra].
    assert (E : 20 * D / eps * eps == 20 * D) by (field; lra).
    rewrite E in Hc. lra. }
  assert (Hq0 : 0 <= q).
  { unfold q. change 0 with (inject_Z 0). rewrite <- Zle_Qle. lia. }
  destruct (Qlt_le_dec (decay n * d) eps) as [Hlt|Hge]; [exact Hlt|].
  exfalso. nra.
Qed.

Section CameraDamping.
Context {M : MathLib}.
Import Worker.

Lemma animate_camera (clk : FrameClock) (w : Worker.t) :
  let w' := fst (animate clk w) in
  let u := updateCameraPosition w in
  cameraRotation w' = cameraRotation u
  /\ cameraRotationTarget w' = cameraRotationTarget w
  /\ cameraDistance w' = cameraDistance u
  /\ cameraDistanceTarget w' = cameraDistanceTarget w
  /\ camera w' = camera u
  /\ isDragging w' = isDragging w.
Proof.
  unfold animate.
  destruct (Perf.emitStats _ _) as [p3 out]. simpl. repeat split.
Qed.

Lemma frames_from_app (a b : list FrameClock) (w : Worker.t) :
  frames_from (a ++ b) w = frames_from b (frames_from a w).
Proof.
  revert w. induction a as [|c a IH]; intros w; simpl; [reflexivity|apply IH].
Qed.

Lemma frames_from_targets (clks : list FrameClock) (w : Worker.t) :
  cameraRotationTarget (frames_from clks w) = cameraRotationTarget w
  /\ cameraDistanceTarget (frames_from clks w) = cameraDistanceTarget w.
Proof.
  revert w. induction clks as [|c clks IH]; intros w; simpl; [split; reflexivity|].
  destruct (IH (fst (animate c w))) as [H1 H2].
  destruct (animate_camera c w) as (_ & Ht & _ & Hd & _).
  rewrite H1, H2. split; assumption.
Qed.

Lemma frames_from_gap (clks : list FrameClock) (w : Worker.t) :
  let wn := frames_from clks w in
  x (cameraRotation wn) - x (cameraRotationTarget w)
    == decay (length clks) * (x (cameraRotation w) - x (cameraRotationTarget w))
  /\ y (cameraRotation wn) - y (cameraRotationTarget w)
    == decay (length clks) * (y (cameraRotation w) - y (cameraRotationTarget w))
  /\ cameraDistance wn - cameraDistanceTarget w
    == decay (length clks) * (cameraDistance w - cameraDistanceTarget w).
Proof.
  revert w. induction clks as [|c clks IH]; intros w; simpl.
  - repeat split; ring.
  - destruct (IH (fst (animate c w))) as (Hx & Hy & Hd).
    destruct (animate_camera c w) as (Hr & Ht & Hcd & Hdt & _).
    rewrite Ht, Hdt, Hr, Hcd in *.
    rewrite Hx, Hy, Hd. simpl.
    rewrite !damp_gap. repeat split; ring.
Qed.
End CameraDamping.

Section CameraDampingClaim.
Context {M : MathLib}.
Import Worker.

(** C1.  Every frame, whatever the state of the interaction, replaces each
    current camera value (pitch [x], yaw [y], distance) by
    [current + (target - current) * dampingFactor] with
    [dampingFactor = 0.05] and leaves the targets alone.  Hence, while the
    target stays fixed, the gap [|current - target|] of each of the three
    never grows from one frame to the next, and it falls below every
    positive [eps] after finitely many frames. *)
Theorem C1_camera_damping (w : Worker.t) (eps : Q) :
  0 < eps ->
  dampingFactor == 1 # 20
  /\ (forall clk,
        let w' := fst (animate clk w) in
        x (cameraRotation w')
          = x (cameraRotation w)
            + (x (cameraRotationTarget w) - x (cameraRotation w)) * dampingFactor
        /\ y (cameraRotation w')
          = y (cameraRotation w)
            + (y (cameraRotationTarget w) - y (cameraRotation w)) * dampingFactor
        /\ cameraDistance w'
          = cameraDistance w
            + (cameraDistanceTarget w - cameraDistance w) * dampingFactor
        /\ cameraRotationTarget w' = cameraRotationTarget w
        /\ cameraDistanceTarget w' = cameraDistanceTarget w)
  /\ (forall clks clk,
        let a := frames_from clks w in
        let b := frames_from (clks ++ [clk]) w in
        Qabs (x (cameraRotation b) - x (cameraRotationTarget w))
          <= Qabs (x (cameraRotation a) - x (cameraRotationTarget w))
        /\ Qabs (y (cameraRotation b) - y (cameraRotationTarget w))
          <= Qabs (y (cameraRotation a) - y (cameraRotationTarget w))
        /\ Qabs (cameraDistance b - cameraDistanceTarget w)
          <= Qabs (cameraDistance a - cameraDistanceTarget w))
  /\ exists N : nat, forall clks, (N <= length clks)%nat ->
        let wn := frames_from clks w in
        Qabs (x (cameraRotation wn) - x (cameraRotationTarget w)) < eps
        /\ Qabs (y (cameraRotation wn) - y (cameraRotationTarget w)) < eps
        /\ Qabs (cameraDistance wn - cameraDistanceTarget w) < eps.
Proof.
  intros He. split; [reflexivity|]. split; [|split].
  - intros clk w'.
    destruct (animate_camera clk w) as (Hr & Ht & Hd & Hdt & _).
    subst w'. rewrite Hr, Ht, Hd, Hdt. simpl. repeat split.
  - intros clks clk a b. subst a b. rewrite frames_from_app. simpl.
    destruct (frames_from_targets clks w) as [Ht Hdt].
    destruct (animate_camera clk (frames_from clks w)) as (Hr & _ & Hd & _).
    rewrite Hr, Hd. simpl. rewrite Ht, Hdt.
    repeat split; apply damp_closer.
  - set (gx := Qabs (x (cameraRotation w) - x (cameraRotationTarget w))).
    set (gy := Qabs (y (cameraRotation w) - y (cameraRotationTarget w))).
    set (gd := Qabs (cameraDistance w - cameraDistanceTarget w)).
    assert (Hgx : 0 <= gx) by apply Qabs_nonneg.
    assert (Hgy : 0 <= gy) by apply Qabs_nonneg.
    assert (Hgd : 0 <= gd) by apply Qabs_nonneg.
    destruct (decay_small (gx + gy + gd) eps) as [N HN]; [lra|exact He|].
    exists N. intros clks Hlen wn.
    destruct (frames_from_gap clks w) as (Hx & Hy & Hd). fold wn in Hx, Hy, Hd.
    pose proof (decay_nonneg (length clks)) as Hdec.
    rewrite Hx, Hy, Hd, !Qabs_Qmult, !(Qabs_pos (decay _)) by exact Hdec.
    repeat split; apply HN; try exact Hlen; fold gx gy gd; lra.
Qed.

End CameraDampingClaim.

Lemma C1_camera_damping_witness :
  0 < 1
  /\ exists N : nat, forall clks, (N <= length clks)%nat ->
       let wn := @Worker.frames_from taylorMath clks sampleWorker in
       Qabs (Worker.x (Worker.cameraRotation wn)
             - Worker.x (Worker.cameraRotationTarget sampleWorker)) < 1
       /\ Qabs (Worker.y (Worker.cameraRotation wn)
                - Worker.y (Worker.cameraRotationTarget sampleWorker)) < 1
       /\ Qabs (Worker.cameraDistance wn
                - Worker.cameraDistanceTarget sampleWorker) < 1.
Proof.
  assert (H : 0 < 1) by reflexivity.
  split; [exact H|].
  exact (proj2 (proj2 (proj2 (@C1_camera_damping taylorMath sampleWorker 1 H)))).
Defined.

(** ** Clamped targets *)

Lemma clamp_range (lo hi v : Q) :
  lo <= hi -> lo <= Math_max lo (Math_min hi v) <= hi.
Proof.
  intros Hlh. unfold Math_max, Math_min. split.
  - apply Q.le_max_l.
  - apply Q.max_lub; [exact Hlh|apply Q.le_min_l].
Qed.

Lemma half_pi_order : - Math_PI / 2 <= Math_PI / 2.
Proof. unfold Qle. simpl. lia. Qed.

Section Invariants.
Context {M : MathLib}.
Import Worker.

Lemma run_invariant (P : Worker.t -> Prop) :
  (forall e w, P w -> P (fst (step e w))) ->
  forall evs w, P w -> P (fst (run evs w)).
Proof.
  intros Hstep evs. induction evs as [|e evs IH]; intros w Hw; simpl.
  - exact Hw.
  - specialize (Hstep e w Hw).
    destruct (step e w) as [w1 out]. simpl in Hstep.
    specialize (IH w1 Hstep).
    destruct (run evs w1) as [w2 outs]. exact IH.
Qed.

Lemma createScene_keeps (rand : nat -> Q) (w : Worker.t) :
  let w' := createScene rand w in
  cameraRotationTarget w' = cameraRotationTarget w
  /\ cameraDistanceTarget w' = cameraDistanceTarget w
  /\ perf w' = perf w
  /\ camera w' = camera w
  /\ objectCount w' = objectCount w.
Proof. unfold createScene. destruct (scene w); simpl; repeat split. Qed.

(** Only a [rotate] changes the rotation target, only a [zoom] the
    distance target. *)
Lemma onmessage_rotation_target (m : Message) (env : Env) (w : Worker.t) :
  is_rotate m = false ->
  cameraRotationTarget (fst (onmessage m env w)) = cameraRotationTarget w.
Proof.
  intros Hm. destruct m as [wd ht pr cnt|wd ht|cnt|data|]; cbn [onmessage fst].
  - match goal with |- context [animate ?c ?v] =>
      destruct (animate_camera c v) as (_ & Ht & _); rewrite Ht
    end.
    match goal with |- context [createScene ?r ?v] =>
      destruct (createScene_keeps r v) as (Ht' & _); rewrite Ht'
    end.
    reflexivity.
  - destruct (camera w); reflexivity.
  - match goal with |- context [createScene ?r ?v] =>
      destruct (createScene_keeps r v) as (Ht' & _); rewrite Ht'
    end.
    reflexivity.
  - destruct data as [ts|dX dY| |delta ts]; simpl in *.
    + destruct ts as [ts|]; [destruct (truthy (Some ts))|]; reflexivity.
    + discriminate Hm.
    + reflexivity.
    + destruct ts as [ts|]; [destruct (truthy (Some ts))|]; reflexivity.
  - reflexivity.
Qed.

Lemma onmessage_distance_target (m : Message) (env : Env) (w : Worker.t) :
  is_zoom m = false ->
  cameraDistanceTarget (fst (onmessage m env w)) = cameraDistanceTarget w.
Proof.
  intros Hm. destruct m as [wd ht pr cnt|wd ht|cnt|data|]; cbn [onmessage fst].
  - match goal with |- context [animate ?c ?v] =>
      destruct (animate_camera c v) as (_ & _ & _ & Hd & _); rewrite Hd
    end.
    match goal with |- context [createScene ?r ?v] =>
      destruct (createScene_keeps r v) as (_ & Hd' & _); rewrite Hd'
    end.
    reflexivity.
  - destruct (camera w); reflexivity.
  - match goal with |- context [createScene ?r ?v] =>
      destruct (createScene_keeps r v) as (_ & Hd' & _); rewrite Hd'
    end.
    reflexivity.
  - destruct data as [ts|dX dY| |delta ts]; simpl in *.
    + destruct ts as [ts|]; [destruct (truthy (Some ts))|]; reflexivity.
    + destruct (isDragging w); reflexivity.
    + reflexivity.
    + discriminate Hm.
  - reflexivity.
Qed.

Lemma rotate_pitch (dX dY : Q) (w : Worker.t) :
  let w' := handleInteraction (ActionRotate dX dY) w in
  if isDragging w
  then x (cameraRotationTarget w')
       = Math_max (- Math_PI / 2)
           (Math_min (Math_PI / 2) (x (cameraRotationTarget w) + dY * (5 # 1000)))
  else w' = w.
Proof. simpl. destruct (isDragging w); reflexivity. Qed.

Lemma zoom_distance (delta : Q) (ts : option Q) (w : Worker.t) :
  cameraDistanceTarget (handleInteraction (ActionZoom delta ts) w)
  = Math_max 10 (Math_min 100 (cameraDistanceTarget w + delta * (5 # 100))).
Proof.
  simpl. destruct ts as [ts|]; [destruct (truthy (Some ts))|]; reflexivity.
Qed.

Lemma step_pitch_ok (e : Event) (w : Worker.t) :
  pitch_ok w -> pitch_ok (fst (step e w)).
Proof.
  unfold pitch_ok. intros Hw. destruct e as [m env|clk]; cbn [step].
  - destruct (is_rotate m) eqn:Hm.
    + destruct m as [ | | |[ |dX dY| | ]| ]; try discriminate Hm.
      cbn [onmessage fst].
      pose proof (rotate_pitch dX dY w) as Hr. cbv zeta in Hr.
      destruct (isDragging w).
      * rewrite Hr. apply clamp_range, half_pi_order.
      * rewrite Hr. exact Hw.
    + rewrite (onmessage_rotation_target m env w Hm). exact Hw.
  - destruct (camera w); [|exact Hw].
    destruct (animate_camera clk w) as (_ & Ht & _). rewrite Ht. exact Hw.
Qed.

Lemma step_distance_ok (e : Event) (w : Worker.t) :
  distance_ok w -> distance_ok (fst (step e w)).
Proof.
  unfold distance_ok. intros Hw. destruct e as [m env|clk]; cbn [step].
  - destruct (is_zoom m) eqn:Hm.
    + destruct m as [ | | |[ | | |delta ts]| ]; try discriminate Hm.
      cbn [onmessage fst]. rewrite zoom_distance.
      apply clamp_range. unfold Qle. simpl. lia.
    + rewrite (onmessage_distance_target m env w Hm). exact Hw.
  - destruct (camera w); [|exact Hw].
    destruct (animate_camera clk w) as (_ & _ & _ & Hd & _). rewrite Hd. exact Hw.
Qed.
End Invariants.

Section TargetClaims.
Context {M : MathLib}.
Import Worker.

(** C2.  After any sequence of events of the worker (messages of every
    kind, with frames in between), hence after each message of any
    sequence of interaction messages, the pitch target
    [cameraRotationTarget.x] lies in [[-Math.PI/2, Math.PI/2]].  A
    [rotate] received while dragging sets it to the clamped sum (and is
    ignored otherwise); no other message and no frame changes it. *)
Theorem C2_pitch_target_clamped (t0 : Q) (evs : list Event) :
  (let w := fst (run evs (initial t0)) in
   - Math_PI / 2 <= x (cameraRotationTarget w) <= Math_PI / 2)
  /\ (forall (w : Worker.t) (dX dY : Q),
        let w' := handleInteraction (ActionRotate dX dY) w in
        if isDragging w
        then x (cameraRotationTarget w')
             = Math_max (- Math_PI / 2)
                 (Math_min (Math_PI / 2)
                    (x (cameraRotationTarget w) + dY * (5 # 1000)))
             /\ - Math_PI / 2 <= x (cameraRotationTarget w') <= Math_PI / 2
        else w' = w)
  /\ (forall (m : Message) (env : Env) (w : Worker.t),
        match m with
        | MsgInteraction (ActionRotate _ _) => True
        | _ => x (cameraRotationTarget (fst (onmessage m env w)))
               = x (cameraRotationTarget w)
        end)
  /\ (forall (clk : FrameClock) (w : Worker.t),
        x (cameraRotationTarget (fst (animate clk w)))
        = x (cameraRotationTarget w)).
Proof.
  split; [|split; [|split]].
  - apply (run_invariant pitch_ok).
    + intros e w. apply step_pitch_ok.
    + unfold pitch_ok. simpl. unfold Qle. simpl. lia.
  - intros w dX dY w'. subst w'.
    pose proof (rotate_pitch dX dY w) as H.
    destruct (isDragging w); [|exact H].
    split; [exact H|]. rewrite H. apply clamp_range, half_pi_order.
  - intros m env w.
    destruct (is_rotate m) eqn:Hm.
    + destruct m as [ | | |[ | | | ]| ]; try discriminate Hm. exact I.
    + rewrite (onmessage_rotation_target m env w Hm).
      destruct m as [ | | |[ | | | ]| ]; try discriminate Hm; reflexivity.
  - intros clk w. destruct (animate_camera clk w) as (_ & Ht & _).
    rewrite Ht. reflexivity.
Qed.

(** C3.  The target distance starts at 30.  After any sequence of events
    of the worker, in particular after each message of any sequence of
    [zoom] messages with arbitrary deltas, [cameraDistanceTarget] lies in
    [[10, 100]]; a [zoom] sets it to
    [max(10, min(100, target + delta * 0.05))] whatever the state. *)
Theorem C3_zoom_target_bounded (t0 : Q) (evs : list Event) :
  cameraDistanceTarget (initial t0) = 30
  /\ (let w := fst (run evs (initial t0)) in
      10 <= cameraDistanceTarget w <= 100)
  /\ (forall (w : Worker.t) (delta : Q) (ts : option Q),
        let w' := handleInteraction (ActionZoom delta ts) w in
        cameraDistanceTarget w'
        = Math_max 10 (Math_min 100 (cameraDistanceTarget w + delta * (5 # 100)))
        /\ 10 <= cameraDistanceTarget w' <= 100).
Proof.
  split; [reflexivity|]. split.
  - apply (run_invariant distance_ok).
    + intros e w. apply step_distance_ok.
    + unfold distance_ok. simpl. unfold Qle. simpl. lia.
  - intros w delta ts w'. subst w'. rewrite zoom_distance.
    split; [reflexivity|]. apply clamp_range. unfold Qle. simpl. lia.
Qed.

End TargetClaims.

(** ** Bouncing objects *)

Lemma updateObject_axis (a : Axis) (o : Mesh) :
  pos a (updateObject o) = pos a o + vel a o
  /\ vel a (updateObject o) = bounce (pos a o + vel a o) (vel a o).
Proof. destruct a; split; reflexivity. Qed.

Lemma bounce_flip (p v : Q) : boundary < Qabs p -> bounce p v == - v.
Proof.
  intros H. unfold bounce, Math_abs.
  destruct (Qlt_le_dec boundary (Qabs p)) as [_|Hle]; [ring|lra].
Qed.

Lemma bounce_keep (p v : Q) : Qabs p <= boundary -> bounce p v = v.
Proof.
  intros H. unfold bounce, Math_abs.
  destruct (Qlt_le_dec boundary (Qabs p)) as [Hlt|_]; [lra|reflexivity].
Qed.

Lemma updateObject_returning (a : Axis) (o : Mesh) :
  returning a o -> returning a (updateObject o).
Proof.
  unfold returning. intros H.
  destruct (updateObject_axis a o) as [Hp Hv]. rewrite Hp, Hv.
  destruct (Qlt_le_dec boundary (Qabs (pos a o + vel a o))) as [Hout|Hin].
  - right. destruct H as [H|H]; [|lra].
    rewrite (bounce_flip _ _ Hout).
    assert (E : pos a o + vel a o + - vel a o == pos a o) by ring.
    rewrite E. exact H.
  - left. exact Hin.
Qed.

Lemma newCube_returning (a : Axis) (rand : nat -> Q) :
  random_ok rand -> returning a (newCube rand).
Proof.
  intros Hr. left. unfold boundary.
  pose proof (Hr 1%nat) as H1. pose proof (Hr 2%nat) as H2.
  pose proof (Hr 3%nat) as H3.
  destruct a; cbn [pos newCube position Vec3.x Vec3.y Vec3.z];
    apply Qabs_Qle_condition; lra.
Qed.

Lemma createCubes_returning (n : nat) (rand : nat -> Q) :
  random_ok rand ->
  Forall (fun o => forall a, returning a o) (createCubes n rand).
Proof.
  revert rand. induction n as [|n IH]; intros rand Hr; simpl.
  - constructor.
  - constructor.
    + intros a. apply newCube_returning, Hr.
    + apply IH. intros i. apply Hr.
Qed.

Lemma updateObjects_returning (objs : list Mesh) :
  Forall (fun o => forall a, returning a o) objs ->
  Forall (fun o => forall a, returning a o) (updateObjects objs).
Proof.
  unfold updateObjects. intros H. induction H as [|o l Ho Hl IH]; simpl.
  - constructor.
  - constructor; [|exact IH]. intros a. apply updateObject_returning, Ho.
Qed.

(** After a move that left the boundary, the next move undoes it. *)
Lemma bounce_back (a : Axis) (o : Mesh) :
  returning a o ->
  let o1 := updateObject o in
  let o2 := updateObject o1 in
  boundary < Qabs (pos a o1) ->
  pos a o2 == pos a o
  /\ Qabs (pos a o2) <= boundary
  /\ Qabs (pos a o2) < Qabs (pos a o1)
  /\ vel a o2 == - vel a o.
Proof.
  intros Hret o1 o2 Hout. subst o1 o2.
  destruct (updateObject_axis a (updateObject o)) as [Hp2 Hv2].
  destruct (updateObject_axis a o) as [Hp1 Hv1].
  rewrite Hp1 in Hout.
  assert (Hin : Qabs (pos a o) <= boundary).
  { destruct Hret as [H|H]; [exact H|lra]. }
  assert (E : pos a (updateObject (updateObject o)) == pos a o).
  { rewrite Hp2, Hp1, Hv1, (bounce_flip _ _ Hout). ring. }
  split; [exact E|]. split; [rewrite E; exact Hin|].
  split; [rewrite E, Hp1; lra|].
  rewrite Hv2, bounce_keep.
  - rewrite Hv1. apply bounce_flip, Hout.
  - rewrite <- Hp2, E. exact Hin.
Qed.

Section ObjectsOfTheWorker.
Context {M : MathLib}.
Import Worker.

Lemma run_invariant_when (ok : Event -> Prop) (P : Worker.t -> Prop) :
  (forall e w, ok e -> P w -> P (fst (step e w))) ->
  forall evs w, Forall ok evs -> P w -> P (fst (run evs w)).
Proof.
  intros Hstep evs. induction evs as [|e evs IH]; intros w Hok Hw; simpl.
  - exact Hw.
  - inversion Hok as [|? ? He Hrest]; subst.
    specialize (Hstep e w He Hw).
    destruct (step e w) as [w1 out]. simpl in Hstep.
    specialize (IH w1 Hrest Hstep).
    destruct (run evs w1) as [w2 outs]. exact IH.
Qed.

Lemma animate_objects (clk : FrameClock) (w : Worker.t) :
  objects (fst (animate clk w)) = updateObjects (objects w).
Proof.
  unfold animate. destruct (Perf.emitStats _ _) as [p3 out]. reflexivity.
Qed.

Lemma handleInteraction_objects (data : Interaction) (w : Worker.t) :
  objects (handleInteraction data w) = objects w
  /\ objectCount (handleInteraction data w) = objectCount w
  /\ scene (handleInteraction data w) = scene w
  /\ camera (handleInteraction data w) = camera w.
Proof.
  destruct data as [ts|dX dY| |delta ts]; simpl.
  - destruct ts as [ts|]; [destruct (truthy (Some ts))|]; repeat split.
  - destruct (isDragging w); repeat split.
  - repeat split.
  - destruct ts as [ts|]; [destruct (truthy (Some ts))|]; repeat split.
Qed.

Lemma createScene_objects (rand : nat -> Q) (w : Worker.t) :
  objects (createScene rand w)
  = match scene w with
    | Some _ => createCubes (Z.to_nat (objectCount w)) rand
    | None => objects w
    end.
Proof. unfold createScene. destruct (scene w); reflexivity. Qed.

Lemma step_objects_returning (e : Event) (w : Worker.t) :
  worker_random_ok e ->
  Forall (fun o => forall a, returning a o) (objects w) ->
  Forall (fun o => forall a, returning a o) (objects (fst (step e w))).
Proof.
  intros Hok Hw. destruct e as [m env|clk]; simpl in *.
  - destruct m as [wd ht pr cnt|wd ht|cnt|data|]; simpl.
    + rewrite animate_objects, createScene_objects. simpl.
      apply updateObjects_returning, createCubes_returning, Hok.
    + destruct (camera w); exact Hw.
    + rewrite createScene_objects. simpl.
      destruct (scene w); [apply createCubes_returning, Hok|exact Hw].
    + destruct (handleInteraction_objects data w) as [H _]. rewrite H. exact Hw.
    + exact Hw.
  - destruct (camera w); [|exact Hw].
    rewrite animate_objects. apply updateObjects_returning, Hw.
Qed.

Lemma worker_objects_returning (t0 : Q) (evs : list Event) :
  Forall worker_random_ok evs ->
  Forall (fun o => forall a, returning a o)
         (objects (fst (run evs (initial t0)))).
Proof.
  intros Hok.
  apply (run_invariant_when worker_random_ok
           (fun w => Forall (fun o => forall a, returning a o) (objects w))).
  - apply step_objects_returning.
  - exact Hok.
  - constructor.
Qed.
End ObjectsOfTheWorker.

Lemma main_animate_objects (clk : FrameClock) (st : MainThread.t) :
  MainThread.objects (fst (MainThread.animate MainThread.main clk st))
  = updateObjects (MainThread.objects st).
Proof.
  unfold MainThread.animate. destruct (Perf.emitStats _ _) as [p3 out].
  reflexivity.
Qed.

Lemma main_step_objects_returning (e : MainThread.Event) (st : MainThread.t) :
  main_random_ok e ->
  Forall (fun o => forall a, returning a o) (MainThread.objects st) ->
  Forall (fun o => forall a, returning a o)
         (MainThread.objects (fst (MainThread.step e st))).
Proof.
  intros Hok Hst.
  assert (Hframe : forall mode clk s,
             Forall (fun o => forall a, returning a o) (MainThread.objects s) ->
             Forall (fun o => forall a, returning a o)
                    (MainThread.objects (fst (MainThread.animate mode clk s)))).
  { intros mode clk s Hs. destruct mode; try exact Hs.
    rewrite main_animate_objects. apply updateObjects_returning, Hs. }
  destruct e as [mode rand clk|dn|t1| |mode clk];
    cbn [MainThread.step fst main_random_ok] in *.
  - unfold MainThread.initMainThreadMode. apply Hframe.
    unfold MainThread.createScene.
    cbn [MainThread.sceneRef MainThread.objects].
    apply createCubes_returning, Hok.
  - exact Hst.
  - exact Hst.
  - constructor.
  - apply Hframe, Hst.
Qed.

Lemma main_objects_returning (t0 : Q) (evs : list MainThread.Event) :
  Forall main_random_ok evs ->
  Forall (fun o => forall a, returning a o)
         (MainThread.objects (fst (MainThread.run evs (MainThread.initial t0)))).
Proof.
  intros Hok.
  assert (G : forall st,
             Forall (fun o => forall a, returning a o) (MainThread.objects st) ->
             Forall (fun o => forall a, returning a o)
                    (MainThread.objects (fst (MainThread.run evs st)))).
  { induction Hok as [|e evs He Hrest IH]; intros st Hst; simpl.
    - exact Hst.
    - pose proof (main_step_objects_returning e st He Hst) as H1.
      destruct (MainThread.step e st) as [s1 out]. simpl in H1.
      specialize (IH s1 H1).
      destruct (MainThread.run evs s1) as [s2 outs]. exact IH. }
  apply G. constructor.
Qed.

(** C4.  In the worker's and in the component's frame alike every object
    is advanced by [updateObject]: each position component grows by its
    velocity component, and when the new position component exceeds 25 in
    absolute value the velocity component is negated in that same frame
    (otherwise it is kept).  For the objects of a running demo (built by
    [createScene] from random numbers in [[0, 1)] and moved by frames
    only), the frame after such a flip moves the component back: it is
    again within the boundary, strictly closer to it than before, and the
    velocity keeps its new sign. *)
Theorem C4_bounce_at_boundary {M : MathLib} (t0 : Q)
    (wevs : list Worker.Event) (mevs : list MainThread.Event) :
  Forall worker_random_ok wevs ->
  Forall main_random_ok mevs ->
  boundary = 25
  /\ (forall clk w,
        Worker.objects (fst (Worker.animate clk w))
        = map updateObject (Worker.objects w))
  /\ (forall clk st,
        MainThread.objects (fst (MainThread.animate MainThread.main clk st))
        = map updateObject (MainThread.objects st))
  /\ (forall (o : Mesh) (a : Axis),
        let o1 := updateObject o in
        pos a o1 = pos a o + vel a o
        /\ (25 < Qabs (pos a o1) -> vel a o1 == - vel a o)
        /\ (Qabs (pos a o1) <= 25 -> vel a o1 = vel a o))
  /\ (forall (o : Mesh) (a : Axis),
        In o (Worker.objects (fst (Worker.run wevs (Worker.initial t0))))
        \/ In o (MainThread.objects
                   (fst (MainThread.run mevs (MainThread.initial t0)))) ->
        let o1 := updateObject o in
        let o2 := updateObject o1 in
        25 < Qabs (pos a o1) ->
        Qabs (pos a o2) <= 25
        /\ Qabs (pos a o2) < Qabs (pos a o1)
        /\ vel a o2 == - vel a o).
Proof.
  intros Hw Hm. split; [reflexivity|].
  split; [intros clk w; apply animate_objects|].
  split; [intros clk st; apply main_animate_objects|].
  split.
  - intros o a o1. subst o1.
    destruct (updateObject_axis a o) as [Hp Hv].
    split; [exact Hp|]. rewrite Hp, Hv. split; intros H.
    + apply bounce_flip. exact H.
    + apply bounce_keep. exact H.
  - intros o a Hin o1 o2 Hout.
    assert (Hret : returning a o).
    { destruct Hin as [Hin|Hin].
      - pose proof (worker_objects_returning t0 wevs Hw) as HF.
        rewrite Forall_forall in HF. apply HF, Hin.
      - pose proof (main_objects_returning t0 mevs Hm) as HF.
        rewrite Forall_forall in HF. apply HF, Hin. }
    destruct (bounce_back a o Hret Hout) as (_ & H1 & H2 & H3).
    repeat split; assumption.
Qed.

Lemma crossingRand_ok : random_ok crossingRand.
Proof.
  intros i. destruct i as [|[|[|[|[|i]]]]]; simpl; split;
    unfold Qle, Qlt; simpl; lia.
Qed.

Lemma C4_bounce_at_boundary_witness :
  Forall worker_random_ok crossingEvents
  /\ Forall main_random_ok [MainThread.Cleanup]
  /\ exists o : Mesh,
       In o (Worker.objects
               (fst (@Worker.run taylorMath crossingEvents (Worker.initial 0))))
       /\ 25 < Qabs (pos AxisX (updateObject o))
       /\ Qabs (pos AxisX (updateObject (updateObject o))) <= 25
       /\ Qabs (pos AxisX (updateObject (updateObject o)))
          < Qabs (pos AxisX (updateObject o))
       /\ vel AxisX (updateObject (updateObject o)) == - vel AxisX o.
Proof.
  assert (Hw : Forall worker_random_ok crossingEvents).
  { constructor; [exact crossingRand_ok|constructor]. }
  assert (Hm : Forall main_random_ok [MainThread.Cleanup]).
  { repeat constructor. }
  split; [exact Hw|]. split; [exact Hm|].
  destruct (@C4_bounce_at_boundary taylorMath 0 crossingEvents
              [MainThread.Cleanup] Hw Hm) as (_ & _ & _ & _ & Hback).
  exists (hd (newCube crossingRand)
             (Worker.objects
                (fst (@Worker.run taylorMath crossingEvents (Worker.initial 0))))).
  assert (Hin : In (hd (newCube crossingRand)
                       (Worker.objects
                          (fst (@Worker.run taylorMath crossingEvents
                                  (Worker.initial 0)))))
                   (Worker.objects
                      (fst (@Worker.run taylorMath crossingEvents
                              (Worker.initial 0))))).
  { left. reflexivity. }
  assert (Hout : 25 < Qabs (pos AxisX (updateObject
                   (hd (newCube crossingRand)
                       (Worker.objects
                          (fst (@Worker.run taylorMath crossingEvents
                                  (Worker.initial 0)))))))).
  { vm_compute. reflexivity. }
  split; [exact Hin|]. split; [exact Hout|].
  exact (Hback _ AxisX (or_introl Hin) Hout).
Defined.

(** ** The statistics blocks of a frame *)

Lemma worker_animate_perf {M : MathLib} (clk : FrameClock) (w : Worker.t) :
  Worker.perf (fst (Worker.animate clk w)) = fst (perf_after_frame clk (Worker.perf w))
  /\ snd (Worker.animate clk w) = snd (perf_after_frame clk (Worker.perf w)).
Proof.
  unfold Worker.animate, perf_after_frame, perf_before_stats, frameTime. simpl.
  destruct (Perf.emitStats _ _) as [p3 out]. split; reflexivity.
Qed.

Lemma main_animate_perf (clk : FrameClock) (st : MainThread.t) :
  MainThread.perf (fst (MainThread.animate MainThread.main clk st))
  = fst (perf_after_frame clk (MainThread.perf st))
  /\ snd (MainThread.animate MainThread.main clk st)
     = snd (perf_after_frame clk (MainThread.perf st)).
Proof.
  unfold MainThread.animate, perf_after_frame, perf_before_stats, frameTime.
  destruct (Perf.emitStats _ _) as [p3 out]. split; reflexivity.
Qed.

(** The frame-time and FPS blocks leave the interaction fields alone. *)
Lemma perf_after_frame_interaction (clk : FrameClock) (p : Perf.t) :
  let m := Perf.measureInteraction (dateNow clk) p in
  let p' := fst (perf_after_frame clk p) in
  Perf.interactionDelays p' = Perf.interactionDelays m
  /\ Perf.interactionDelay p' = Perf.interactionDelay m
  /\ Perf.lastInteractionTime p' = Perf.lastInteractionTime m.
Proof.
  unfold perf_after_frame, perf_before_stats, Perf.emitStats.
  destruct (Perf.due _ _); simpl; repeat split.
Qed.

Lemma perf_after_frame_frameTimes (clk : FrameClock) (p : Perf.t) :
  Perf.frameTimes (fst (perf_after_frame clk p))
  = push_bounded 60 (frameTime clk) (Perf.frameTimes p).
Proof.
  unfold perf_after_frame, perf_before_stats, Perf.emitStats,
    Perf.measureInteraction.
  destruct (Perf.due _ _); destruct (Qlt_le_dec 0 _); reflexivity.
Qed.

Lemma measureInteraction_pending (dn : Q) (p : Perf.t) :
  0 < Perf.lastInteractionTime p ->
  let l := push_bounded 30 (dn - Perf.lastInteractionTime p)
                        (Perf.interactionDelays p) in
  Perf.interactionDelays (Perf.measureInteraction dn p) = l
  /\ Perf.interactionDelay (Perf.measureInteraction dn p) = mean l
  /\ Perf.lastInteractionTime (Perf.measureInteraction dn p) = 0.
Proof.
  intros H. unfold Perf.measureInteraction.
  destruct (Qlt_le_dec 0 (Perf.lastInteractionTime p)) as [_|Hle]; [|lra].
  simpl. repeat split.
Qed.

Lemma measureInteraction_idle (dn : Q) (p : Perf.t) :
  Perf.lastInteractionTime p <= 0 -> Perf.measureInteraction dn p = p.
Proof.
  intros H. unfold Perf.measureInteraction.
  destruct (Qlt_le_dec 0 (Perf.lastInteractionTime p)) as [Hlt|_]; [lra|reflexivity].
Qed.

Lemma perf_after_frame_ok (clk : FrameClock) (p : Perf.t) :
  perf_ok p -> perf_ok (fst (perf_after_frame clk p)).
Proof.
  intros (Ht & Hd & Hf). unfold perf_ok.
  destruct (perf_after_frame_interaction clk p) as (Hds & _ & Hts).
  rewrite Hds, Hts, perf_after_frame_frameTimes.
  split; [|split].
  - destruct (Qlt_le_dec 0 (Perf.lastInteractionTime p)) as [Hlt|Hle].
    + destruct (measureInteraction_pending (dateNow clk) p Hlt) as (_ & _ & E).
      rewrite E. lra.
    + rewrite measureInteraction_idle by exact Hle. exact Ht.
  - destruct (Qlt_le_dec 0 (Perf.lastInteractionTime p)) as [Hlt|Hle].
    + destruct (measureInteraction_pending (dateNow clk) p Hlt) as (E & _).
      rewrite E. apply push_bounded_length, Hd.
    + rewrite measureInteraction_idle by exact Hle. exact Hd.
  - apply push_bounded_length, Hf.
Qed.

Lemma fresh_ok (t0 : Q) : perf_ok (Perf.fresh t0).
Proof. unfold perf_ok. simpl. split; [lra|split; lia]. Qed.

Lemma delay_measured_frame (clk : FrameClock) (p : Perf.t) :
  perf_ok p -> delay_measured clk p (fst (perf_after_frame clk p)).
Proof.
  intros (Ht & Hd & Hf). unfold delay_measured.
  destruct (perf_after_frame_interaction clk p) as (Hds & Hdl & Hts).
  rewrite Hds, Hdl, Hts.
  split; [exact Hd|]. split; [|split].
  - destruct (Qlt_le_dec 0 (Perf.lastInteractionTime p)) as [Hlt|Hle].
    + destruct (measureInteraction_pending (dateNow clk) p Hlt) as (E & _).
      rewrite E. apply push_bounded_length, Hd.
    + rewrite measureInteraction_idle by exact Hle. exact Hd.
  - intros Hnz. cbv zeta.
    assert (Hlt : 0 < Perf.lastInteractionTime p).
    { destruct (Qlt_le_dec 0 (Perf.lastInteractionTime p)) as [H|H]; [exact H|].
      exfalso. apply Hnz. lra. }
    destruct (measureInteraction_pending (dateNow clk) p Hlt) as (E1 & E2 & E3).
    rewrite E1, E2, E3. split; [reflexivity|]. split; [|reflexivity].
    unfold mean. rewrite sum_fold_right. reflexivity.
  - intros Hz. rewrite measureInteraction_idle by lra. repeat split.
Qed.

Section CountersOfTheWorker.
Context {M : MathLib}.
Import Worker.

Lemma updateCameraPosition_perf (w : Worker.t) :
  perf (updateCameraPosition w) = perf w.
Proof. reflexivity. Qed.

Lemma handleInteraction_perf_ok (data : Interaction) (env : Env) (w : Worker.t) :
  worker_clock_ok (Receive (MsgInteraction data) env) ->
  perf_ok (perf w) -> perf_ok (perf (handleInteraction data w)).
Proof.
  intros Hok (Ht & Hd & Hf).
  destruct data as [ts|dX dY| |delta ts]; simpl in *.
  - destruct ts as [ts|]; [destruct (truthy (Some ts))|]; simpl;
      repeat split; assumption.
  - destruct (isDragging w); simpl; repeat split; assumption.
  - repeat split; assumption.
  - destruct ts as [ts|]; [destruct (truthy (Some ts))|]; simpl;
      repeat split; assumption.
Qed.

Lemma step_perf_ok (e : Event) (w : Worker.t) :
  worker_clock_ok e -> perf_ok (perf w) -> perf_ok (perf (fst (step e w))).
Proof.
  intros Hok Hw. destruct e as [m env|clk].
  - destruct m as [wd ht pr cnt|wd ht|cnt|data|].
    + cbn [step onmessage].
      destruct (worker_animate_perf (clock env)
                  (createScene (rand env)
                     (updateCameraPosition
                        (mk (Some []) (Some (mkCamera (wd / ht) Vec3.zero None))
                            (objects w) (or_default cnt 100) (perf w) (fps w)
                            (cameraRotation w) (cameraRotationTarget w)
                            (cameraDistance w) (cameraDistanceTarget w)
                            (isDragging w))))) as [E _].
      rewrite E.
      match goal with |- context [createScene ?r ?v] =>
        destruct (createScene_keeps r v) as (_ & _ & Hp & _); rewrite Hp
      end.
      apply perf_after_frame_ok. exact Hw.
    + cbn [step onmessage]. destruct (camera w); exact Hw.
    + cbn [step onmessage fst].
      match goal with |- context [createScene ?r ?v] =>
        destruct (createScene_keeps r v) as (_ & _ & Hp & _); rewrite Hp
      end.
      exact Hw.
    + cbn [step onmessage fst]. apply (handleInteraction_perf_ok data env); assumption.
    + exact Hw.
  - cbn [step]. destruct (camera w); [|exact Hw].
    destruct (worker_animate_perf clk w) as [E _]. rewrite E.
    apply perf_after_frame_ok, Hw.
Qed.

Lemma worker_perf_ok (t0 : Q) (evs : list Event) :
  Forall worker_clock_ok evs -> perf_ok (perf (fst (run evs (initial t0)))).
Proof.
  intros Hok.
  apply (run_invariant_when worker_clock_ok (fun w => perf_ok (perf w))).
  - apply step_perf_ok.
  - exact Hok.
  - apply fresh_ok.
Qed.
End CountersOfTheWorker.

Lemma main_step_perf_ok (e : MainThread.Event) (st : MainThread.t) :
  main_clock_ok e ->
  perf_ok (MainThread.perf st) ->
  perf_ok (MainThread.perf (fst (MainThread.step e st))).
Proof.
  intros Hok Hst.
  assert (Hframe : forall mode clk s,
             perf_ok (MainThread.perf s) ->
             perf_ok (MainThread.perf (fst (MainThread.animate mode clk s)))).
  { intros mode clk s Hs. destruct mode; try exact Hs.
    destruct (main_animate_perf clk s) as [E _]. rewrite E.
    apply perf_after_frame_ok, Hs. }
  destruct e as [mode rand clk|dn|t1| |mode clk];
    cbn [MainThread.step fst main_clock_ok] in *.
  - unfold MainThread.initMainThreadMode. apply Hframe.
    unfold MainThread.createScene. cbn [MainThread.sceneRef MainThread.perf].
    exact Hst.
  - destruct Hst as (Ht & Hd & Hf). unfold perf_ok. simpl.
    repeat split; assumption.
  - apply fresh_ok.
  - exact Hst.
  - apply Hframe, Hst.
Qed.

Lemma main_perf_ok (t0 : Q) (evs : list MainThread.Event) :
  Forall main_clock_ok evs ->
  perf_ok (MainThread.perf (fst (MainThread.run evs (MainThread.initial t0)))).
Proof.
  intros Hok.
  assert (G : forall st,
             perf_ok (MainThread.perf st) ->
             perf_ok (MainThread.perf (fst (MainThread.run evs st)))).
  { induction Hok as [|e evs He Hrest IH]; intros st Hst; simpl.
    - exact Hst.
    - pose proof (main_step_perf_ok e st He Hst) as H1.
      destruct (MainThread.step e st) as [s1 out]. simpl in H1.
      specialize (IH s1 H1).
      destruct (MainThread.run evs s1) as [s2 outs]. exact IH. }
  apply G, fresh_ok.
Qed.

(** C5.  In any state the worker or the component reaches (timestamps
    being clock readings), the interaction-delay buffer holds at most 30
    entries, before and after every frame.  A frame that finds a pending
    (nonzero) timestamp appends [Date.now() - timestamp], drops the oldest
    entry if that makes 31, sets the reported delay to the sum of the new
    contents divided by their number, and resets the timestamp to 0; a
    frame that finds none leaves buffer, reported delay and timestamp as
    they are. *)
Theorem C5_interaction_delay_buffer {M : MathLib} (t0 : Q)
    (wevs : list Worker.Event) (mevs : list MainThread.Event)
    (clk : FrameClock) :
  Forall worker_clock_ok wevs ->
  Forall main_clock_ok mevs ->
  let w := fst (Worker.run wevs (Worker.initial t0)) in
  let st := fst (MainThread.run mevs (MainThread.initial t0)) in
  delay_measured clk (Worker.perf w) (Worker.perf (fst (Worker.animate clk w)))
  /\ delay_measured clk (MainThread.perf st)
       (MainThread.perf (fst (MainThread.animate MainThread.main clk st))).
Proof.
  intros Hw Hm w st. split.
  - destruct (worker_animate_perf clk w) as [E _]. rewrite E.
    apply delay_measured_frame. apply worker_perf_ok, Hw.
  - destruct (main_animate_perf clk st) as [E _]. rewrite E.
    apply delay_measured_frame. apply main_perf_ok, Hm.
Qed.

Lemma sampleEvents_clock_ok : Forall worker_clock_ok sampleEvents.
Proof.
  unfold sampleEvents. repeat (constructor; [simpl; try exact I; try (unfold Qle; simpl; lia)|]).
  constructor.
Qed.

Lemma sampleMainEvents_clock_ok : Forall main_clock_ok sampleMainEvents.
Proof.
  unfold sampleMainEvents. repeat (constructor; [simpl; try exact I; try (unfold Qle; simpl; lia)|]).
  constructor.
Qed.

Lemma C5_interaction_delay_buffer_witness :
  Forall worker_clock_ok sampleEvents
  /\ Forall main_clock_ok sampleMainEvents
  /\ delay_measured (frameAt 1016 4) (Worker.perf sampleWorker)
       (Worker.perf (fst (@Worker.animate taylorMath (frameAt 1016 4) sampleWorker)))
  /\ delay_measured (frameAt 1016 4) (MainThread.perf sampleMain)
       (MainThread.perf
          (fst (MainThread.animate MainThread.main (frameAt 1016 4) sampleMain))).
Proof.
  split; [exact sampleEvents_clock_ok|].
  split; [exact sampleMainEvents_clock_ok|].
  exact (@C5_interaction_delay_buffer taylorMath 0 sampleEvents sampleMainEvents
           (frameAt 1016 4) sampleEvents_clock_ok sampleMainEvents_clock_ok).
Defined.

(** ** Dropped frames of a statistics window *)

Lemma dropped_in_app (a b : list FrameClock) :
  dropped_in (a ++ b) = (dropped_in a + dropped_in b)%nat.
Proof. unfold dropped_in. rewrite filter_app, length_app. reflexivity. Qed.

Lemma measureInteraction_counters (dn : Q) (p : Perf.t) :
  let m := Perf.measureInteraction dn p in
  Perf.droppedFrames m = Perf.droppedFrames p
  /\ Perf.frames m = Perf.frames p
  /\ Perf.maxDelay m = Perf.maxDelay p
  /\ Perf.frameTimes m = Perf.frameTimes p
  /\ Perf.lastTime m = Perf.lastTime p.
Proof.
  unfold Perf.measureInteraction.
  destruct (Qlt_le_dec 0 _); simpl; repeat split.
Qed.

(** One frame on the counters: the dropped-frame counter grows by one
    exactly when the frame took more than the target; a snapshot reports
    the grown counter and resets it. *)
Lemma perf_after_frame_dropped (clk : FrameClock) (p : Perf.t) :
  match snd (perf_after_frame clk p) with
  | Some m =>
      Stats.droppedFrames m
      = JNumber (inject_Z (Z.of_nat (Perf.droppedFrames p + dropped_in [clk])))
      /\ Perf.droppedFrames (fst (perf_after_frame clk p)) = 0%nat
  | None =>
      Perf.droppedFrames (fst (perf_after_frame clk p))
      = (Perf.droppedFrames p + dropped_in [clk])%nat
  end.
Proof.
  destruct (measureInteraction_counters (dateNow clk) p) as (Hd & _).
  unfold perf_after_frame, perf_before_stats, Perf.emitStats, dropped_in,
    over_target.
  simpl filter.
  destruct (Perf.due _ _); simpl; rewrite Hd;
    destruct (Qlt_le_dec TARGET_FRAME_TIME (frameTime clk));
    simpl; rewrite ?Nat.add_1_r, ?Nat.add_0_r; try split; reflexivity.
Qed.

Lemma add_frame_dropped (acc : list FrameClock) (f : option FrameClock) :
  dropped_in (add_frame acc f)
  = (dropped_in acc + match f with Some c => dropped_in [c] | None => 0 end)%nat.
Proof.
  destruct f as [c|]; simpl; [apply dropped_in_app|lia].
Qed.

Section WindowOfTheWorker.
Context {M : MathLib}.
Import Worker.

(** What an event does to the counters: a frame, or nothing that
    touches the frame counters. *)
Lemma step_frame (e : Event) (w : Worker.t) :
  match worker_frame_of e w with
  | Some clk =>
      perf (fst (step e w)) = fst (perf_after_frame clk (perf w))
      /\ snd (step e w) = snd (perf_after_frame clk (perf w))
  | None =>
      Perf.droppedFrames (perf (fst (step e w))) = Perf.droppedFrames (perf w)
      /\ Perf.frames (perf (fst (step e w))) = Perf.frames (perf w)
      /\ snd (step e w) = None
  end.
Proof.
  destruct e as [m env|clk].
  - destruct m as [wd ht pr cnt|wd ht|cnt|data|]; cbn [worker_frame_of].
    + cbn [step onmessage].
      match goal with |- context [animate ?c ?v] =>
        destruct (worker_animate_perf c v) as [E1 E2]; rewrite E1, E2
      end.
      match goal with |- context [createScene ?r ?v] =>
        destruct (createScene_keeps r v) as (_ & _ & Hp & _); rewrite Hp
      end.
      split; reflexivity.
    + cbn [step onmessage]. destruct (camera w); repeat split.
    + cbn [step onmessage fst snd].
      match goal with |- context [createScene ?r ?v] =>
        destruct (createScene_keeps r v) as (_ & _ & Hp & _); rewrite Hp
      end.
      repeat split.
    + cbn [step onmessage fst snd].
      destruct data as [ts|dX dY| |delta ts]; simpl.
      * destruct ts as [ts|]; [destruct (truthy (Some ts))|]; repeat split.
      * destruct (isDragging w); repeat split.
      * repeat split.
      * destruct ts as [ts|]; [destruct (truthy (Some ts))|]; repeat split.
    + repeat split.
  - cbn [worker_frame_of step]. destruct (camera w).
    + apply worker_animate_perf.
    + repeat split.
Qed.

(** While no snapshot is posted the counter counts the window. *)
Lemma worker_window_count (evs : list Event) (w : Worker.t)
      (acc : list FrameClock) :
  snd (run evs w) = [] ->
  Perf.droppedFrames (perf w) = dropped_in acc ->
  Perf.droppedFrames (perf (fst (run evs w)))
  = dropped_in (worker_window evs w acc).
Proof.
  revert w acc. induction evs as [|e evs IH]; intros w acc Hq Hc.
  - exact Hc.
  - cbn [run worker_window] in *.
    pose proof (step_frame e w) as Hs.
    destruct (step e w) as [w1 out] eqn:Es. cbn [fst snd] in *.
    specialize (IH w1 (add_frame acc (worker_frame_of e w))).
    destruct (run evs w1) as [w2 outs] eqn:Er. cbn [fst snd] in *.
    destruct out as [s|]; [discriminate Hq|].
    apply IH; [exact Hq|]. rewrite add_frame_dropped.
    destruct (worker_frame_of e w) as [clk|].
    + destruct Hs as [Hp Ho].
      pose proof (perf_after_frame_dropped clk (perf w)) as Hf.
      rewrite <- Ho in Hf. rewrite <- Hp in Hf. rewrite Hf, Hc. reflexivity.
    + destruct Hs as (Hd & _). rewrite Hd, Hc. lia.
Qed.

Lemma worker_window_app (a b : list Event) (w : Worker.t)
      (acc : list FrameClock) :
  worker_window (a ++ b) w acc
  = worker_window b (fst (run a w)) (worker_window a w acc).
Proof.
  revert w acc. induction a as [|e a IH]; intros w acc; simpl.
  - reflexivity.
  - rewrite IH. destruct (step e w) as [w1 out]. simpl.
    destruct (run a w1) as [w2 outs]. reflexivity.
Qed.

(** The snapshot that closes a window reports the window's count. *)
Lemma worker_window_emitted (evs : list Event) (e : Event) (w : Worker.t)
      (m : Stats.t) :
  Perf.droppedFrames (perf w) = 0%nat ->
  snd (run evs w) = [] ->
  snd (step e (fst (run evs w))) = Some m ->
  Stats.droppedFrames m
  = JNumber (inject_Z (Z.of_nat (dropped_in (worker_window (evs ++ [e]) w []))))
  /\ Perf.droppedFrames (perf (fst (step e (fst (run evs w))))) = 0%nat.
Proof.
  intros H0 Hq He.
  pose proof (worker_window_count evs w [] Hq H0) as Hc.
  rewrite worker_window_app. cbn [worker_window].
  rewrite add_frame_dropped, <- Hc.
  set (w1 := fst (run evs w)) in *.
  pose proof (step_frame e w1) as Hs.
  destruct (worker_frame_of e w1) as [clk|].
  - destruct Hs as [Hp Ho].
    pose proof (perf_after_frame_dropped clk (perf w1)) as Hf.
    rewrite <- Ho, He in Hf. rewrite <- Hp in Hf. exact Hf.
  - destruct Hs as (_ & _ & Hn). rewrite Hn in He. discriminate He.
Qed.
End WindowOfTheWorker.

Lemma main_step_frame (e : MainThread.Event) (st : MainThread.t) :
  match e with
  | MainThread.ResetPerf t1 =>
      MainThread.perf (fst (MainThread.step e st)) = Perf.fresh t1
      /\ snd (MainThread.step e st) = None
  | _ =>
      match main_frame_of e with
      | Some clk =>
          MainThread.perf (fst (MainThread.step e st))
          = fst (perf_after_frame clk (MainThread.perf st))
          /\ snd (MainThread.step e st)
             = snd (perf_after_frame clk (MainThread.perf st))
      | None =>
          Perf.droppedFrames (MainThread.perf (fst (MainThread.step e st)))
          = Perf.droppedFrames (MainThread.perf st)
          /\ Perf.frames (MainThread.perf (fst (MainThread.step e st)))
             = Perf.frames (MainThread.perf st)
          /\ snd (MainThread.step e st) = None
      end
  end.
Proof.
  destruct e as [mode rand clk|dn|t1| |mode clk];
    cbn [MainThread.step main_frame_of fst snd].
  - unfold MainThread.initMainThreadMode.
    set (s1 := MainThread.createScene rand _).
    assert (Hp : MainThread.perf s1 = MainThread.perf st) by reflexivity.
    destruct mode; cbn [MainThread.animate fst snd]; rewrite <- ?Hp;
      try (repeat split; reflexivity).
    apply main_animate_perf.
  - repeat split.
  - split; reflexivity.
  - repeat split.
  - destruct mode; cbn [MainThread.animate fst snd];
      try (repeat split; reflexivity).
    apply main_animate_perf.
Qed.

Lemma main_window_count (evs : list MainThread.Event) (st : MainThread.t)
      (acc : list FrameClock) :
  snd (MainThread.run evs st) = [] ->
  Perf.droppedFrames (MainThread.perf st) = dropped_in acc ->
  Perf.droppedFrames (MainThread.perf (fst (MainThread.run evs st)))
  = dropped_in (main_window evs acc).
Proof.
  revert st acc. induction evs as [|e evs IH]; intros st acc Hq Hc.
  - exact Hc.
  - cbn [MainThread.run] in *.
    pose proof (main_step_frame e st) as Hs.
    destruct (MainThread.step e st) as [s1 out] eqn:Es. cbn [fst snd] in *.
    assert (Hout : out = None).
    { destruct (MainThread.run evs s1) as [s2 outs]. cbn [snd] in Hq.
      destruct out; [discriminate Hq|reflexivity]. }
    subst out.
    assert (Hq1 : snd (MainThread.run evs s1) = []).
    { destruct (MainThread.run evs s1) as [s2 outs]. exact Hq. }
    assert (Hfst : fst (let (s2, outs) := MainThread.run evs s1 in (s2, outs))
                   = fst (MainThread.run evs s1)).
    { destruct (MainThread.run evs s1); reflexivity. }
    rewrite Hfst.
    assert (Hgen : forall acc',
               Perf.droppedFrames (MainThread.perf s1) = dropped_in acc' ->
               Perf.droppedFrames (MainThread.perf (fst (MainThread.run evs s1)))
               = dropped_in (main_window evs acc')).
    { intros acc' H'. apply IH; assumption. }
    destruct e as [mode rand clk|dn|t1| |mode clk]; cbn [main_window];
      try (apply Hgen; rewrite add_frame_dropped;
           destruct (main_frame_of _) as [c|];
           [ destruct Hs as [Hp Ho];
             pose proof (perf_after_frame_dropped c (MainThread.perf st)) as Hf;
             rewrite <- Ho in Hf; rewrite <- Hp in Hf; rewrite Hf, Hc; reflexivity
           | destruct Hs as (Hd & _); rewrite Hd, Hc; lia ]).
    apply Hgen. destruct Hs as [Hp _]. rewrite Hp. reflexivity.
Qed.

Lemma main_window_app (a b : list MainThread.Event) (acc : list FrameClock) :
  main_window (a ++ b) acc = main_window b (main_window a acc).
Proof.
  revert acc. induction a as [|e a IH]; intros acc; [reflexivity|].
  destruct e; simpl; apply IH.
Qed.

Lemma main_window_emitted (evs : list MainThread.Event) (e : MainThread.Event)
      (st : MainThread.t) (m : Stats.t) :
  Perf.droppedFrames (MainThread.perf st) = 0%nat ->
  snd (MainThread.run evs st) = [] ->
  snd (MainThread.step e (fst (MainThread.run evs st))) = Some m ->
  Stats.droppedFrames m
  = JNumber (inject_Z (Z.of_nat (dropped_in (main_window (evs ++ [e]) []))))
  /\ Perf.droppedFrames
       (MainThread.perf (fst (MainThread.step e (fst (MainThread.run evs st)))))
     = 0%nat.
Proof.
  intros H0 Hq He.
  pose proof (main_window_count evs st [] Hq H0) as Hc.
  rewrite main_window_app.
  set (s1 := fst (MainThread.run evs st)) in *.
  pose proof (main_step_frame e s1) as Hs.
  destruct e as [mode rand clk|dn|t1| |mode clk]; cbn [main_window];
    try (rewrite add_frame_dropped, <- Hc;
         destruct (main_frame_of _) as [c|];
         [ destruct Hs as [Hp Ho];
           pose proof (perf_after_frame_dropped c (MainThread.perf s1)) as Hf;
           rewrite <- Ho, He in Hf; rewrite <- Hp in Hf; exact Hf
         | destruct Hs as (_ & _ & Hn); rewrite Hn in He; discriminate He ]).
  destruct Hs as [_ Hn]. rewrite Hn in He. discriminate He.
Qed.

(** C6.  A frame counts as dropped exactly when its measured duration is
    strictly above [TARGET_FRAME_TIME], the value of [1000 / 60]: the
    double 4691249611844267 / 2^48, which lies above 50/3 by less than
    2^-49; [animate] adds one to the counter for such a frame and
    nothing otherwise.  Take a window
    that starts with the counter at 0 (as at start-up and after every
    snapshot), runs through events that produce no snapshot and ends with
    the event that produces the snapshot [m]: the [droppedFrames] of [m]
    is the number of frames of that window, the closing one included,
    that were over the target, and the counter is 0 again afterwards.
    This holds for the worker and for the component. *)
Theorem C6_dropped_frames_per_window {M : MathLib}
    (w : Worker.t) (wevs : list Worker.Event) (we : Worker.Event) (m1 : Stats.t)
    (st : MainThread.t) (mevs : list MainThread.Event) (me : MainThread.Event)
    (m2 : Stats.t) :
  Perf.droppedFrames (Worker.perf w) = 0%nat ->
  snd (Worker.run wevs w) = [] ->
  snd (Worker.step we (fst (Worker.run wevs w))) = Some m1 ->
  Perf.droppedFrames (MainThread.perf st) = 0%nat ->
  snd (MainThread.run mevs st) = [] ->
  snd (MainThread.step me (fst (MainThread.run mevs st))) = Some m2 ->
  TARGET_FRAME_TIME == 4691249611844267 # 281474976710656
  /\ 50 # 3 < TARGET_FRAME_TIME
  /\ TARGET_FRAME_TIME - (50 # 3) < 1 # 562949953421312
  /\ (forall clk, over_target clk = true
                  <-> TARGET_FRAME_TIME < rendered clk - frameStart clk)
  /\ (forall ft p,
        Perf.droppedFrames (Perf.recordFrame ft p)
        = if Qlt_le_dec TARGET_FRAME_TIME ft
          then S (Perf.droppedFrames p) else Perf.droppedFrames p)
  /\ (forall t0, Perf.droppedFrames (Worker.perf (Worker.initial t0)) = 0%nat
                 /\ Perf.droppedFrames (MainThread.perf (MainThread.initial t0)) = 0%nat)
  /\ Stats.droppedFrames m1
     = JNumber (inject_Z (Z.of_nat
                 (dropped_in (worker_window (wevs ++ [we]) w []))))
  /\ Perf.droppedFrames
       (Worker.perf (fst (Worker.step we (fst (Worker.run wevs w))))) = 0%nat
  /\ Stats.droppedFrames m2
     = JNumber (inject_Z (Z.of_nat
                 (dropped_in (main_window (mevs ++ [me]) []))))
  /\ Perf.droppedFrames
       (MainThread.perf (fst (MainThread.step me (fst (MainThread.run mevs st)))))
     = 0%nat.
Proof.
  intros Hw0 Hwq Hwe Hm0 Hmq Hme.
  split; [reflexivity|]. split; [reflexivity|]. split; [reflexivity|]. split.
  { intros clk. unfold over_target, frameTime.
    destruct (Qlt_le_dec TARGET_FRAME_TIME (rendered clk - frameStart clk));
      split; intros H; try reflexivity; try assumption; try discriminate H.
    exfalso. lra. }
  split; [intros ft p; reflexivity|].
  split; [intros t0; split; reflexivity|].
  destruct (worker_window_emitted wevs we w m1 Hw0 Hwq Hwe) as [H1 H2].
  destruct (main_window_emitted mevs me st m2 Hm0 Hmq Hme) as [H3 H4].
  repeat split; assumption.
Qed.

Lemma C6_dropped_frames_per_window_witness :
  exists m1 m2 : Stats.t,
    Perf.droppedFrames (Worker.perf (Worker.initial 0)) = 0%nat
    /\ snd (@Worker.run taylorMath windowEvents (Worker.initial 0)) = []
    /\ snd (@Worker.step taylorMath windowClose
              (fst (@Worker.run taylorMath windowEvents (Worker.initial 0))))
       = Some m1
    /\ Perf.droppedFrames (MainThread.perf (MainThread.initial 0)) = 0%nat
    /\ snd (MainThread.run mainWindowEvents (MainThread.initial 0)) = []
    /\ snd (MainThread.step mainWindowClose
              (fst (MainThread.run mainWindowEvents (MainThread.initial 0))))
       = Some m2
    /\ Stats.droppedFrames m1 = JNumber (inject_Z 3)
    /\ Stats.droppedFrames m2 = JNumber (inject_Z 2).
Proof.
  destruct (snd (@Worker.step taylorMath windowClose
                   (fst (@Worker.run taylorMath windowEvents (Worker.initial 0)))))
    as [m1|] eqn:E1; [|vm_compute in E1; discriminate E1].
  destruct (snd (MainThread.step mainWindowClose
                   (fst (MainThread.run mainWindowEvents (MainThread.initial 0)))))
    as [m2|] eqn:E2; [|vm_compute in E2; discriminate E2].
  exists m1, m2.
  assert (Hw0 : Perf.droppedFrames (Worker.perf (Worker.initial 0)) = 0%nat)
    by reflexivity.
  assert (Hwq : snd (@Worker.run taylorMath windowEvents (Worker.initial 0)) = [])
    by (vm_compute; reflexivity).
  assert (Hm0 : Perf.droppedFrames (MainThread.perf (MainThread.initial 0)) = 0%nat)
    by reflexivity.
  assert (Hmq : snd (MainThread.run mainWindowEvents (MainThread.initial 0)) = [])
    by (vm_compute; reflexivity).
  destruct (@C6_dropped_frames_per_window taylorMath (Worker.initial 0)
              windowEvents windowClose m1 (MainThread.initial 0)
              mainWindowEvents mainWindowClose m2
              Hw0 Hwq E1 Hm0 Hmq E2)
    as (_ & _ & _ & _ & _ & _ & H1 & _ & H2 & _).
  split; [exact Hw0|]. split; [exact Hwq|]. split; [reflexivity|].
  split; [exact Hm0|]. split; [exact Hmq|]. split; [reflexivity|].
  split.
  - rewrite H1. vm_compute. reflexivity.
  - rewrite H2. vm_compute. reflexivity.
Defined.

(** ** The snapshot *)

Lemma digit_char_is_digit (d : Z) :
  (0 <= d <= 9)%Z -> is_digit (digit_char d) = true.
Proof.
  intros Hd. unfold is_digit, digit_char.
  rewrite nat_ascii_embedding by lia.
  apply andb_true_intro. split; apply Nat.leb_le; lia.
Qed.

Lemma string_append_assoc (a b c : string) :
  (a ++ (b ++ c))%string = ((a ++ b) ++ c)%string.
Proof.
  induction a as [|ch a IH]; simpl; [reflexivity|]. rewrite IH. reflexivity.
Qed.

Lemma toFixed2_two_decimals (a : Q) : two_decimals (JString (toFixed2 a)).
Proof.
  unfold two_decimals, toFixed2.
  set (n := Qfloor (Qabs a * 100 + (1 # 2))).
  exists ((if (if Qlt_le_dec a 0 then true else false) then "-" else "")
          ++ NilZero.string_of_uint (N.to_uint (Z.to_N (n / 100))))%string,
         (digit_char (n mod 100 / 10)), (digit_char (n mod 10)).
  split; [|split].
  - apply string_append_assoc.
  - apply digit_char_is_digit.
    pose proof (Z.mod_pos_bound n 100 ltac:(lia)) as Hm.
    split; [apply Z.div_pos; lia|].
    apply Z.lt_succ_r. apply Z.div_lt_upper_bound; lia.
  - apply digit_char_is_digit.
    pose proof (Z.mod_pos_bound n 10 ltac:(lia)) as Hm. lia.
Qed.

(** The FPS block when it fires, on the counters [p] a frame starts with. *)
Lemma perf_after_frame_emits (clk : FrameClock) (p : Perf.t) (m : Stats.t) :
  snd (perf_after_frame clk p) = Some m ->
  let p2 := perf_before_stats clk p in
  Perf.lastTime p + 1000 <= now clk
  /\ Perf.due (now clk) p2 = true
  /\ m = Perf.snapshot (now clk) p2
  /\ fst (perf_after_frame clk p) = Perf.restart (now clk) p2.
Proof.
  intros H p2. unfold perf_after_frame, Perf.emitStats in *.
  fold p2 in H |- *.
  assert (Hl : Perf.lastTime p2 = Perf.lastTime p).
  { destruct (measureInteraction_counters (dateNow clk) p) as (_ & _ & _ & _ & E).
    exact E. }
  destruct (Perf.due (now clk) p2) eqn:Hdue; [|discriminate H].
  simpl in H. inversion H; subst m. repeat split.
  unfold Perf.due in Hdue. rewrite Hl in Hdue.
  destruct (Qlt_le_dec (now clk) (Perf.lastTime p + 1000)); [discriminate Hdue|assumption].
Qed.

(** C7 (amended).  When a frame of the worker posts a snapshot, at least
    1000 ms have elapsed since [lastTime], and the [fps] field is the
    number [Math.round(frames_rendered * 1000 / elapsed_ms)]: the
    integer nearest to the quotient for the window just completed (also
    stored in the worker's [fps]).  [droppedFrames] is emitted as an integer
    number as well; [avgFrameTime], [maxDelay] and [interactionDelay] are
    emitted as strings made by [toFixed(2)], which end in a point and two
    digits.  After the frame the frame counter is 0 and [lastTime] is the
    time of the snapshot. *)
Theorem C7_snapshot_fields {M : MathLib} (w : Worker.t) (clk : FrameClock)
    (m : Stats.t) :
  snd (Worker.animate clk w) = Some m ->
  let w' := fst (Worker.animate clk w) in
  let r := Math_round (frames_rendered w * 1000 / elapsed_ms clk w) in
  1000 <= elapsed_ms clk w
  /\ Stats.fps m = JNumber (inject_Z r)
  /\ inject_Z r - (1 # 2) <= frames_rendered w * 1000 / elapsed_ms clk w
                          < inject_Z r + (1 # 2)
  /\ Worker.fps w' = r
  /\ (exists n : nat, Stats.droppedFrames m = JNumber (inject_Z (Z.of_nat n)))
  /\ Stats.avgFrameTime m
     = JString (toFixed2 (mean (Perf.frameTimes (Worker.perf w'))))
  /\ Stats.maxDelay m
     = JString (toFixed2 (Math_max (Perf.maxDelay (Worker.perf w)) (frameTime clk)))
  /\ Stats.interactionDelay m
     = JString (toFixed2 (Perf.interactionDelay (Worker.perf w')))
  /\ two_decimals (Stats.avgFrameTime m)
  /\ two_decimals (Stats.maxDelay m)
  /\ two_decimals (Stats.interactionDelay m)
  /\ Perf.frames (Worker.perf w') = 0%nat
  /\ Perf.lastTime (Worker.perf w') = now clk.
Proof.
  intros Hm w' r.
  destruct (worker_animate_perf clk w) as [Ep Eo].
  rewrite Eo in Hm.
  destruct (perf_after_frame_emits clk (Worker.perf w) m Hm)
    as (Hel & Hdue & Esnap & Erest).
  destruct (measureInteraction_counters (dateNow clk) (Worker.perf w))
    as (Hd & Hf & Hmx & Hft & Hlt).
  assert (Hfps : Perf.computeFps (now clk) (perf_before_stats clk (Worker.perf w))
                 = r).
  { unfold Perf.computeFps, r, frames_rendered, elapsed_ms, perf_before_stats.
    cbn [Perf.frames Perf.lastTime Perf.recordFrame].
    rewrite Hf, Hlt. reflexivity. }
  assert (Hw' : Worker.perf w'
                = Perf.restart (now clk) (perf_before_stats clk (Worker.perf w))).
  { unfold w'. rewrite Ep. exact Erest. }
  split; [unfold elapsed_ms; lra|].
  split; [rewrite Esnap; cbn [Stats.fps Perf.snapshot]; rewrite Hfps; reflexivity|].
  split; [apply Math_round_nearest|].
  split.
  { unfold w', Worker.animate. fold (frameTime clk).
    change (Worker.perf (Worker.updateCameraPosition w)) with (Worker.perf w).
    fold (perf_before_stats clk (Worker.perf w)).
    rewrite Hdue, Hfps.
    destruct (Perf.emitStats _ _). reflexivity. }
  split; [rewrite Esnap; cbn [Stats.droppedFrames Perf.snapshot]; eexists; reflexivity|].
  split; [rewrite Esnap, Hw'; reflexivity|].
  split.
  { rewrite Esnap. unfold perf_before_stats.
    cbn [Stats.maxDelay Perf.snapshot Perf.maxDelay Perf.recordFrame].
    rewrite Hmx. reflexivity. }
  split; [rewrite Esnap, Hw'; reflexivity|].
  split; [rewrite Esnap; apply toFixed2_two_decimals|].
  split; [rewrite Esnap; apply toFixed2_two_decimals|].
  split; [rewrite Esnap; apply toFixed2_two_decimals|].
  rewrite Hw'. split; reflexivity.
Qed.

Lemma C7_snapshot_fields_witness :
  exists m : Stats.t,
    snd (@Worker.animate taylorMath (frameAt 990 20) windowWorker) = Some m
    /\ Stats.fps m = JNumber (inject_Z 4)
    /\ Stats.avgFrameTime m = JString "15.75"
    /\ Stats.droppedFrames m = JNumber (inject_Z 3)
    /\ Stats.maxDelay m = JString "20.00"
    /\ Stats.interactionDelay m = JString "0.00"
    /\ Perf.frames
         (Worker.perf (fst (@Worker.animate taylorMath (frameAt 990 20) windowWorker)))
       = 0%nat.
Proof.
  destruct (snd (@Worker.animate taylorMath (frameAt 990 20) windowWorker))
    as [m|] eqn:E; [|vm_compute in E; discriminate E].
  exists m. split; [reflexivity|].
  destruct (@C7_snapshot_fields taylorMath windowWorker (frameAt 990 20) m E)
    as (_ & Hfps & _ & _ & _ & Havg & Hmax & Hint & _ & _ & _ & Hfr & _).
  split; [rewrite Hfps; vm_compute; reflexivity|].
  split; [rewrite Havg; vm_compute; reflexivity|].
  split; [vm_compute in E; inversion E; reflexivity|].
  split; [rewrite Hmax; vm_compute; reflexivity|].
  split; [rewrite Hint; vm_compute; reflexivity|].
  exact Hfr.
Defined.

(** C7 as worded fails on the frame that closes the sample window: four
    frames in 1010 ms give the quotient 400/101, the worker posts 4; and
    the [droppedFrames] it posts is the number 3, not a string. *)
Lemma C7_counterexample :
  ~ @stats_as_worded taylorMath (frameAt 990 20) windowWorker
  /\ exists m : Stats.t,
       snd (@Worker.animate taylorMath (frameAt 990 20) windowWorker) = Some m
       /\ Stats.fps m = JNumber (inject_Z 4)
       /\ frames_rendered windowWorker * 1000
          / elapsed_ms (frameAt 990 20) windowWorker == 400 # 101
       /\ ~ is_number (Stats.fps m)
              (frames_rendered windowWorker * 1000
               / elapsed_ms (frameAt 990 20) windowWorker)
       /\ Stats.droppedFrames m = JNumber (inject_Z 3)
       /\ ~ two_decimals (Stats.droppedFrames m).
Proof.
  destruct (snd (@Worker.animate taylorMath (frameAt 990 20) windowWorker))
    as [m|] eqn:E; [|vm_compute in E; discriminate E].
  assert (Hfps : Stats.fps m = JNumber (inject_Z 4)).
  { vm_compute in E. inversion E; reflexivity. }
  assert (Hdr : Stats.droppedFrames m = JNumber (inject_Z 3)).
  { vm_compute in E. inversion E; reflexivity. }
  split.
  - unfold stats_as_worded. intros H.
    destruct (H m E) as (_ & _ & Hdropped & _).
    rewrite Hdr in Hdropped. exact Hdropped.
  - exists m. split; [reflexivity|]. split; [exact Hfps|].
    split; [vm_compute; reflexivity|].
    split.
    + rewrite Hfps. unfold is_number. vm_compute. discriminate.
    + split; [exact Hdr|]. rewrite Hdr. intros F. exact F.
Qed.

(** ** What a snapshot resets *)

Lemma emitStats_effect (at_ : Q) (p p' : Perf.t) (m : Stats.t) :
  Perf.emitStats at_ p = (p', Some m) -> snapshot_effect at_ p p'.
Proof.
  unfold Perf.emitStats. destruct (Perf.due at_ p); intros H; inversion H.
  unfold snapshot_effect. simpl. repeat split.
Qed.

Lemma emitStats_silent (at_ : Q) (p p' : Perf.t) :
  Perf.emitStats at_ p = (p', None) -> p' = p.
Proof.
  unfold Perf.emitStats. destruct (Perf.due at_ p); intros H; inversion H.
  reflexivity.
Qed.

Lemma perf_before_stats_buffers (clk : FrameClock) (p : Perf.t) :
  Perf.frameTimes (perf_before_stats clk p)
  = push_bounded 60 (frameTime clk) (Perf.frameTimes p)
  /\ Perf.interactionDelays (perf_before_stats clk p)
     = Perf.interactionDelays (Perf.measureInteraction (dateNow clk) p).
Proof.
  destruct (measureInteraction_counters (dateNow clk) p) as (_ & _ & _ & Hft & _).
  unfold perf_before_stats. simpl. rewrite Hft. split; reflexivity.
Qed.

Lemma perf_after_frame_buffers (clk : FrameClock) (p : Perf.t) :
  Perf.frameTimes (fst (perf_after_frame clk p))
  = Perf.frameTimes (perf_before_stats clk p)
  /\ Perf.interactionDelays (fst (perf_after_frame clk p))
     = Perf.interactionDelays (perf_before_stats clk p).
Proof.
  unfold perf_after_frame, perf_before_stats, frameTime, Perf.emitStats.
  destruct (Perf.due _ _); split; reflexivity.
Qed.

Lemma perf_after_frame_effect (clk : FrameClock) (p : Perf.t) (m : Stats.t) :
  snd (perf_after_frame clk p) = Some m ->
  snapshot_effect (now clk) (perf_before_stats clk p) (fst (perf_after_frame clk p)).
Proof.
  change (perf_after_frame clk p)
    with (Perf.emitStats (now clk) (perf_before_stats clk p)).
  destruct (Perf.emitStats (now clk) (perf_before_stats clk p)) as [p' o] eqn:E.
  simpl. intros Ho. subst o. apply (emitStats_effect _ _ _ m). exact E.
Qed.

(** C8.  When a frame posts a snapshot, in the worker or in the
    component, the block that posts it sets the frame counter, the
    dropped-frame counter and the maximum delay to 0 (and [lastTime] to
    the time of the snapshot) and changes nothing else: in particular
    the frame-time buffer and the interaction-delay buffer are what the
    frame had made of them before, and what they would be had no
    snapshot been due.  The frame-time buffer itself receives each
    frame's duration and loses its oldest entry when that makes 61, so
    that it never grows beyond 60 entries. *)
Theorem C8_snapshot_resets_counters_only {M : MathLib}
    (w : Worker.t) (st : MainThread.t) (clk : FrameClock) (m1 m2 : Stats.t) :
  snd (Worker.animate clk w) = Some m1 ->
  snd (MainThread.animate MainThread.main clk st) = Some m2 ->
  let pw := Worker.perf (fst (Worker.animate clk w)) in
  let pm := MainThread.perf (fst (MainThread.animate MainThread.main clk st)) in
  snapshot_effect (now clk) (perf_before_stats clk (Worker.perf w)) pw
  /\ snapshot_effect (now clk) (perf_before_stats clk (MainThread.perf st)) pm
  /\ (forall t : Q,
        let qw := Worker.perf (fst (Worker.animate (with_now t clk) w)) in
        let qm := MainThread.perf
                    (fst (MainThread.animate MainThread.main (with_now t clk) st)) in
        Perf.frameTimes qw = Perf.frameTimes pw
        /\ Perf.interactionDelays qw = Perf.interactionDelays pw
        /\ Perf.frameTimes qm = Perf.frameTimes pm
        /\ Perf.interactionDelays qm = Perf.interactionDelays pm)
  /\ (forall p : Perf.t,
        let l := Perf.frameTimes p ++ [frameTime clk] in
        Perf.frameTimes (perf_before_stats clk p)
        = (if Nat.ltb 60 (length l) then tl l else l)
        /\ ((length (Perf.frameTimes p) <= 60)%nat ->
            (length (Perf.frameTimes (perf_before_stats clk p)) <= 60)%nat)).
Proof.
  intros H1 H2 pw pm.
  destruct (worker_animate_perf clk w) as [Ep1 Eo1].
  destruct (main_animate_perf clk st) as [Ep2 Eo2].
  rewrite Eo1 in H1. rewrite Eo2 in H2.
  split; [|split; [|split]].
  - unfold pw. rewrite Ep1. apply (perf_after_frame_effect _ _ m1). exact H1.
  - unfold pm. rewrite Ep2. apply (perf_after_frame_effect _ _ m2). exact H2.
  - intros t qw qm. unfold qw, qm, pw, pm.
    destruct (worker_animate_perf (with_now t clk) w) as [Eq1 _].
    destruct (main_animate_perf (with_now t clk) st) as [Eq2 _].
    rewrite Eq1, Eq2, Ep1, Ep2.
    destruct (perf_after_frame_buffers clk (Worker.perf w)) as [A1 A2].
    destruct (perf_after_frame_buffers (with_now t clk) (Worker.perf w)) as [B1 B2].
    destruct (perf_after_frame_buffers clk (MainThread.perf st)) as [C1 C2].
    destruct (perf_after_frame_buffers (with_now t clk) (MainThread.perf st)) as [D1 D2].
    rewrite A1, A2, B1, B2, C1, C2, D1, D2. repeat split.
  - intros p l.
    destruct (perf_before_stats_buffers clk p) as [E _]. rewrite E.
    split; [reflexivity|]. intros Hl. apply push_bounded_length, Hl.
Qed.

Lemma C8_snapshot_resets_counters_only_witness :
  exists m1 m2 : Stats.t,
    snd (@Worker.animate taylorMath (frameAt 990 20) windowWorker) = Some m1
    /\ snd (MainThread.animate MainThread.main (frameAt 990 20)
              (fst (MainThread.run mainWindowEvents (MainThread.initial 0))))
       = Some m2
    /\ snapshot_effect 1010
         (perf_before_stats (frameAt 990 20) (Worker.perf windowWorker))
         (Worker.perf (fst (@Worker.animate taylorMath (frameAt 990 20) windowWorker)))
    /\ Perf.frameTimes
         (Worker.perf (fst (@Worker.animate taylorMath (frameAt 990 20) windowWorker)))
       = Perf.frameTimes
           (Worker.perf
              (fst (@Worker.animate taylorMath
                      (with_now 995 (frameAt 990 20)) windowWorker))).
Proof.
  destruct (snd (@Worker.animate taylorMath (frameAt 990 20) windowWorker))
    as [m1|] eqn:E1; [|vm_compute in E1; discriminate E1].
  destruct (snd (MainThread.animate MainThread.main (frameAt 990 20)
                   (fst (MainThread.run mainWindowEvents (MainThread.initial 0)))))
    as [m2|] eqn:E2; [|vm_compute in E2; discriminate E2].
  exists m1, m2. split; [reflexivity|]. split; [reflexivity|].
  destruct (@C8_snapshot_resets_counters_only taylorMath windowWorker
              (fst (MainThread.run mainWindowEvents (MainThread.initial 0)))
              (frameAt 990 20) m1 m2 E1 E2) as (Hw & _ & Hsame & _).
  split; [exact Hw|].
  destruct (Hsame 995) as (Hft & _). symmetry. exact Hft.
Defined.

(** ** Camera placement and scene size *)

(** C9.  With the camera created ([init] has run), a frame first damps
    pitch ([cameraRotation.x]), yaw ([cameraRotation.y]) and distance,
    and then places the camera from the damped values at
    [x = distance * sin(yaw) * cos(pitch)], [y = distance * sin(pitch)],
    [z = distance * cos(yaw) * cos(pitch)] and aims it at the origin. *)
Theorem C9_camera_position {M : MathLib} (w : Worker.t) (c : Worker.Camera)
    (clk : FrameClock) :
  Worker.camera w = Some c ->
  let w' := fst (Worker.animate clk w) in
  let pitch := Worker.x (Worker.cameraRotation w') in
  let yaw := Worker.y (Worker.cameraRotation w') in
  let distance := Worker.cameraDistance w' in
  pitch = Worker.x (Worker.cameraRotation w)
          + (Worker.x (Worker.cameraRotationTarget w)
             - Worker.x (Worker.cameraRotation w)) * dampingFactor
  /\ yaw = Worker.y (Worker.cameraRotation w)
           + (Worker.y (Worker.cameraRotationTarget w)
              - Worker.y (Worker.cameraRotation w)) * dampingFactor
  /\ distance = Worker.cameraDistance w
                + (Worker.cameraDistanceTarget w - Worker.cameraDistance w)
                  * dampingFactor
  /\ exists c' : Worker.Camera,
       Worker.camera w' = Some c'
       /\ Vec3.x (Worker.cam_position c') = distance * Math_sin yaw * Math_cos pitch
       /\ Vec3.y (Worker.cam_position c') = distance * Math_sin pitch
       /\ Vec3.z (Worker.cam_position c') = distance * Math_cos yaw * Math_cos pitch
       /\ Worker.lookingAt c' = Some (Vec3.mk 0 0 0)
       /\ Worker.camera (Worker.updateCameraPosition w) = Some c'.
Proof.
  intros Hc w' pitch yaw distance.
  destruct (animate_camera clk w) as (Hr & _ & Hd & _ & Hcam & _).
  unfold pitch, yaw, distance, w'. rewrite Hr, Hd, Hcam.
  unfold Worker.updateCameraPosition. rewrite Hc. cbn.
  repeat split. eexists. repeat split.
Qed.

Lemma C9_camera_position_witness :
  exists c' : Worker.Camera,
    Worker.camera sampleWorker <> None
    /\ Worker.camera (fst (@Worker.animate taylorMath (frameAt 1016 4) sampleWorker))
       = Some c'
    /\ Vec3.y (Worker.cam_position c')
       = Worker.cameraDistance
           (fst (@Worker.animate taylorMath (frameAt 1016 4) sampleWorker))
         * @Math_sin taylorMath
             (Worker.x (Worker.cameraRotation
                (fst (@Worker.animate taylorMath (frameAt 1016 4) sampleWorker))))
    /\ Worker.cameraDistance
         (fst (@Worker.animate taylorMath (frameAt 1016 4) sampleWorker)) == 61 # 2
    /\ Worker.lookingAt c' = Some (Vec3.mk 0 0 0).
Proof.
  destruct (Worker.camera sampleWorker) as [c|] eqn:Ec;
    [|vm_compute in Ec; discriminate Ec].
  destruct (@C9_camera_position taylorMath sampleWorker c (frameAt 1016 4) Ec)
    as (_ & _ & _ & c' & Hc' & _ & Hy & _ & Hl & _).
  exists c'. split; [discriminate|]. split; [exact Hc'|].
  split; [exact Hy|]. split; [|exact Hl].
  vm_compute. reflexivity.
Defined.

Lemma createCubes_length (n : nat) (rand : nat -> Q) :
  length (createCubes n rand) = n.
Proof.
  revert rand. induction n as [|n IH]; intros rand; simpl; [reflexivity|].
  rewrite IH. reflexivity.
Qed.

Lemma init_objects {M : MathLib} (wd ht pr : Q) (count : option Z)
      (env : Worker.Env) (w : Worker.t) :
  let w' := fst (Worker.onmessage (MsgInit wd ht pr count) env w) in
  Worker.objectCount w' = or_default count 100
  /\ length (Worker.objects w') = Z.to_nat (or_default count 100)
  /\ Worker.scene w' = Some sceneLights.
Proof.
  cbn [Worker.onmessage].
  match goal with |- context [Worker.animate ?c ?v] =>
    pose proof (animate_objects c v) as Ho;
    assert (Hs : Worker.scene (fst (Worker.animate c v)) = Worker.scene v
                 /\ Worker.objectCount (fst (Worker.animate c v))
                    = Worker.objectCount v)
      by (unfold Worker.animate; destruct (Perf.emitStats _ _); split; reflexivity)
  end.
  destruct Hs as [Hs Hn]. cbv zeta. rewrite Ho, Hs, Hn.
  unfold updateObjects. rewrite length_map.
  unfold Worker.createScene.
  cbn [Worker.scene Worker.updateCameraPosition Worker.objects Worker.objectCount].
  rewrite createCubes_length. repeat split.
Qed.

(** C10.  On [init] the object count is [objectCount || 100]: when the
    field is absent or 0 the worker's scene holds 100 cubes (beside the
    two lights), and for a positive [objectCount = n], such as the 20000
    the component sends, it holds exactly [n]. *)
Theorem C10_init_object_count {M : MathLib} (w : Worker.t)
    (width height pixelRatio : Q) (env : Worker.Env) (n : Z) :
  (0 < n)%Z ->
  let built := fun count =>
    fst (Worker.onmessage (MsgInit width height pixelRatio count) env w) in
  (length (Worker.objects (built None)) = 100%nat
   /\ Worker.objectCount (built None) = 100%Z)
  /\ (length (Worker.objects (built (Some 0%Z))) = 100%nat
      /\ Worker.objectCount (built (Some 0%Z)) = 100%Z)
  /\ (Z.of_nat (length (Worker.objects (built (Some n)))) = n
      /\ Worker.objectCount (built (Some n)) = n)
  /\ (forall count, Worker.scene (built count) = Some sceneLights)
  /\ MainThread.objectCount = 20000%Z.
Proof.
  intros Hn built. unfold built.
  destruct (init_objects width height pixelRatio None env w) as (A1 & A2 & _).
  destruct (init_objects width height pixelRatio (Some 0%Z) env w) as (B1 & B2 & _).
  destruct (init_objects width height pixelRatio (Some n) env w) as (C1 & C2 & _).
  cbv zeta in *.
  split; [split; [rewrite A2; reflexivity|rewrite A1; reflexivity]|].
  split; [split; [rewrite B2; reflexivity|rewrite B1; reflexivity]|].
  split.
  - assert (E : or_default (Some n) 100 = n).
    { unfold or_default. destruct (Z.eqb_spec n 0); [lia|reflexivity]. }
    rewrite C1, C2, E. split; [lia|reflexivity].
  - split; [|reflexivity]. intros count.
    destruct (init_objects width height pixelRatio count env w) as (_ & _ & S1).
    exact S1.
Qed.

Lemma C10_init_object_count_witness :
  (0 < 20000)%Z
  /\ Z.of_nat
       (length
          (Worker.objects
             (fst (@Worker.onmessage taylorMath
                     (MsgInit 800 600 2 (Some 20000%Z))
                     (Worker.mkEnv (fun _ => 1 # 2) (frameAt 0 5))
                     (Worker.initial 0)))))
     = 20000%Z
  /\ length
       (Worker.objects
          (fst (@Worker.onmessage taylorMath
                  (MsgInit 800 600 2 None)
                  (Worker.mkEnv (fun _ => 1 # 2) (frameAt 0 5))
                  (Worker.initial 0))))
     = 100%nat.
Proof.
  assert (H : (0 < 20000)%Z) by reflexivity.
  split; [exact H|].
  destruct (@C10_init_object_count taylorMath (Worker.initial 0) 800 600 2
              (Worker.mkEnv (fun _ => 1 # 2) (frameAt 0 5)) 20000%Z H)
    as ((A & _) & _ & (C & _) & _).
  split; [exact C|exact A].
Defined.

(** ** The model on concrete inputs *)

Example toFixed2_rounds_up : toFixed2 (16665 # 1000) = "16.67"%string.
Proof. reflexivity. Qed.

Example toFixed2_keeps_the_sign : toFixed2 (- (1 # 1000)) = "-0.00"%string.
Proof. reflexivity. Qed.

Example toFixed2_pads : toFixed2 (5 # 1000) = "0.01"%string.
Proof. reflexivity. Qed.

Example Math_round_ties_upwards :
  Math_round (5 # 2) = 3%Z /\ Math_round (- (5 # 2)) = (-2)%Z.
Proof. split; reflexivity. Qed.

Example rotate_without_drag_is_ignored :
  Worker.handleInteraction (ActionRotate 100 40) (Worker.initial 0)
  = Worker.initial 0.
Proof. reflexivity. Qed.

Example pitch_target_saturates :
  Worker.x (Worker.cameraRotationTarget
    (Worker.handleInteraction (ActionRotate 0 1000)
       (Worker.handleInteraction (ActionStart None) (Worker.initial 0))))
  == Math_PI / 2.
Proof. vm_compute. reflexivity. Qed.

Example distance_target_saturates :
  Worker.cameraDistanceTarget
    (Worker.handleInteraction (ActionZoom 5000 None) (Worker.initial 0)) == 100
  /\ Worker.cameraDistanceTarget
       (Worker.handleInteraction (ActionZoom (-5000) None) (Worker.initial 0)) == 10.
Proof. split; vm_compute; reflexivity. Qed.

(** The zoom of the sample worker was stamped 1010; the frame at 1016
    records a delay of 6 ms and clears the stamp. *)
Example sample_delay_recorded :
  let p := Worker.perf (fst (@Worker.animate taylorMath (frameAt 1016 4) sampleWorker)) in
  Perf.interactionDelays p = [1016 - 1010]
  /\ Perf.interactionDelay p == 6
  /\ Perf.lastInteractionTime p = 0.
Proof. vm_compute. repeat split. Qed.

(** The frame loop tests [lastInteractionTime > 0]: a negative stamp,
    which no clock produces, would be stored and never measured. *)
Example negative_stamp_is_not_measured :
  let w := Worker.handleInteraction (ActionStart (Some (-1))) sampleWorker in
  let p := Worker.perf (fst (@Worker.animate taylorMath (frameAt 1016 4) w)) in
  Perf.lastInteractionTime (Worker.perf w) = -1
  /\ Perf.interactionDelays p = []
  /\ Perf.lastInteractionTime p = -1.
Proof. vm_compute. repeat split. Qed.

(** The first window of the sample worker: four frames, three of them
    over the target, closed 1010 ms after start-up. *)
Example sample_window_snapshot :
  snd (@Worker.step taylorMath windowClose windowWorker)
  = Some {| Stats.fps := JNumber (inject_Z 4);
            Stats.avgFrameTime := JString "15.75";
            Stats.droppedFrames := JNumber (inject_Z 3);
            Stats.maxDelay := JString "20.00";
            Stats.interactionDelay := JString "0.00" |}.
Proof. vm_compute. reflexivity. Qed.


(** A frame that lasts exactly the target, or 50/3 ms, is not dropped;
    one that lasts the next double after the target is. *)
Example frame_at_the_target_is_not_dropped :
  dropped_in [frameAt 0 TARGET_FRAME_TIME; frameAt 0 (50 # 3)] = 0%nat
  /\ dropped_in [frameAt 0 (TARGET_FRAME_TIME + (1 # 281474976710656))] = 1%nat.
Proof. split; vm_compute; reflexivity. Qed.

(** * Further properties *)

(** ** The relay and the worker's camera controls *)

Lemma handleAll_app (a b : list Interaction) (w : Worker.t) :
  handleAll (a ++ b) w = handleAll b (handleAll a w).
Proof. unfold handleAll. apply fold_left_app. Qed.

Lemma handleInteraction_same_controls (d : Interaction) (w1 w2 : Worker.t) :
  same_controls w1 w2 ->
  same_controls (Worker.handleInteraction d w1) (Worker.handleInteraction d w2).
Proof.
  intros (Hd & Hr & Hz). unfold same_controls.
  destruct d as [ts|dX dY| |delta ts]; simpl.
  - destruct ts as [ts|]; [destruct (truthy (Some ts))|]; simpl;
      repeat split; assumption.
  - rewrite Hd. destruct (Worker.isDragging w2) eqn:E; simpl; rewrite ?Hr;
      repeat split; congruence.
  - repeat split; assumption.
  - destruct ts as [ts|]; [destruct (truthy (Some ts))|]; simpl;
      rewrite Hz; repeat split; assumption.
Qed.

Lemma handleAll_same_controls (ds : list Interaction) (w1 w2 : Worker.t) :
  same_controls w1 w2 -> same_controls (handleAll ds w1) (handleAll ds w2).
Proof.
  revert w1 w2. induction ds as [|d ds IH]; intros w1 w2 H; [exact H|].
  apply IH, handleInteraction_same_controls, H.
Qed.

Lemma same_controls_trans (a b c : Worker.t) :
  same_controls a b -> same_controls b c -> same_controls a c.
Proof.
  intros (A1 & A2 & A3) (B1 & B2 & B3). repeat split; congruence.
Qed.

Lemma interactions_of_cons (e : Worker.Event) (evs : list Worker.Event) :
  interactions_of (e :: evs) = interactions_of [e] ++ interactions_of evs.
Proof. unfold interactions_of. simpl. rewrite app_nil_r. reflexivity. Qed.

Section ControlsOfTheWorker.
Context {M : MathLib}.

(** An event acts on the drag flag and the targets as its interaction
    payload does: frames and the other messages leave them alone. *)
Lemma step_same_controls (e : Worker.Event) (w : Worker.t) :
  same_controls (fst (Worker.step e w)) (handleAll (interactions_of [e]) w).
Proof.
  unfold same_controls.
  destruct e as [m env|clk]; cbn [Worker.step interactions_of flat_map].
  - destruct m as [wd ht pr cnt|wd ht|cnt|data|];
      cbn [Worker.onmessage payload app handleAll fold_left fst].
    + match goal with |- context [Worker.animate ?c ?v] =>
        destruct (animate_camera c v) as (_ & Ht & _ & Hd & _ & Hg);
        rewrite Ht, Hd, Hg
      end.
      unfold Worker.createScene. cbn. repeat split.
    + destruct (Worker.camera w); repeat split.
    + unfold Worker.createScene. cbn [Worker.scene Worker.set_objectCount].
      destruct (Worker.scene w); repeat split.
    + repeat split.
    + repeat split.
  - cbn [handleAll fold_left app]. destruct (Worker.camera w); [|repeat split].
    destruct (animate_camera clk w) as (_ & Ht & _ & Hd & _ & Hg).
    rewrite Ht, Hd, Hg. repeat split.
Qed.

Lemma run_same_controls (evs : list Worker.Event) (w1 w2 : Worker.t) :
  same_controls w1 w2 ->
  same_controls (fst (Worker.run evs w1)) (handleAll (interactions_of evs) w2).
Proof.
  revert w1 w2. induction evs as [|e evs IH]; intros w1 w2 H.
  - exact H.
  - rewrite interactions_of_cons, handleAll_app. cbn [Worker.run].
    pose proof (step_same_controls e w1) as Hs.
    destruct (Worker.step e w1) as [w1' out]. cbn [fst] in Hs.
    specialize (IH w1' (handleAll (interactions_of [e]) w2)).
    destruct (Worker.run evs w1') as [w1'' outs]. cbn [fst] in *.
    apply IH.
    apply (same_controls_trans _ _ _ Hs).
    apply handleAll_same_controls, H.
Qed.
End ControlsOfTheWorker.

Lemma relay_run_cons (e : Relay.DomEvent) (es : list Relay.DomEvent) (r : Relay.t) :
  Relay.run (e :: es) r
  = (fst (Relay.run es (fst (Relay.dispatch e r))),
     snd (Relay.dispatch e r) ++ snd (Relay.run es (fst (Relay.dispatch e r)))).
Proof.
  cbn [Relay.run]. destruct (Relay.dispatch e r) as [r1 out]. cbn [fst snd].
  destruct (Relay.run es r1) as [r2 outs]. reflexivity.
Qed.

Lemma dispatch_drag_flag (e : Relay.DomEvent) (r : Relay.t) (w : Worker.t) :
  Worker.isDragging w = Relay.isDragging r ->
  Worker.isDragging (handleAll (flat_map payload (snd (Relay.dispatch e r))) w)
  = Relay.isDragging (fst (Relay.dispatch e r)).
Proof.
  intros H. destruct e as [cx cy dn|cx cy| |dy dn]; cbn [Relay.dispatch].
  - cbn. destruct (Qeq_bool dn 0); reflexivity.
  - unfold Relay.handleMouseMove. destruct (Relay.isDragging r) eqn:E.
    + cbn. rewrite H. cbn. exact H.
    + cbn. rewrite E. exact H.
  - reflexivity.
  - cbn. destruct (Qeq_bool dn 0); cbn; exact H.
Qed.

Lemma relay_drag_flag (es : list Relay.DomEvent) (r : Relay.t) (w : Worker.t) :
  Worker.isDragging w = Relay.isDragging r ->
  Worker.isDragging (handleAll (flat_map payload (snd (Relay.run es r))) w)
  = Relay.isDragging (fst (Relay.run es r)).
Proof.
  revert r w. induction es as [|e es IH]; intros r w H; [exact H|].
  rewrite relay_run_cons. cbn [fst snd].
  rewrite flat_map_app, handleAll_app.
  apply IH, dispatch_drag_flag, H.
Qed.

(** X1.  The drag flag of the relay and the drag flag of the worker
    agree again whenever the worker has received every interaction
    message the relay has posted: starting from equal flags (both are
    false at start-up), whatever frames and other messages the worker
    handles in between. *)
Theorem X1_relay_drag_flag {M : MathLib} (es : list Relay.DomEvent)
    (evs : list Worker.Event) (r : Relay.t) (w : Worker.t) :
  Worker.isDragging w = Relay.isDragging r ->
  interactions_of evs = flat_map payload (snd (Relay.run es r)) ->
  Worker.isDragging (fst (Worker.run evs w))
  = Relay.isDragging (fst (Relay.run es r)).
Proof.
  intros H Hevs.
  assert (Hsame : same_controls w w) by (repeat split).
  destruct (run_same_controls evs w w Hsame) as (Hd & _).
  rewrite Hd, Hevs. apply relay_drag_flag, H.
Qed.

Lemma X1_relay_drag_flag_witness :
  Worker.isDragging (Worker.initial 0) = Relay.isDragging Relay.initial
  /\ interactions_of sampleDelivery
     = flat_map payload (snd (Relay.run sampleDom Relay.initial))
  /\ Worker.isDragging (fst (@Worker.run taylorMath sampleDelivery (Worker.initial 0)))
     = Relay.isDragging (fst (Relay.run sampleDom Relay.initial)).
Proof.
  assert (H1 : Worker.isDragging (Worker.initial 0) = Relay.isDragging Relay.initial)
    by reflexivity.
  assert (H2 : interactions_of sampleDelivery
               = flat_map payload (snd (Relay.run sampleDom Relay.initial)))
    by reflexivity.
  split; [exact H1|]. split; [exact H2|].
  exact (@X1_relay_drag_flag taylorMath sampleDom sampleDelivery Relay.initial
           (Worker.initial 0) H1 H2).
Defined.

Lemma last_cons_default {A : Type} (a : A) (l : list A) (d : A) :
  last (a :: l) d = last l a.
Proof.
  revert a d. induction l as [|b l IH]; intros a d; [reflexivity|].
  change (last (a :: b :: l) d) with (last (b :: l) d).
  rewrite (IH b d), (IH b a). reflexivity.
Qed.

(** While both sides are dragging, a mouse path turns the yaw target by
    0.005 times the horizontal distance between its ends. *)
Lemma drag_path_yaw (pts : list (Q * Q)) (r : Relay.t) (w : Worker.t) :
  Relay.isDragging r = true ->
  Worker.isDragging w = true ->
  let w' := handleAll (flat_map payload (snd (Relay.run (dragPath pts) r))) w in
  Worker.y (Worker.cameraRotationTarget w')
  == Worker.y (Worker.cameraRotationTarget w)
     - (5 # 1000) * (fst (last pts (Relay.lastMouseX r, Relay.lastMouseY r))
                     - Relay.lastMouseX r)
  /\ Relay.lastMouseX (fst (Relay.run (dragPath pts) r))
     = fst (last pts (Relay.lastMouseX r, Relay.lastMouseY r)).
Proof.
  revert r w. induction pts as [|p pts IH]; intros r w Hr Hw w'.
  - subst w'. cbn. split; [ring|reflexivity].
  - subst w'. cbn [dragPath map]. rewrite relay_run_cons. cbn [fst snd].
    rewrite flat_map_app, handleAll_app.
    cbn [Relay.dispatch]. unfold Relay.handleMouseMove. rewrite Hr.
    cbn [fst snd flat_map payload app handleAll fold_left].
    set (w1 := Worker.handleInteraction _ w).
    set (r1 := Relay.mk true (fst p) (snd p)).
    assert (Hw1 : Worker.isDragging w1 = true).
    { unfold w1. cbn. rewrite Hw. exact Hw. }
    assert (Hy1 : Worker.y (Worker.cameraRotationTarget w1)
                  = Worker.y (Worker.cameraRotationTarget w)
                    - (fst p - Relay.lastMouseX r) * (5 # 1000)).
    { unfold w1. cbn. rewrite Hw. reflexivity. }
    destruct (IH r1 w1 eq_refl Hw1) as [IHy IHx].
    fold (dragPath pts). rewrite last_cons_default.
    cbn [Relay.lastMouseX Relay.lastMouseY r1] in IHy, IHx.
    replace (fst p, snd p) with p in IHy, IHx by (destruct p; reflexivity).
    split; [|exact IHx].
    rewrite IHy, Hy1. ring.
Qed.

(** X2.  A drag turns the camera by its horizontal travel: once the
    worker has received what the relay posted for a button press at
    [x0] followed by mouse moves, its yaw target has decreased by 0.005
    times (last x - [x0]), however the path got there and whatever the
    worker's drag flag was before (no relayed [rotate] is dropped). *)
Theorem X2_drag_turns_by_travel {M : MathLib} (x0 y0 dn : Q)
    (pts : list (Q * Q)) (evs : list Worker.Event) (r : Relay.t) (w : Worker.t) :
  interactions_of evs
  = flat_map payload (snd (Relay.run (Relay.mousedown x0 y0 dn :: dragPath pts) r)) ->
  Worker.y (Worker.cameraRotationTarget (fst (Worker.run evs w)))
  == Worker.y (Worker.cameraRotationTarget w)
     - (5 # 1000) * (fst (last pts (x0, y0)) - x0).
Proof.
  intros Hevs.
  assert (Hsame : same_controls w w) by (repeat split).
  destruct (run_same_controls evs w w Hsame) as (_ & Hr & _).
  rewrite Hr, Hevs, relay_run_cons. cbn [Relay.dispatch Relay.handleMouseDown fst snd].
  rewrite flat_map_app, handleAll_app.
  cbn [flat_map payload app handleAll fold_left].
  set (w1 := Worker.handleInteraction _ w).
  assert (Hw1 : Worker.isDragging w1 = true).
  { unfold w1. cbn. destruct (Qeq_bool dn 0); reflexivity. }
  assert (Hy1 : Worker.cameraRotationTarget w1 = Worker.cameraRotationTarget w).
  { unfold w1. cbn. destruct (Qeq_bool dn 0); reflexivity. }
  destruct (drag_path_yaw pts (Relay.mk true x0 y0) w1 eq_refl Hw1) as [Hy _].
  cbn [Relay.lastMouseX Relay.lastMouseY] in Hy.
  rewrite Hy, Hy1. reflexivity.
Qed.

Lemma X2_drag_turns_by_travel_witness :
  interactions_of sampleDragDelivery
  = flat_map payload
      (snd (Relay.run (Relay.mousedown 100 100 1000 :: dragPath [(110, 95); (130, 90)])
                      Relay.initial))
  /\ Worker.y (Worker.cameraRotationTarget
                 (fst (@Worker.run taylorMath sampleDragDelivery (Worker.initial 0))))
     == 0 - (5 # 1000) * (130 - 100).
Proof.
  assert (H : interactions_of sampleDragDelivery
              = flat_map payload
                  (snd (Relay.run (Relay.mousedown 100 100 1000
                                   :: dragPath [(110, 95); (130, 90)])
                                  Relay.initial)))
    by reflexivity.
  split; [exact H|].
  exact (@X2_drag_turns_by_travel taylorMath 100 100 1000 [(110, 95); (130, 90)]
           sampleDragDelivery Relay.initial (Worker.initial 0) H).
Defined.

(** ** Timestamps from the relay to the delay buffer *)

Lemma dispatch_stamp_ok (e : Relay.DomEvent) (r : Relay.t) :
  dom_clock_ok e ->
  Forall stamp_ok (flat_map payload (snd (Relay.dispatch e r))).
Proof.
  intros H. destruct e as [cx cy dn|cx cy| |dy dn]; cbn [Relay.dispatch].
  - cbn. constructor; [exact H|constructor].
  - unfold Relay.handleMouseMove. destruct (Relay.isDragging r); cbn;
      repeat constructor.
  - cbn. repeat constructor.
  - cbn. constructor; [exact H|constructor].
Qed.

Lemma relay_stamp_ok (es : list Relay.DomEvent) (r : Relay.t) :
  Forall dom_clock_ok es ->
  Forall stamp_ok (flat_map payload (snd (Relay.run es r))).
Proof.
  intros H. revert r. induction H as [|e es He Hes IH]; intros r.
  - constructor.
  - rewrite relay_run_cons. cbn [snd]. rewrite flat_map_app.
    apply Forall_app. split; [apply dispatch_stamp_ok, He|apply IH].
Qed.

Lemma stamps_ok_events (evs : list Worker.Event) :
  Forall stamp_ok (interactions_of evs) -> Forall worker_clock_ok evs.
Proof.
  induction evs as [|e evs IH]; intros H; [constructor|].
  rewrite interactions_of_cons in H. apply Forall_app in H. destruct H as [He Hr].
  constructor; [|apply IH, Hr].
  destruct e as [m env|clk]; [|exact I].
  destruct m as [wd ht pr cnt|wd ht|cnt|data|]; try exact I.
  unfold interactions_of in He. cbn in He. inversion He as [|? ? Hd _]; subst.
  destruct data as [[ts|]|dX dY| |delta [ts|]]; try exact I; exact Hd.
Qed.

(** X3.  With the relay as the source of the interaction messages and a
    [Date.now()] that is never negative, the worker's pending timestamp
    is never negative and its delay buffer never holds more than 30
    entries, so that every frame treats the buffer as [delay_measured]
    says: a nonzero pending timestamp is measured and cleared. *)
Theorem X3_relayed_stamps_are_measured {M : MathLib} (t0 : Q)
    (es : list Relay.DomEvent) (r : Relay.t) (evs : list Worker.Event)
    (clk : FrameClock) :
  Forall dom_clock_ok es ->
  interactions_of evs = flat_map payload (snd (Relay.run es r)) ->
  let w := fst (Worker.run evs (Worker.initial t0)) in
  0 <= Perf.lastInteractionTime (Worker.perf w)
  /\ (length (Perf.interactionDelays (Worker.perf w)) <= 30)%nat
  /\ delay_measured clk (Worker.perf w) (Worker.perf (fst (Worker.animate clk w))).
Proof.
  intros Hes Hevs w.
  assert (Hok : Forall worker_clock_ok evs).
  { apply stamps_ok_events. rewrite Hevs. apply relay_stamp_ok, Hes. }
  pose proof (worker_perf_ok t0 evs Hok) as Hp. fold w in Hp.
  destruct (Hp) as (H0 & H30 & _).
  split; [exact H0|]. split; [exact H30|].
  destruct (worker_animate_perf clk w) as [E _]. rewrite E.
  apply delay_measured_frame, Hp.
Qed.

Lemma sampleDom_clock_ok : Forall dom_clock_ok sampleDom.
Proof.
  unfold sampleDom.
  repeat (constructor; [simpl; try exact I; try (unfold Qle; simpl; lia)|]).
  constructor.
Qed.

Lemma X3_relayed_stamps_are_measured_witness :
  Forall dom_clock_ok sampleDom
  /\ interactions_of sampleDelivery
     = flat_map payload (snd (Relay.run sampleDom Relay.initial))
  /\ 0 <= Perf.lastInteractionTime
            (Worker.perf (fst (@Worker.run taylorMath sampleDelivery (Worker.initial 0))))
  /\ delay_measured (frameAt 2008 4)
       (Worker.perf (fst (@Worker.run taylorMath sampleDelivery (Worker.initial 0))))
       (Worker.perf
          (fst (@Worker.animate taylorMath (frameAt 2008 4)
                  (fst (@Worker.run taylorMath sampleDelivery (Worker.initial 0)))))).
Proof.
  assert (H2 : interactions_of sampleDelivery
               = flat_map payload (snd (Relay.run sampleDom Relay.initial)))
    by reflexivity.
  split; [exact sampleDom_clock_ok|]. split; [exact H2|].
  destruct (@X3_relayed_stamps_are_measured taylorMath 0 sampleDom Relay.initial
              sampleDelivery (frameAt 2008 4) sampleDom_clock_ok H2)
    as (A & _ & C).
  split; [exact A|exact C].
Defined.

Lemma handleInteraction_stamp (d : Interaction) (w : Worker.t) :
  let p := Worker.perf w in
  let p' := Worker.perf (Worker.handleInteraction d w) in
  Perf.lastInteractionTime p'
  = match stamp_of d with Some ts => ts | None => Perf.lastInteractionTime p end
  /\ Perf.interactionDelays p' = Perf.interactionDelays p
  /\ Perf.interactionDelay p' = Perf.interactionDelay p.
Proof.
  destruct d as [[ts|]|dX dY| |delta [ts|]]; cbn;
    try (destruct (Qeq_bool ts 0); cbn);
    try (destruct (Worker.isDragging w); cbn); repeat split.
Qed.

Lemma handleAll_stamp (ds : list Interaction) (w : Worker.t) :
  let p := Worker.perf w in
  let p' := Worker.perf (handleAll ds w) in
  Perf.lastInteractionTime p' = latest_stamp ds (Perf.lastInteractionTime p)
  /\ Perf.interactionDelays p' = Perf.interactionDelays p
  /\ Perf.interactionDelay p' = Perf.interactionDelay p.
Proof.
  revert w. induction ds as [|d ds IH]; intros w; [repeat split|].
  cbn [handleAll fold_left latest_stamp].
  destruct (handleInteraction_stamp d w) as (A & B & C).
  destruct (IH (Worker.handleInteraction d w)) as (A' & B' & C').
  unfold handleAll in A', B', C'. cbv zeta.
  rewrite A', B', C', A, B, C. repeat split.
Qed.

Lemma run_deliver {M : MathLib} (env : Worker.Env) (ds : list Interaction)
      (w : Worker.t) :
  Worker.run (deliver env ds) w = (handleAll ds w, []).
Proof.
  revert w. induction ds as [|d ds IH]; intros w; [reflexivity|].
  cbn [deliver map Worker.run Worker.step Worker.onmessage].
  fold (deliver env ds). rewrite IH. reflexivity.
Qed.

(** X4.  One sample per frame, from the latest stamp: however many
    interaction messages arrive between two frames, they post nothing
    and only overwrite the pending timestamp; the next frame appends a
    single delay, measured from the last timestamp stored (the earlier
    ones are never measured), or none if nothing positive is pending. *)
Theorem X4_one_sample_from_latest_stamp {M : MathLib} (env : Worker.Env)
    (ds : list Interaction) (w : Worker.t) (clk : FrameClock) :
  let w1 := fst (Worker.run (deliver env ds) w) in
  let ts := latest_stamp ds (Perf.lastInteractionTime (Worker.perf w)) in
  let p' := Worker.perf (fst (Worker.animate clk w1)) in
  snd (Worker.run (deliver env ds) w) = []
  /\ Perf.lastInteractionTime (Worker.perf w1) = ts
  /\ Perf.interactionDelays (Worker.perf w1) = Perf.interactionDelays (Worker.perf w)
  /\ Perf.interactionDelays p'
     = (if Qlt_le_dec 0 ts
        then push_bounded 30 (dateNow clk - ts) (Perf.interactionDelays (Worker.perf w))
        else Perf.interactionDelays (Worker.perf w))
  /\ Perf.lastInteractionTime p' = (if Qlt_le_dec 0 ts then 0 else ts).
Proof.
  intros w1 ts p'. subst w1 p'. rewrite run_deliver. cbn [fst snd].
  destruct (handleAll_stamp ds w) as (A & B & C). fold ts in A.
  split; [reflexivity|]. split; [exact A|]. split; [exact B|].
  destruct (worker_animate_perf clk (handleAll ds w)) as [E _]. rewrite E.
  destruct (perf_after_frame_interaction clk (Worker.perf (handleAll ds w)))
    as (F1 & _ & F3).
  rewrite F1, F3.
  destruct (Qlt_le_dec 0 ts) as [Hpos|Hneg].
  - rewrite <- A in Hpos.
    destruct (measureInteraction_pending (dateNow clk) _ Hpos) as (G1 & _ & G3).
    rewrite G1, G3, A, B. split; reflexivity.
  - rewrite <- A in Hneg.
    rewrite (measureInteraction_idle (dateNow clk) _ Hneg), A, B.
    split; reflexivity.
Qed.

(** X5.  The first latency sample: when a message stamped [T] (a [zoom]
    here) reaches a worker whose delay buffer is empty, the next frame
    reports the interaction delay [Date.now() - T] read at that frame,
    and the buffer holds that one sample. *)
Theorem X5_first_sample_is_the_delay {M : MathLib} (env : Worker.Env)
    (delta T : Q) (w : Worker.t) (clk : FrameClock) :
  0 < T ->
  Perf.interactionDelays (Worker.perf w) = [] ->
  let w1 := fst (Worker.onmessage (MsgInteraction (ActionZoom delta (Some T))) env w) in
  let p' := Worker.perf (fst (Worker.animate clk w1)) in
  Perf.interactionDelays p' = [dateNow clk - T]
  /\ Perf.interactionDelay p' == dateNow clk - T
  /\ Perf.lastInteractionTime p' = 0.
Proof.
  intros HT Hempty w1 p'.
  assert (Hstamp : Perf.lastInteractionTime (Worker.perf w1) = T
                   /\ Perf.interactionDelays (Worker.perf w1) = []).
  { unfold w1. cbn. destruct (Qeq_bool T 0) eqn:E.
    - apply Qeq_bool_iff in E. lra.
    - cbn. split; [reflexivity|exact Hempty]. }
  destruct Hstamp as [Hl Hd].
  subst p'. destruct (worker_animate_perf clk w1) as [E _]. rewrite E.
  destruct (perf_after_frame_interaction clk (Worker.perf w1)) as (F1 & F2 & F3).
  rewrite F1, F2, F3.
  assert (Hpos : 0 < Perf.lastInteractionTime (Worker.perf w1)) by (rewrite Hl; exact HT).
  destruct (measureInteraction_pending (dateNow clk) _ Hpos) as (G1 & G2 & G3).
  rewrite G1, G2, G3, Hl, Hd. cbn [push_bounded app length Nat.ltb Nat.leb].
  split; [reflexivity|]. split; [|reflexivity].
  unfold mean, sum. cbn [fold_left length]. field.
Qed.

Lemma X5_first_sample_is_the_delay_witness :
  0 < 5000
  /\ Perf.interactionDelays (Worker.perf windowWorker) = []
  /\ Perf.interactionDelay
       (Worker.perf
          (fst (@Worker.animate taylorMath (frameAt 5012 4)
                  (fst (@Worker.onmessage taylorMath
                          (MsgInteraction (ActionZoom 100 (Some 5000)))
                          (Worker.mkEnv (fun _ => 1 # 2) (frameAt 0 5))
                          windowWorker)))))
     == 5012 - 5000.
Proof.
  assert (H1 : 0 < 5000) by reflexivity.
  assert (H2 : Perf.interactionDelays (Worker.perf windowWorker) = [])
    by (vm_compute; reflexivity).
  split; [exact H1|]. split; [exact H2|].
  destruct (@X5_first_sample_is_the_delay taylorMath
              (Worker.mkEnv (fun _ => 1 # 2) (frameAt 0 5)) 100 5000
              windowWorker (frameAt 5012 4) H1 H2) as (_ & A & _).
  exact A.
Defined.

(** ** Rebuilding the scene *)



(** ** What the buffers and counters hold *)

Lemma skipn_S_tl {A : Type} (k : nat) (l : list A) :
  skipn (S k) l = tl (skipn k l).
Proof.
  revert l. induction k as [|k IH]; intros l.
  - destruct l; reflexivity.
  - destruct l as [|a l]; [reflexivity|].
    change (skipn (S (S k)) (a :: l)) with (skipn (S k) l).
    change (skipn (S k) (a :: l)) with (skipn k l). apply IH.
Qed.

(** Pushing into a buffer that holds the last [n] of a history gives the
    last [n] of the longer history. *)
Lemma push_bounded_lastn (n : nat) (v : Q) (l : list Q) :
  push_bounded n v (lastn n l) = lastn n (l ++ [v]).
Proof.
  unfold lastn. rewrite length_app. cbn [length].
  destruct (Nat.le_gt_cases n (length l)) as [Hge|Hlt].
  - rewrite push_bounded_full by (rewrite length_skipn; lia).
    replace (length l + 1 - n)%nat with (S (length l - n)) by lia.
    rewrite skipn_S_tl, skipn_app.
    replace (length l - n - length l)%nat with 0%nat by lia.
    reflexivity.
  - replace (length l - n)%nat with 0%nat by lia.
    replace (length l + 1 - n)%nat with 0%nat by lia.
    cbn [skipn]. apply push_bounded_room. exact Hlt.
Qed.

Section HistoryOfTheWorker.
Context {M : MathLib}.

(** An event that runs no frame changes no counter but the pending
    timestamp. *)
Lemma step_idle_fields (e : Worker.Event) (w : Worker.t) :
  worker_frame_of e w = None ->
  let p := Worker.perf w in
  let p' := Worker.perf (fst (Worker.step e w)) in
  Perf.lastTime p' = Perf.lastTime p
  /\ Perf.frames p' = Perf.frames p
  /\ Perf.frameTimes p' = Perf.frameTimes p
  /\ Perf.droppedFrames p' = Perf.droppedFrames p
  /\ Perf.maxDelay p' = Perf.maxDelay p
  /\ Perf.interactionDelay p' = Perf.interactionDelay p
  /\ Perf.interactionDelays p' = Perf.interactionDelays p
  /\ snd (Worker.step e w) = None.
Proof.
  intros Hf. destruct e as [m env|clk].
  - destruct m as [wd ht pr cnt|wd ht|cnt|data|]; cbn [worker_frame_of] in Hf;
      try discriminate Hf; cbn [Worker.step Worker.onmessage fst snd].
    + destruct (Worker.camera w); repeat split.
    + unfold Worker.createScene. cbn [Worker.scene Worker.set_objectCount].
      destruct (Worker.scene w); repeat split.
    + destruct data as [[ts|]|dX dY| |delta [ts|]]; cbn;
        try (destruct (Qeq_bool ts 0); cbn);
        try (destruct (Worker.isDragging w); cbn); repeat split.
    + repeat split.
  - cbn [worker_frame_of] in Hf. cbn [Worker.step].
    destruct (Worker.camera w); [discriminate Hf|repeat split].
Qed.

(** The frame-time buffer holds the durations of the last 60 frames. *)
Lemma worker_frameTimes_history (evs : list Worker.Event) (w : Worker.t)
      (acc : list FrameClock) :
  Perf.frameTimes (Worker.perf w) = lastn 60 (map frameTime acc) ->
  Perf.frameTimes (Worker.perf (fst (Worker.run evs w)))
  = lastn 60 (map frameTime (worker_window evs w acc)).
Proof.
  revert w acc. induction evs as [|e evs IH]; intros w acc H; [exact H|].
  cbn [Worker.run worker_window].
  pose proof (step_frame e w) as Hs.
  pose proof (step_idle_fields e w) as Hi.
  destruct (Worker.step e w) as [w1 out]. cbn [fst snd] in *.
  specialize (IH w1 (add_frame acc (worker_frame_of e w))).
  destruct (Worker.run evs w1) as [w2 outs]. cbn [fst] in *.
  apply IH.
  destruct (worker_frame_of e w) as [clk|]; cbn [add_frame].
  - destruct Hs as [Hp _]. rewrite Hp, perf_after_frame_frameTimes, H.
    rewrite map_app. cbn [map]. apply push_bounded_lastn.
  - destruct (Hi eq_refl) as (_ & _ & Hft & _). rewrite Hft. exact H.
Qed.
End HistoryOfTheWorker.

(** X7.  The frame-time buffer is a sliding window over the whole life
    of the worker: after any sequence of events it holds the durations
    of the last 60 frames run since start-up, oldest first (all of them
    while fewer than 60 were run); snapshots do not restart it. *)
Theorem X7_frameTimes_are_the_last_60 {M : MathLib} (t0 : Q)
    (evs : list Worker.Event) :
  let w0 := Worker.initial t0 in
  Perf.frameTimes (Worker.perf (fst (Worker.run evs w0)))
  = lastn 60 (map frameTime (worker_window evs w0 []))
  /\ ((length (worker_window evs w0 []) <= 60)%nat ->
      Perf.frameTimes (Worker.perf (fst (Worker.run evs w0)))
      = map frameTime (worker_window evs w0 [])).
Proof.
  intros w0.
  assert (H : Perf.frameTimes (Worker.perf (fst (Worker.run evs w0)))
              = lastn 60 (map frameTime (worker_window evs w0 []))).
  { apply worker_frameTimes_history. reflexivity. }
  split; [exact H|]. intros Hlen. rewrite H. unfold lastn.
  rewrite length_map.
  replace (length (worker_window evs w0 []) - 60)%nat with 0%nat by lia.
  reflexivity.
Qed.

Lemma X7_frameTimes_are_the_last_60_witness :
  (length (@worker_window taylorMath (windowEvents ++ [windowClose])
             (Worker.initial 0) []) <= 60)%nat
  /\ Perf.frameTimes
       (Worker.perf
          (fst (@Worker.run taylorMath (windowEvents ++ [windowClose])
                  (Worker.initial 0))))
     = [0 + 5 - 0; 300 + 20 - 300; 600 + 18 - 600; 990 + 20 - 990].
Proof.
  assert (H : (length (@worker_window taylorMath (windowEvents ++ [windowClose])
                         (Worker.initial 0) []) <= 60)%nat)
    by (vm_compute; lia).
  split; [exact H|].
  rewrite (proj2 (@X7_frameTimes_are_the_last_60 taylorMath 0
                    (windowEvents ++ [windowClose])) H).
  reflexivity.
Defined.

Lemma longest_app (a : list FrameClock) (c : FrameClock) :
  longest (a ++ [c]) = Qmax (longest a) (frameTime c).
Proof. unfold longest. rewrite map_app, fold_left_app. reflexivity. Qed.

Lemma Qmax_cases (a b : Q) : Qmax a b = a \/ Qmax a b = b.
Proof.
  unfold Qmax, GenericMinMax.gmax. destruct (a ?= b); auto.
Qed.

Lemma fold_Qmax_bounds (l : list Q) (a : Q) :
  a <= fold_left Qmax l a
  /\ (forall v, In v l -> v <= fold_left Qmax l a)
  /\ In (fold_left Qmax l a) (a :: l).
Proof.
  revert a. induction l as [|b l IH]; intros a; cbn [fold_left].
  - split; [lra|]. split; [intros v []|left; reflexivity].
  - destruct (IH (Qmax a b)) as (H1 & H2 & H3).
    pose proof (Q.le_max_l a b) as Ha. pose proof (Q.le_max_r a b) as Hb.
    split; [lra|]. split.
    + intros v [Hv|Hv]; [subst v; lra|apply H2, Hv].
    + destruct H3 as [H3|H3].
      * destruct (Qmax_cases a b) as [E|E]; rewrite E in H3 |- *.
        -- left. exact H3.
        -- right. left. exact H3.
      * right. right. exact H3.
Qed.

(** One frame that posts nothing: the counters it leaves. *)
Lemma perf_after_frame_quiet (clk : FrameClock) (p : Perf.t) :
  snd (perf_after_frame clk p) = None ->
  let p' := fst (perf_after_frame clk p) in
  Perf.frames p' = S (Perf.frames p)
  /\ Perf.maxDelay p' = Qmax (Perf.maxDelay p) (frameTime clk)
  /\ Perf.lastTime p' = Perf.lastTime p.
Proof.
  destruct (measureInteraction_counters (dateNow clk) p) as (_ & Hf & Hm & _ & Hl).
  unfold perf_after_frame, Perf.emitStats.
  destruct (Perf.due _ _); [discriminate|].
  intros _. unfold perf_before_stats. cbn. rewrite Hf, Hm, Hl. repeat split.
Qed.

Section WindowCountersOfTheWorker.
Context {M : MathLib}.

(** While nothing is posted, the maximum delay is the longest frame of
    the window, the frame counter counts the window and [lastTime]
    stays. *)
Lemma worker_window_maxDelay (evs : list Worker.Event) (w : Worker.t)
      (acc : list FrameClock) :
  snd (Worker.run evs w) = [] ->
  Perf.maxDelay (Worker.perf w) = longest acc ->
  Perf.maxDelay (Worker.perf (fst (Worker.run evs w)))
  = longest (worker_window evs w acc).
Proof.
  revert w acc. induction evs as [|e evs IH]; intros w acc Hq Hm; [exact Hm|].
  cbn [Worker.run worker_window] in *.
  pose proof (step_frame e w) as Hs.
  pose proof (step_idle_fields e w) as Hi.
  destruct (Worker.step e w) as [w1 out]. cbn [fst snd] in *.
  specialize (IH w1 (add_frame acc (worker_frame_of e w))).
  destruct (Worker.run evs w1) as [w2 outs]. cbn [fst snd] in *.
  destruct out as [s|]; [discriminate Hq|].
  apply IH; [exact Hq|].
  destruct (worker_frame_of e w) as [clk|]; cbn [add_frame].
  - destruct Hs as [Hp Ho].
    destruct (perf_after_frame_quiet clk (Worker.perf w) (eq_sym Ho))
      as (_ & B & _).
    rewrite Hp, B, longest_app, Hm. reflexivity.
  - destruct (Hi eq_refl) as (_ & _ & _ & _ & C & _).
    rewrite C. exact Hm.
Qed.

Lemma worker_window_frames (evs : list Worker.Event) (w : Worker.t)
      (acc : list FrameClock) :
  snd (Worker.run evs w) = [] ->
  Perf.frames (Worker.perf w) = length acc ->
  Perf.frames (Worker.perf (fst (Worker.run evs w)))
  = length (worker_window evs w acc)
  /\ Perf.lastTime (Worker.perf (fst (Worker.run evs w)))
     = Perf.lastTime (Worker.perf w).
Proof.
  revert w acc. induction evs as [|e evs IH]; intros w acc Hq Hf.
  - split; [exact Hf|reflexivity].
  - cbn [Worker.run worker_window] in *.
    pose proof (step_frame e w) as Hs.
    pose proof (step_idle_fields e w) as Hi.
    destruct (Worker.step e w) as [w1 out]. cbn [fst snd] in *.
    specialize (IH w1 (add_frame acc (worker_frame_of e w))).
    destruct (Worker.run evs w1) as [w2 outs]. cbn [fst snd] in *.
    destruct out as [s|]; [discriminate Hq|].
    assert (Hstep : Perf.frames (Worker.perf w1)
                    = length (add_frame acc (worker_frame_of e w))
                    /\ Perf.lastTime (Worker.perf w1) = Perf.lastTime (Worker.perf w)).
    { destruct (worker_frame_of e w) as [clk|]; cbn [add_frame].
      - destruct Hs as [Hp Ho].
        destruct (perf_after_frame_quiet clk (Worker.perf w) (eq_sym Ho))
          as (A & _ & C).
        rewrite Hp, A, C, length_app, Hf. cbn [length]. split; [lia|reflexivity].
      - destruct (Hi eq_refl) as (A & B & _).
        rewrite A, B. split; [exact Hf|reflexivity]. }
    destruct Hstep as (A & C).
    destruct (IH Hq A) as (A' & C').
    rewrite A', C', C. split; reflexivity.
Qed.
End WindowCountersOfTheWorker.

(** X8.  The maximum delay of a snapshot is the longest frame of its
    window, whether or not that frame was over the target: for a window
    that starts with the tracker at 0 and ends with the event that posts
    [m], [maxDelay] is [toFixed(2)] of the largest frame duration of the
    window (0 if none is positive), and the tracker is 0 afterwards. *)
Theorem X8_maxDelay_is_the_longest_frame {M : MathLib} (w : Worker.t)
    (evs : list Worker.Event) (e : Worker.Event) (m : Stats.t) :
  Perf.maxDelay (Worker.perf w) = 0 ->
  snd (Worker.run evs w) = [] ->
  snd (Worker.step e (fst (Worker.run evs w))) = Some m ->
  let win := worker_window (evs ++ [e]) w [] in
  Stats.maxDelay m = JString (toFixed2 (longest win))
  /\ (forall c, In c win -> frameTime c <= longest win)
  /\ In (longest win) (0 :: map frameTime win)
  /\ Perf.maxDelay (Worker.perf (fst (Worker.step e (fst (Worker.run evs w))))) = 0.
Proof.
  intros H0 Hq He win.
  destruct (fold_Qmax_bounds (map frameTime win) 0) as (_ & Hall & Hin).
  pose proof (worker_window_maxDelay evs w [] Hq H0) as Hmax.
  assert (Hwin : win = add_frame (worker_window evs w [])
                         (worker_frame_of e (fst (Worker.run evs w)))).
  { unfold win. rewrite worker_window_app. reflexivity. }
  set (w1 := fst (Worker.run evs w)) in *.
  pose proof (step_frame e w1) as Hs.
  destruct (worker_frame_of e w1) as [clk|].
  - destruct Hs as [Hp Ho]. rewrite Ho in He.
    destruct (perf_after_frame_emits clk (Worker.perf w1) m He) as (_ & _ & Es & Er).
    destruct (measureInteraction_counters (dateNow clk) (Worker.perf w1))
      as (_ & _ & Hmx & _).
    split; [|split; [|split]].
    + rewrite Hwin. cbn [add_frame]. rewrite longest_app, <- Hmax, Es.
      unfold perf_before_stats.
      cbn [Stats.maxDelay Perf.snapshot Perf.maxDelay Perf.recordFrame].
      rewrite Hmx. reflexivity.
    + intros c Hc. apply Hall, in_map, Hc.
    + exact Hin.
    + rewrite Hp, Er. reflexivity.
  - destruct Hs as (_ & _ & Hn). rewrite Hn in He. discriminate He.
Qed.

Lemma X8_maxDelay_is_the_longest_frame_witness :
  exists m : Stats.t,
    Perf.maxDelay (Worker.perf (Worker.initial 0)) = 0
    /\ snd (@Worker.run taylorMath windowEvents (Worker.initial 0)) = []
    /\ snd (@Worker.step taylorMath windowClose
              (fst (@Worker.run taylorMath windowEvents (Worker.initial 0))))
       = Some m
    /\ Stats.maxDelay m = JString "20.00".
Proof.
  destruct (snd (@Worker.step taylorMath windowClose
                   (fst (@Worker.run taylorMath windowEvents (Worker.initial 0)))))
    as [m|] eqn:E; [|vm_compute in E; discriminate E].
  exists m.
  assert (H0 : Perf.maxDelay (Worker.perf (Worker.initial 0)) = 0) by reflexivity.
  assert (Hq : snd (@Worker.run taylorMath windowEvents (Worker.initial 0)) = [])
    by (vm_compute; reflexivity).
  split; [exact H0|]. split; [exact Hq|]. split; [reflexivity|].
  destruct (@X8_maxDelay_is_the_longest_frame taylorMath (Worker.initial 0)
              windowEvents windowClose m H0 Hq E) as (A & _).
  rewrite A. vm_compute. reflexivity.
Defined.

Lemma Math_round_between (q : Q) (n : Z) :
  0 <= q -> q <= inject_Z n -> (0 <= Math_round q <= n)%Z.
Proof.
  intros H0 Hn. unfold Math_round. split.
  - change 0%Z with (Qfloor 0). apply Qfloor_resp_le. lra.
  - assert (H : (Qfloor (q + (1 # 2)) < n + 1)%Z).
    { rewrite Zlt_Qlt. eapply Qle_lt_trans; [apply Qfloor_le|].
      rewrite inject_Z_plus. change (inject_Z 1) with 1. lra. }
    lia.
Qed.

(** X9.  The frame rate of a snapshot counts the window: for a window
    that starts with the frame counter at 0 and ends with the frame
    that posts [m], at least 1000 ms lie between [lastTime] and the end
    of that frame, [fps] is [Math.round(n * 1000 / elapsed)] for the
    number [n] of frames the window ran, and so it is never negative and
    never more than [n]. *)
Theorem X9_fps_counts_the_window {M : MathLib} (w : Worker.t)
    (evs : list Worker.Event) (e : Worker.Event) (m : Stats.t) :
  Perf.frames (Worker.perf w) = 0%nat ->
  snd (Worker.run evs w) = [] ->
  snd (Worker.step e (fst (Worker.run evs w))) = Some m ->
  exists clk : FrameClock,
    worker_frame_of e (fst (Worker.run evs w)) = Some clk
    /\ let n := Z.of_nat (length (worker_window (evs ++ [e]) w [])) in
       let elapsed := now clk - Perf.lastTime (Worker.perf w) in
       let fps := Math_round (inject_Z n * 1000 / elapsed) in
       1000 <= elapsed
       /\ Stats.fps m = JNumber (inject_Z fps)
       /\ (0 <= fps <= n)%Z.
Proof.
  intros H0 Hq He.
  destruct (worker_window_frames evs w [] Hq H0) as [Hf Hl].
  assert (Hwin : worker_window (evs ++ [e]) w []
                 = add_frame (worker_window evs w [])
                     (worker_frame_of e (fst (Worker.run evs w)))).
  { rewrite worker_window_app. reflexivity. }
  set (w1 := fst (Worker.run evs w)) in *.
  pose proof (step_frame e w1) as Hs.
  destruct (worker_frame_of e w1) as [clk|].
  - exists clk. split; [reflexivity|].
    destruct Hs as [Hp Ho]. rewrite Ho in He.
    destruct (perf_after_frame_emits clk (Worker.perf w1) m He) as (Hel & _ & Es & _).
    destruct (measureInteraction_counters (dateNow clk) (Worker.perf w1))
      as (_ & Hfr & _ & _ & Hlt).
    rewrite Hwin. cbn [add_frame]. rewrite length_app. cbn [length].
    rewrite <- Hf, <- Hl.
    replace (Z.of_nat (Perf.frames (Worker.perf w1) + 1))
      with (Z.of_nat (S (Perf.frames (Worker.perf w1)))) by lia.
    cbv zeta.
    set (n := Z.of_nat (S (Perf.frames (Worker.perf w1)))).
    set (elapsed := now clk - Perf.lastTime (Worker.perf w1)).
    assert (He1 : 1000 <= elapsed) by (unfold elapsed; lra).
    split; [exact He1|]. split.
    + rewrite Es. unfold perf_before_stats, Perf.snapshot, Perf.computeFps.
      cbn [Stats.fps Perf.frames Perf.lastTime Perf.recordFrame].
      rewrite Hfr, Hlt. reflexivity.
    + assert (Hn : 0 <= inject_Z n).
      { change 0 with (inject_Z 0). rewrite <- Zle_Qle. unfold n. lia. }
      apply Math_round_between.
      * apply Qle_shift_div_l; [lra|]. nra.
      * apply Qle_shift_div_r; [lra|]. nra.
  - destruct Hs as (_ & _ & Hn). rewrite Hn in He. discriminate He.
Qed.

Lemma X9_fps_counts_the_window_witness :
  exists m : Stats.t,
    Perf.frames (Worker.perf (Worker.initial 0)) = 0%nat
    /\ snd (@Worker.run taylorMath windowEvents (Worker.initial 0)) = []
    /\ snd (@Worker.step taylorMath windowClose
              (fst (@Worker.run taylorMath windowEvents (Worker.initial 0))))
       = Some m
    /\ Stats.fps m = JNumber (inject_Z (Math_round (inject_Z 4 * 1000 / (1010 - 0)))).
Proof.
  destruct (snd (@Worker.step taylorMath windowClose
                   (fst (@Worker.run taylorMath windowEvents (Worker.initial 0)))))
    as [m|] eqn:E; [|vm_compute in E; discriminate E].
  exists m.
  assert (H0 : Perf.frames (Worker.perf (Worker.initial 0)) = 0%nat) by reflexivity.
  assert (Hq : snd (@Worker.run taylorMath windowEvents (Worker.initial 0)) = [])
    by (vm_compute; reflexivity).
  split; [exact H0|]. split; [exact Hq|]. split; [reflexivity|].
  destruct (@X9_fps_counts_the_window taylorMath (Worker.initial 0)
              windowEvents windowClose m H0 Hq E) as (clk & Hc & _ & A & _).
  vm_compute in Hc. inversion Hc; subst clk. exact A.
Defined.

(** ** Where the objects can be *)

Lemma createCubes_Forall (P : Mesh -> Prop) (n : nat) (rand : nat -> Q) :
  (forall r, random_ok r -> P (newCube r)) ->
  random_ok rand -> Forall P (createCubes n rand).
Proof.
  intros HP. revert rand. induction n as [|n IH]; intros rand Hr; simpl.
  - constructor.
  - constructor; [apply HP, Hr|]. apply IH. intros i. apply Hr.
Qed.

Lemma updateObjects_Forall (P : Mesh -> Prop) (objs : list Mesh) :
  (forall o, P o -> P (updateObject o)) ->
  Forall P objs -> Forall P (updateObjects objs).
Proof.
  intros HP H. unfold updateObjects. induction H as [|o l Ho Hl IH]; simpl;
    constructor; auto.
Qed.

(** A property that new cubes have and frames keep holds for every
    object of the worker and of the component. *)
Lemma worker_objects_Forall {M : MathLib} (P : Mesh -> Prop) (t0 : Q)
      (evs : list Worker.Event) :
  (forall r, random_ok r -> P (newCube r)) ->
  (forall o, P o -> P (updateObject o)) ->
  Forall worker_random_ok evs ->
  Forall P (Worker.objects (fst (Worker.run evs (Worker.initial t0)))).
Proof.
  intros Hnew Hupd Hok.
  apply (run_invariant_when worker_random_ok
           (fun w => Forall P (Worker.objects w))); [|exact Hok|constructor].
  intros e w He Hw. destruct e as [m env|clk]; simpl in *.
  - destruct m as [wd ht pr cnt|wd ht|cnt|data|]; simpl.
    + rewrite animate_objects, createScene_objects. simpl.
      apply updateObjects_Forall; [exact Hupd|].
      apply createCubes_Forall; assumption.
    + destruct (Worker.camera w); exact Hw.
    + rewrite createScene_objects. simpl.
      destruct (Worker.scene w); [apply createCubes_Forall; assumption|exact Hw].
    + destruct (handleInteraction_objects data w) as [H _]. rewrite H. exact Hw.
    + exact Hw.
  - destruct (Worker.camera w); [|exact Hw].
    rewrite animate_objects. apply updateObjects_Forall; assumption.
Qed.

Lemma main_objects_Forall (P : Mesh -> Prop) (t0 : Q)
      (evs : list MainThread.Event) :
  (forall r, random_ok r -> P (newCube r)) ->
  (forall o, P o -> P (updateObject o)) ->
  Forall main_random_ok evs ->
  Forall P (MainThread.objects (fst (MainThread.run evs (MainThread.initial t0)))).
Proof.
  intros Hnew Hupd Hok.
  assert (Hframe : forall mode clk s,
             Forall P (MainThread.objects s) ->
             Forall P (MainThread.objects (fst (MainThread.animate mode clk s)))).
  { intros mode clk s Hs. destruct mode; try exact Hs.
    rewrite main_animate_objects. apply updateObjects_Forall; assumption. }
  assert (G : forall st,
             Forall P (MainThread.objects st) ->
             Forall P (MainThread.objects (fst (MainThread.run evs st)))).
  { induction Hok as [|e evs He Hrest IH]; intros st Hst; [exact Hst|].
    cbn [MainThread.run].
    assert (H1 : Forall P (MainThread.objects (fst (MainThread.step e st)))).
    { destruct e as [mode rand clk|dn|t1| |mode clk];
        cbn [MainThread.step fst main_random_ok] in *.
      - unfold MainThread.initMainThreadMode. apply Hframe.
        unfold MainThread.createScene.
        cbn [MainThread.sceneRef MainThread.objects].
        apply createCubes_Forall; assumption.
      - exact Hst.
      - exact Hst.
      - constructor.
      - apply Hframe, Hst. }
    destruct (MainThread.step e st) as [s1 out]. cbn [fst] in H1.
    specialize (IH s1 H1).
    destruct (MainThread.run evs s1) as [s2 outs]. exact IH. }
  apply G. constructor.
Qed.

Lemma Qabs_bounce (p v : Q) : Qabs (bounce p v) == Qabs v.
Proof.
  unfold bounce. destruct (Qlt_le_dec boundary (Math_abs p)); [|reflexivity].
  assert (E : v * -1 == - v) by ring.
  rewrite E. apply Qabs_opp.
Qed.

Lemma newCube_contained (a : Axis) (rand : nat -> Q) :
  random_ok rand -> contained a (newCube rand).
Proof.
  intros Hr. pose proof (newCube_returning a rand Hr) as Hret.
  pose proof (Hr 1%nat) as H1. pose proof (Hr 2%nat) as H2.
  pose proof (Hr 3%nat) as H3. pose proof (Hr 4%nat) as H4.
  pose proof (Hr 5%nat) as H5. pose proof (Hr 6%nat) as H6.
  unfold contained, boundary. split; [|split; [|exact Hret]].
  - destruct a; cbn [vel newCube velocity Velocity.x Velocity.y Velocity.z];
      apply Qabs_Qle_condition; lra.
  - destruct a; cbn [pos newCube position Vec3.x Vec3.y Vec3.z];
      apply Qabs_Qle_condition; lra.
Qed.

Lemma updateObject_contained (a : Axis) (o : Mesh) :
  contained a o -> contained a (updateObject o).
Proof.
  intros (Hv & Hp & Hret). unfold contained.
  destruct (updateObject_axis a o) as [Ep Ev].
  split; [|split; [|apply updateObject_returning, Hret]].
  - rewrite Ev, Qabs_bounce. exact Hv.
  - rewrite Ep. unfold boundary in *.
    destruct Hret as [Hin|Hin]; unfold boundary in Hin.
    + eapply Qle_trans; [apply Qabs_triangle|]. lra.
    + lra.
Qed.

(** X10.  The cubes stay in the box: under the contract of
    [Math.random()], every object of the worker and of the component
    has, on each axis and after any sequence of events, a speed of at
    most 0.01 per frame and a position of absolute value at most 25.01
    (one step beyond the boundary of 25). *)
Theorem X10_objects_stay_in_the_box {M : MathLib} (t0 : Q)
    (wevs : list Worker.Event) (mevs : list MainThread.Event)
    (o : Mesh) (a : Axis) :
  Forall worker_random_ok wevs ->
  Forall main_random_ok mevs ->
  In o (Worker.objects (fst (Worker.run wevs (Worker.initial t0))))
  \/ In o (MainThread.objects (fst (MainThread.run mevs (MainThread.initial t0)))) ->
  Qabs (vel a o) <= 1 # 100 /\ Qabs (pos a o) <= 2501 # 100.
Proof.
  intros Hw Hm Hin.
  assert (Hc : contained a o).
  { destruct Hin as [Hin|Hin].
    - pose proof (worker_objects_Forall (fun o => forall a, contained a o) t0 wevs
                    (fun r Hr a => newCube_contained a r Hr)
                    (fun o Ho a => updateObject_contained a o (Ho a)) Hw) as HF.
      rewrite Forall_forall in HF. apply (HF o Hin).
    - pose proof (main_objects_Forall (fun o => forall a, contained a o) t0 mevs
                    (fun r Hr a => newCube_contained a r Hr)
                    (fun o Ho a => updateObject_contained a o (Ho a)) Hm) as HF.
      rewrite Forall_forall in HF. apply (HF o Hin). }
  destruct Hc as (Hv & Hp & _). split; [exact Hv|].
  unfold boundary in Hp. lra.
Qed.

Lemma X10_objects_stay_in_the_box_witness :
  Forall worker_random_ok crossingEvents
  /\ Forall main_random_ok [MainThread.Cleanup]
  /\ exists o : Mesh,
       In o (Worker.objects
               (fst (@Worker.run taylorMath crossingEvents (Worker.initial 0))))
       /\ Qabs (vel AxisX o) <= 1 # 100
       /\ Qabs (pos AxisX o) <= 2501 # 100.
Proof.
  assert (Hw : Forall worker_random_ok crossingEvents).
  { constructor; [exact crossingRand_ok|constructor]. }
  assert (Hm : Forall main_random_ok [MainThread.Cleanup]).
  { repeat constructor. }
  split; [exact Hw|]. split; [exact Hm|].
  exists (hd (newCube crossingRand)
             (Worker.objects
                (fst (@Worker.run taylorMath crossingEvents (Worker.initial 0))))).
  assert (Hin : In (hd (newCube crossingRand)
                       (Worker.objects
                          (fst (@Worker.run taylorMath crossingEvents
                                  (Worker.initial 0)))))
                   (Worker.objects
                      (fst (@Worker.run taylorMath crossingEvents
                              (Worker.initial 0))))).
  { left. reflexivity. }
  split; [exact Hin|].
  exact (@X10_objects_stay_in_the_box taylorMath 0 crossingEvents
           [MainThread.Cleanup] _ AxisX Hw Hm (or_introl Hin)).
Defined.

Lemma afterFrames_S (n : nat) (o : Mesh) :
  afterFrames (S n) o = updateObject (afterFrames n o).
Proof. reflexivity. Qed.

Lemma updateObject_spin (a : Axis) (o : Mesh) :
  spin a (updateObject o) = spin a o
  /\ angle a (updateObject o) = angle a o + spin a o.
Proof. destruct a; split; reflexivity. Qed.

(** X11.  Frames never change an object's angular velocity nor the
    magnitude of its linear velocity, and they never wrap its rotation:
    after [n] frames the rotation about each axis is the rotation before
    plus [n] times the angular velocity. *)
Theorem X11_rotation_grows_linearly (n : nat) (o : Mesh) (a : Axis) :
  spin a (afterFrames n o) = spin a o
  /\ Qabs (vel a (afterFrames n o)) == Qabs (vel a o)
  /\ angle a (afterFrames n o) == angle a o + inject_Z (Z.of_nat n) * spin a o.
Proof.
  induction n as [|n (IHs & IHv & IHa)].
  - cbn. split; [reflexivity|]. split; [reflexivity|ring].
  - rewrite afterFrames_S.
    destruct (updateObject_spin a (afterFrames n o)) as [Es Ea].
    destruct (updateObject_axis a (afterFrames n o)) as [_ Ev].
    rewrite Es, Ea, Ev, Qabs_bounce, IHs, IHv, IHa, Nat2Z.inj_succ.
    unfold Z.succ. rewrite inject_Z_plus. change (inject_Z 1) with 1.
    split; [reflexivity|]. split; [reflexivity|ring].
Qed.

(** ** The lifecycle of the component *)

Lemma remove_single (id : nat) : remove Nat.eq_dec id [id] = [].
Proof. simpl. destruct (Nat.eq_dec id id) as [_|H]; [reflexivity|congruence]. Qed.

Lemma main_animate_refs (clk : FrameClock) (r : MainThread.t) :
  MainThread.sceneRef (fst (MainThread.animate MainThread.main clk r))
  = MainThread.sceneRef r.
Proof.
  unfold MainThread.animate. destruct (Perf.emitStats _ _). reflexivity.
Qed.

(** The cleanup of the effect releases everything the refs hold. *)
Lemma effectCleanup_releases (st : Demo.t) :
  Demo.contexts st = match Demo.workerRef st with Some id => [id] | None => [] end ->
  Demo.scheduled st
  = match Demo.animationFrameRef st with Some id => [id] | None => [] end ->
  let c := Demo.effectCleanup st in
  Demo.workerRef c = None /\ Demo.contexts c = []
  /\ Demo.animationFrameRef c = None /\ Demo.scheduled c = []
  /\ Demo.rendererRef c = false /\ Demo.controlsRef c = false
  /\ Demo.cameraRef c = false
  /\ MainThread.sceneRef (Demo.refs c) = None
  /\ MainThread.objects (Demo.refs c) = []
  /\ Demo.canvases c = Demo.canvases st
  /\ Demo.currentMode c = Demo.currentMode st.
Proof.
  intros Hc Hs. unfold Demo.effectCleanup, Demo.cleanupMainThread, Demo.cleanupWorker.
  destruct (Demo.workerRef st) as [id|] eqn:Ew;
    destruct (Demo.animationFrameRef st) as [fid|] eqn:Ef;
    cbn; rewrite ?Ew, ?Ef, ?Hc, ?Hs, ?remove_single; repeat split.
Qed.

(** On a state that holds nothing, the effect gives the mode what it
    needs and nothing else. *)
Lemma effect_on_released (env : Demo.Env) (st : Demo.t) :
  Demo.workerRef st = None -> Demo.contexts st = [] ->
  Demo.animationFrameRef st = None -> Demo.scheduled st = [] ->
  Demo.rendererRef st = false -> Demo.controlsRef st = false ->
  MainThread.sceneRef (Demo.refs st) = None ->
  MainThread.objects (Demo.refs st) = [] ->
  Demo.canvases st = 1%nat ->
  exclusive (fst (Demo.effect env st))
  /\ Demo.currentMode (fst (Demo.effect env st)) = Demo.currentMode st
  /\ (Demo.refsSet env = true -> equipped (fst (Demo.effect env st))).
Proof.
  intros Hw Hc Ha Hs Hr Ho Hsc Hob Hcv.
  unfold Demo.effect. destruct (Demo.currentMode st) eqn:Em.
  - (* none *)
    cbn [fst].
    assert (Hclean : Demo.cleanupMainThread (Demo.cleanupWorker st)
                     = Demo.effectCleanup st) by reflexivity.
    rewrite Hclean.
    destruct (effectCleanup_releases st) as (A1 & A2 & A3 & A4 & A5 & A6 & A7 & A8 & A9 & A10 & A11).
    { rewrite Hw. exact Hc. }
    { rewrite Ha. exact Hs. }
    remember (Demo.effectCleanup st) as c eqn:Hcdef. clear Hcdef Hclean.
    assert (Hshape : forall x : Demo.t,
               x = Demo.clearCanvas env c ->
               Demo.workerRef x = None /\ Demo.contexts x = []
               /\ Demo.animationFrameRef x = None /\ Demo.scheduled x = []
               /\ Demo.rendererRef x = false /\ Demo.controlsRef x = false
               /\ MainThread.sceneRef (Demo.refs x) = None
               /\ MainThread.objects (Demo.refs x) = []
               /\ Demo.canvases x = 1%nat
               /\ Demo.currentMode x = MainThread.none).
    { intros x Hx. subst x. unfold Demo.clearCanvas.
      rewrite Hcv in A10. rewrite A10.
      destruct (Demo.gl env); cbn;
        rewrite ?A1, ?A2, ?A3, ?A4, ?A5, ?A6, ?A8, ?A9, ?A10, ?A11, ?Em;
        repeat split; reflexivity. }
    destruct (Hshape _ eq_refl) as (B1 & B2 & B3 & B4 & B5 & B6 & B7 & B8 & B9 & B10).
    split; [|split].
    + unfold exclusive. rewrite B1, B2, B3, B4, B5, B6, B7, B9.
      repeat split; auto.
    + exact B10.
    + intros _. unfold equipped. rewrite B10. repeat split; assumption.
  - (* offscreen *)
    cbn [fst]. unfold Demo.initOffscreenMode, Demo.cleanupMainThread.
    rewrite Ha. destruct (Demo.refsSet env) eqn:Er.
    + split; [|split].
      * unfold exclusive. cbn. rewrite ?Hc, ?Hs, ?Hcv, ?Em. cbn.
        repeat split; auto.
      * cbn. exact Em.
      * intros _. unfold equipped. cbn. rewrite ?Hc, ?Em. cbn.
        eexists. split; reflexivity.
    + split; [|split].
      * unfold exclusive. cbn. rewrite ?Hw, ?Hc, ?Hs, ?Hcv. repeat split; auto.
      * cbn. exact Em.
      * intros H. discriminate H.
  - (* main *)
    unfold Demo.initMainThreadMode, Demo.cleanupWorker. rewrite Hw.
    destruct (Demo.refsSet env) eqn:Er.
    + unfold Demo.animate.
      cbn [Demo.refs Demo.requested Demo.scheduled Demo.currentMode
           Demo.workerRef Demo.contexts Demo.created Demo.rendererRef
           Demo.controlsRef Demo.cameraRef Demo.canvases].
      match goal with |- context [MainThread.animate MainThread.main ?c ?r] =>
        pose proof (main_animate_refs c r) as Hsr;
        destruct (MainThread.animate MainThread.main c r) as [r' out]
      end.
      cbn [fst] in *.
      assert (Hscene : MainThread.sceneRef r' = Some sceneLights).
      { rewrite Hsr. reflexivity. }
      split; [|split].
      * unfold exclusive. cbn. rewrite ?Hs, ?Hcv, ?Hw, ?Hc, ?Em. cbn.
        repeat split; auto.
      * cbn. exact Em.
      * intros _. unfold equipped. cbn. rewrite ?Em, ?Hs. cbn.
        repeat split; try assumption. eexists. reflexivity.
    + cbn [fst]. split; [|split].
      * unfold exclusive. rewrite Hw, Hc, Ha, Hs, Hr, Ho, Hsc, Hcv.
        repeat split; auto.
      * exact Em.
      * intros H. discriminate H.
Qed.

Lemma step_exclusive (e : Demo.Event) (st : Demo.t) :
  exclusive st ->
  exclusive (fst (Demo.step e st))
  /\ (demo_ready e -> equipped st -> equipped (fst (Demo.step e st))).
Proof.
  intros (Hc & Hs & Hw & Ha & Hr & Ho & Hsc & Hcv).
  destruct e as [env|clk|]; cbn [Demo.step demo_ready].
  - (* Toggle *)
    set (st1 := Demo.toggleRenderMode env st).
    destruct (effectCleanup_releases st1)
      as (A1 & A2 & A3 & A4 & A5 & A6 & _ & A8 & A9 & A10 & A11);
      [exact Hc|exact Hs|].
    assert (Hcv1 : Demo.canvases (Demo.effectCleanup st1) = 1%nat)
      by (rewrite A10; exact Hcv).
    destruct (effect_on_released env (Demo.effectCleanup st1)
                A1 A2 A3 A4 A5 A6 A8 A9 Hcv1) as (E1 & _ & E3).
    split; [exact E1|]. intros Hready _. apply E3, Hready.
  - (* Tick *)
    destruct (Demo.scheduled st) as [|id rest] eqn:Esch.
    + cbn [fst]. split; [|intros _ H; exact H].
      unfold exclusive. rewrite Esch. repeat split; assumption.
    + destruct (Demo.animationFrameRef st) as [fid|] eqn:Ef; [|discriminate Hs].
      inversion Hs; subst id rest.
      destruct Ha as [Ha|Hmode]; [discriminate Ha|].
      unfold Demo.animate.
      cbn [Demo.refs Demo.requested Demo.scheduled Demo.currentMode
           Demo.workerRef Demo.contexts Demo.created Demo.rendererRef
           Demo.controlsRef Demo.cameraRef Demo.canvases].
      pose proof (main_animate_refs clk (Demo.refs st)) as Hsr.
      destruct (MainThread.animate MainThread.main clk (Demo.refs st)) as [r' out].
      cbn [fst] in *. split.
      * unfold exclusive. cbn. rewrite Hmode.
        assert (Hw' : Demo.workerRef st = None)
          by (destruct Hw as [Hw|Hw]; [exact Hw|congruence]).
        repeat split; auto.
      * intros _. unfold equipped. cbn. rewrite Hmode.
        intros (B1 & B2 & B3 & _). rewrite Hsr.
        repeat split; try assumption. eexists. reflexivity.
  - (* Unmount *)
    cbn [fst].
    destruct (effectCleanup_releases st)
      as (A1 & A2 & A3 & A4 & A5 & A6 & _ & A8 & A9 & A10 & A11);
      [exact Hc|exact Hs|].
    split; [|intros []].
    unfold exclusive. rewrite A1, A2, A3, A4, A5, A6, A8, A10.
    repeat split; auto.
Qed.

Lemma mounted_exclusive (env : Demo.Env) (t0 : Q) :
  exclusive (Demo.mounted env t0)
  /\ Demo.currentMode (Demo.mounted env t0) = MainThread.none
  /\ (Demo.refsSet env = true -> equipped (Demo.mounted env t0)).
Proof.
  unfold Demo.mounted.
  apply (effect_on_released env (Demo.initial t0)); reflexivity.
Qed.

Lemma run_exclusive (evs : list Demo.Event) (st : Demo.t) :
  exclusive st -> exclusive (Demo.run evs st).
Proof.
  revert st. induction evs as [|e evs IH]; intros st H; [exact H|].
  cbn [Demo.run]. apply IH. apply (step_exclusive e st H).
Qed.

(** X12.  No two modes' resources coexist: after any sequence of
    clicks, frame callbacks and a removal of the mounted component, the
    background contexts alive are exactly the one [workerRef] holds (at
    most one, and none unless the mode is offscreen), the frame
    callbacks scheduled are exactly the one [animationFrameRef] holds
    (none unless the mode is main), renderer, controls and scene exist
    only in main mode, and the container holds one canvas. *)
Theorem X12_modes_do_not_share (env : Demo.Env) (t0 : Q)
    (evs : list Demo.Event) :
  let st := Demo.run evs (Demo.mounted env t0) in
  exclusive st /\ (length (Demo.contexts st) <= 1)%nat
  /\ (length (Demo.scheduled st) <= 1)%nat.
Proof.
  intros st.
  assert (H : exclusive st).
  { apply run_exclusive. apply mounted_exclusive. }
  split; [exact H|].
  destruct H as (Hc & Hs & _). rewrite Hc, Hs.
  destruct (Demo.workerRef st), (Demo.animationFrameRef st); cbn; lia.
Qed.

Lemma nextMode_cycle (m : MainThread.RenderMode) :
  Demo.nextMode (Demo.nextMode (Demo.nextMode m)) = m.
Proof. destruct m; reflexivity. Qed.

Lemma step_mode (e : Demo.Event) (st : Demo.t) :
  exclusive st ->
  Demo.currentMode (fst (Demo.step e st))
  = match e with
    | Demo.Toggle _ => Demo.nextMode (Demo.currentMode st)
    | _ => Demo.currentMode st
    end.
Proof.
  intros (Hc & Hs & Hw & Ha & Hr & Ho & Hsc & Hcv).
  destruct e as [env|clk|]; cbn [Demo.step].
  - set (st1 := Demo.toggleRenderMode env st).
    destruct (effectCleanup_releases st1)
      as (A1 & A2 & A3 & A4 & A5 & A6 & _ & A8 & A9 & A10 & A11);
      [exact Hc|exact Hs|].
    assert (Hcv1 : Demo.canvases (Demo.effectCleanup st1) = 1%nat)
      by (rewrite A10; exact Hcv).
    destruct (effect_on_released env (Demo.effectCleanup st1)
                A1 A2 A3 A4 A5 A6 A8 A9 Hcv1) as (_ & E2 & _).
    rewrite E2, A11. reflexivity.
  - destruct (Demo.scheduled st) as [|id rest]; [reflexivity|].
    unfold Demo.animate.
    destruct (MainThread.animate _ _ _) as [r' out]. reflexivity.
  - destruct (effectCleanup_releases st)
      as (_ & _ & _ & _ & _ & _ & _ & _ & _ & _ & A11);
      [exact Hc|exact Hs|].
    exact A11.
Qed.

(** X13.  Each mode gets what it needs: while the component is mounted
    (its refs set), after any clicks and frame callbacks the mode is the
    one reached from [none] by that many clicks (three clicks come back
    to the same mode); in offscreen mode exactly one background context
    is alive, in main mode renderer, controls, the lit scene and exactly
    one scheduled frame callback exist, and in mode none nothing is
    alive and no object is left. *)
Theorem X13_each_mode_is_equipped (env : Demo.Env) (t0 : Q)
    (evs : list Demo.Event) :
  Demo.refsSet env = true ->
  Forall demo_ready evs ->
  let st := Demo.run evs (Demo.mounted env t0) in
  equipped st
  /\ Demo.currentMode st = Nat.iter (toggles evs) Demo.nextMode MainThread.none
  /\ (forall m, Demo.nextMode (Demo.nextMode (Demo.nextMode m)) = m).
Proof.
  intros Henv Hev st.
  destruct (mounted_exclusive env t0) as (Hx & Hm & Hq).
  specialize (Hq Henv).
  assert (G : forall evs st0 k,
             Forall demo_ready evs -> exclusive st0 -> equipped st0 ->
             Demo.currentMode st0 = Nat.iter k Demo.nextMode MainThread.none ->
             equipped (Demo.run evs st0)
             /\ Demo.currentMode (Demo.run evs st0)
                = Nat.iter (toggles evs + k) Demo.nextMode MainThread.none).
  { clear. intros evs. induction evs as [|e evs IH]; intros st0 k Hr Hx Hq Hm.
    - split; [exact Hq|exact Hm].
    - inversion Hr as [|? ? He Hrest]; subst.
      cbn [Demo.run].
      destruct (step_exclusive e st0 Hx) as [Hx' Hq'].
      pose proof (step_mode e st0 Hx) as Hm'.
      destruct e as [env'|clk|]; [| |destruct He].
      + destruct (IH _ (S k) Hrest Hx' (Hq' He Hq)) as [R1 R2].
        { rewrite Hm', Hm. reflexivity. }
        split; [exact R1|]. rewrite R2. unfold toggles. cbn [filter length].
        f_equal. lia.
      + destruct (IH _ k Hrest Hx' (Hq' He Hq)) as [R1 R2].
        { rewrite Hm'. exact Hm. }
        split; [exact R1|]. rewrite R2. reflexivity. }
  destruct (G evs (Demo.mounted env t0) 0%nat Hev Hx Hq Hm) as [R1 R2].
  split; [exact R1|]. split; [|exact nextMode_cycle].
  unfold st. rewrite R2. f_equal. lia.
Qed.

Lemma sampleToggles_ready : Forall demo_ready sampleToggles.
Proof. unfold sampleToggles. repeat constructor. Qed.

Lemma X13_each_mode_is_equipped_witness :
  Demo.refsSet readyEnv = true
  /\ Forall demo_ready sampleToggles
  /\ equipped (Demo.run sampleToggles (Demo.mounted readyEnv 0))
  /\ Demo.currentMode (Demo.run sampleToggles (Demo.mounted readyEnv 0))
     = MainThread.none.
Proof.
  assert (H1 : Demo.refsSet readyEnv = true) by reflexivity.
  split; [exact H1|]. split; [exact sampleToggles_ready|].
  destruct (X13_each_mode_is_equipped readyEnv 0 sampleToggles H1 sampleToggles_ready)
    as (A & B & _).
  split; [exact A|]. rewrite B. reflexivity.
Defined.

(** X14.  Removal releases everything, whatever the mode was: after
    [Unmount] no background context is alive, no frame callback is
    scheduled and renderer, controls, scene and objects are gone; a
    frame callback that would still fire finds nothing to run. *)
Theorem X14_unmount_releases (env : Demo.Env) (t0 : Q)
    (evs : list Demo.Event) (clk : FrameClock) :
  let st := fst (Demo.step Demo.Unmount (Demo.run evs (Demo.mounted env t0))) in
  released st /\ Demo.step (Demo.Tick clk) st = (st, None).
Proof.
  intros st.
  assert (Hx : exclusive (Demo.run evs (Demo.mounted env t0))).
  { apply run_exclusive. apply mounted_exclusive. }
  destruct Hx as (Hc & Hs & _).
  destruct (effectCleanup_releases _ Hc Hs)
    as (A1 & A2 & A3 & A4 & A5 & A6 & _ & A8 & A9 & _).
  split.
  - unfold released, st. cbn [Demo.step fst]. repeat split; assumption.
  - unfold st. cbn [Demo.step fst]. rewrite A4. reflexivity.
Qed.

(** ** The indicators of the statistics panel *)

Lemma Qle_bool_false (a b : Q) : Qle_bool a b = false <-> b < a.
Proof.
  split; intros H.
  - apply Qnot_le_lt. intros Hle. apply Qle_bool_iff in Hle. congruence.
  - destruct (Qle_bool a b) eqn:E; [|reflexivity].
    apply Qle_bool_iff in E. exfalso. lra.
Qed.

Lemma getStatClass_cases (v t0 t1 : Q) :
  (getStatClass v (t0, t1) = statGood <-> v <= t0)
  /\ (getStatClass v (t0, t1) = statWarning <-> t0 < v /\ v <= t1)
  /\ (getStatClass v (t0, t1) = statBad <-> t0 < v /\ t1 < v).
Proof.
  unfold getStatClass. cbn [fst snd].
  destruct (Qle_bool v t0) eqn:E0.
  - apply Qle_bool_iff in E0.
    intuition (try discriminate; try reflexivity; try lra).
  - apply Qle_bool_false in E0.
    destruct (Qle_bool v t1) eqn:E1.
    + apply Qle_bool_iff in E1.
      intuition (try discriminate; try reflexivity; try lra).
    + apply Qle_bool_false in E1.
      intuition (try discriminate; try reflexivity; try lra).
Qed.

(** X15.  The indicator never improves when the value gets worse:
    whatever the two thresholds are, a larger value gets a class at
    least as bad; if the thresholds are given the wrong way round the
    warning class is never shown. *)
Theorem X15_getStatClass_monotone (v w t0 t1 : Q) :
  v <= w ->
  (severity (getStatClass v (t0, t1)) <= severity (getStatClass w (t0, t1)))%nat
  /\ (t1 < t0 -> getStatClass v (t0, t1) <> statWarning).
Proof.
  intros Hvw.
  destruct (getStatClass_cases v t0 t1) as (Gv & Wv & Bv).
  destruct (getStatClass_cases w t0 t1) as (Gw & Ww & Bw).
  split.
  - destruct (getStatClass v (t0, t1)) eqn:Ev, (getStatClass w (t0, t1)) eqn:Ew;
      cbn [severity]; try lia; exfalso.
    + assert (H1 : t0 < v /\ v <= t1) by (apply Wv; reflexivity).
      assert (H2 : w <= t0) by (apply Gw; reflexivity). lra.
    + assert (H1 : t0 < v /\ t1 < v) by (apply Bv; reflexivity).
      assert (H2 : w <= t0) by (apply Gw; reflexivity). lra.
    + assert (H1 : t0 < v /\ t1 < v) by (apply Bv; reflexivity).
      assert (H2 : t0 < w /\ w <= t1) by (apply Ww; reflexivity). lra.
  - intros Ht H. apply Wv in H. lra.
Qed.

Lemma X15_getStatClass_monotone_witness :
  60 - 58 <= 60 - 20
  /\ (severity (fpsClass 58) <= severity (fpsClass 20))%nat.
Proof.
  assert (H : 60 - 58 <= 60 - 20) by (unfold Qle; simpl; lia).
  split; [exact H|].
  exact (proj1 (X15_getStatClass_monotone (60 - 58) (60 - 20) 5 30 H)).
Defined.

Lemma panel_rows (f : Z) (dropped : nat) (m : Stats.t) :
  Stats.fps m = JNumber (inject_Z f) ->
  Stats.droppedFrames m = JNumber (inject_Z (Z.of_nat dropped)) ->
  panel_shows m dropped.
Proof.
  intros Hf Hd. exists f. split; [exact Hf|]. split; [exact Hd|].
  unfold fpsClass, droppedClass.
  destruct (getStatClass_cases (60 - inject_Z f) 5 30) as (G & W & B).
  destruct (getStatClass_cases (inject_Z (Z.of_nat dropped)) 0 10) as (G' & W' & B').
  rewrite G, W, B, G', W', B'.
  assert (F55 : forall k : Z, inject_Z f < inject_Z k <-> (f < k)%Z)
    by (intros k; rewrite Zlt_Qlt; reflexivity).
  assert (F55' : forall k : Z, inject_Z k <= inject_Z f <-> (k <= f)%Z)
    by (intros k; rewrite Zle_Qle; reflexivity).
  assert (D : forall k : Z, inject_Z k < inject_Z (Z.of_nat dropped)
                            <-> (k < Z.of_nat dropped)%Z)
    by (intros k; rewrite Zlt_Qlt; reflexivity).
  assert (D' : forall k : Z, inject_Z (Z.of_nat dropped) <= inject_Z k
                             <-> (Z.of_nat dropped <= k)%Z)
    by (intros k; rewrite Zle_Qle; reflexivity).
  pose proof (F55 30%Z) as L30. pose proof (F55 55%Z) as L55.
  pose proof (F55' 30%Z) as G30. pose proof (F55' 55%Z) as G55.
  pose proof (D 0%Z) as D0. pose proof (D 10%Z) as D10.
  pose proof (D' 0%Z) as E0. pose proof (D' 10%Z) as E10.
  change (inject_Z 30) with 30 in *. change (inject_Z 55) with 55 in *.
  change (inject_Z 0) with 0 in *. change (inject_Z 10) with 10 in *.
  split; [|split; [|split; [|split; [|split]]]].
  - split; intros H; [apply G55; lra|apply G55 in H; lra].
  - split; intros [H1 H2].
    + split; [apply G30; lra|apply L55; lra].
    + apply G30 in H1. apply L55 in H2. split; lra.
  - split; intros H.
    + destruct H as [H1 H2]. apply L30. lra.
    + apply L30 in H. split; lra.
  - split; intros H; [apply E0 in H; lia|apply E0; lia].
  - split; intros [H1 H2].
    + apply D0 in H1. apply E10 in H2. lia.
    + split; [apply D0; lia|apply E10; lia].
  - split; intros H.
    + destruct H as [H1 H2]. apply D10 in H2. lia.
    + split; [apply D0; lia|apply D10; lia].
Qed.

Lemma emitted_fps_integer (clk : FrameClock) (p : Perf.t) (m : Stats.t) :
  snd (perf_after_frame clk p) = Some m ->
  exists f : Z, Stats.fps m = JNumber (inject_Z f).
Proof.
  intros H. destruct (perf_after_frame_emits clk p m H) as (_ & _ & Es & _).
  rewrite Es. eexists. reflexivity.
Qed.

(** X16.  What the panel shows for a snapshot: for a window that starts
    with the dropped-frame counter at 0 and ends with the frame that
    produces the snapshot, in the worker or in the component, the
    dropped-frames row is green exactly when no frame of the window was
    over the target, red exactly when more than 10 were and yellow in
    between; the frame-rate row shows an integer, green from 55 frames
    per second on, red below 30 and yellow in between. *)
Theorem X16_panel_of_a_window {M : MathLib}
    (w : Worker.t) (wevs : list Worker.Event) (we : Worker.Event) (m1 : Stats.t)
    (st : MainThread.t) (mevs : list MainThread.Event) (me : MainThread.Event)
    (m2 : Stats.t) :
  Perf.droppedFrames (Worker.perf w) = 0%nat ->
  snd (Worker.run wevs w) = [] ->
  snd (Worker.step we (fst (Worker.run wevs w))) = Some m1 ->
  Perf.droppedFrames (MainThread.perf st) = 0%nat ->
  snd (MainThread.run mevs st) = [] ->
  snd (MainThread.step me (fst (MainThread.run mevs st))) = Some m2 ->
  panel_shows m1 (dropped_in (worker_window (wevs ++ [we]) w []))
  /\ panel_shows m2 (dropped_in (main_window (mevs ++ [me]) [])).
Proof.
  intros Hw0 Hwq Hwe Hm0 Hmq Hme.
  destruct (worker_window_emitted wevs we w m1 Hw0 Hwq Hwe) as [H1 _].
  destruct (main_window_emitted mevs me st m2 Hm0 Hmq Hme) as [H2 _].
  split.
  - set (w1 := fst (Worker.run wevs w)) in *.
    pose proof (step_frame we w1) as Hs.
    destruct (worker_frame_of we w1) as [clk|].
    + destruct Hs as [_ Ho]. rewrite Ho in Hwe.
      destruct (emitted_fps_integer clk _ m1 Hwe) as [f Hf].
      exact (panel_rows f _ m1 Hf H1).
    + destruct Hs as (_ & _ & Hn). rewrite Hn in Hwe. discriminate Hwe.
  - set (s1 := fst (MainThread.run mevs st)) in *.
    pose proof (main_step_frame me s1) as Hs.
    destruct me as [mode rand clk|dn|t1| |mode clk];
      try (destruct (main_frame_of _) as [c|];
           [ destruct Hs as [_ Ho]; rewrite Ho in Hme;
             destruct (emitted_fps_integer c _ m2 Hme) as [f Hf];
             exact (panel_rows f _ m2 Hf H2)
           | destruct Hs as (_ & _ & Hn); rewrite Hn in Hme; discriminate Hme ]).
    destruct Hs as [_ Hn]. rewrite Hn in Hme. discriminate Hme.
Qed.

Lemma X16_panel_of_a_window_witness :
  exists m1 m2 : Stats.t,
    Perf.droppedFrames (Worker.perf (Worker.initial 0)) = 0%nat
    /\ snd (@Worker.run taylorMath windowEvents (Worker.initial 0)) = []
    /\ snd (@Worker.step taylorMath windowClose
              (fst (@Worker.run taylorMath windowEvents (Worker.initial 0))))
       = Some m1
    /\ Perf.droppedFrames (MainThread.perf (MainThread.initial 0)) = 0%nat
    /\ snd (MainThread.run mainWindowEvents (MainThread.initial 0)) = []
    /\ snd (MainThread.step mainWindowClose
              (fst (MainThread.run mainWindowEvents (MainThread.initial 0))))
       = Some m2
    /\ panel_shows m1 3 /\ panel_shows m2 2.
Proof.
  destruct (snd (@Worker.step taylorMath windowClose
                   (fst (@Worker.run taylorMath windowEvents (Worker.initial 0)))))
    as [m1|] eqn:E1; [|vm_compute in E1; discriminate E1].
  destruct (snd (MainThread.step mainWindowClose
                   (fst (MainThread.run mainWindowEvents (MainThread.initial 0)))))
    as [m2|] eqn:E2; [|vm_compute in E2; discriminate E2].
  exists m1, m2.
  assert (Hw0 : Perf.droppedFrames (Worker.perf (Worker.initial 0)) = 0%nat)
    by reflexivity.
  assert (Hwq : snd (@Worker.run taylorMath windowEvents (Worker.initial 0)) = [])
    by (vm_compute; reflexivity).
  assert (Hm0 : Perf.droppedFrames (MainThread.perf (MainThread.initial 0)) = 0%nat)
    by reflexivity.
  assert (Hmq : snd (MainThread.run mainWindowEvents (MainThread.initial 0)) = [])
    by (vm_compute; reflexivity).
  destruct (@X16_panel_of_a_window taylorMath (Worker.initial 0)
              windowEvents windowClose m1 (MainThread.initial 0)
              mainWindowEvents mainWindowClose m2
              Hw0 Hwq E1 Hm0 Hmq E2) as [H1 H2].
  assert (D1 : dropped_in (@worker_window taylorMath (windowEvents ++ [windowClose])
                             (Worker.initial 0) []) = 3%nat)
    by (vm_compute; reflexivity).
  assert (D2 : dropped_in (main_window (mainWindowEvents ++ [mainWindowClose]) [])
               = 2%nat)
    by (vm_compute; reflexivity).
  rewrite D1 in H1. rewrite D2 in H2.
  split; [exact Hw0|]. split; [exact Hwq|]. split; [reflexivity|].
  split; [exact Hm0|]. split; [exact Hmq|]. split; [reflexivity|].
  split; [exact H1|exact H2].
Defined.

(** ** The grid of the WebGL demo *)

Lemma map_flat_map_comm {A B C : Type} (f : B -> C) (h : A -> list B) (l : list A) :
  map f (flat_map h l) = flat_map (fun a => map f (h a)) l.
Proof.
  induction l as [|a l IH]; [reflexivity|].
  cbn [flat_map]. rewrite map_app, IH. reflexivity.
Qed.

Lemma flat_map_ext_eq {A B : Type} (f h : A -> list B) (l : list A) :
  (forall a, f a = h a) -> flat_map f l = flat_map h l.
Proof.
  intros E. induction l as [|a l IH]; [reflexivity|].
  cbn [flat_map]. rewrite E, IH. reflexivity.
Qed.

Lemma buildMeshesGroup_coords {M : MathLib} (g : nat) (s : Q) :
  WebGLDemo.buildMeshesGroup g s = map (cubeAt g s) (coords g).
Proof.
  unfold WebGLDemo.buildMeshesGroup, coords.
  rewrite map_flat_map_comm. apply flat_map_ext_eq. intros x.
  rewrite map_flat_map_comm. apply flat_map_ext_eq. intros y.
  rewrite map_map. reflexivity.
Qed.

Lemma length_flat_map_const {A B : Type} (h : A -> list B) (k : nat) (l : list A) :
  (forall a, length (h a) = k) -> length (flat_map h l) = (length l * k)%nat.
Proof.
  intros E. induction l as [|a l IH]; [reflexivity|].
  cbn [flat_map length]. rewrite length_app, E, IH. lia.
Qed.

Lemma length_coords (g : nat) : length (coords g) = (g * g * g)%nat.
Proof.
  unfold coords.
  rewrite (length_flat_map_const _ (g * g)%nat).
  - rewrite length_seq. lia.
  - intros x. rewrite (length_flat_map_const _ g).
    + rewrite length_seq. reflexivity.
    + intros y. rewrite length_map, length_seq. reflexivity.
Qed.

Lemma in_coords (g : nat) (p : nat * nat * nat) :
  In p (coords g) <-> in_grid g p.
Proof.
  destruct p as [[x y] z]. unfold coords, in_grid. split.
  - intros H. apply in_flat_map in H. destruct H as (x' & Hx & H).
    apply in_flat_map in H. destruct H as (y' & Hy & H).
    apply in_map_iff in H. destruct H as (z' & E & Hz).
    inversion E; subst. apply in_seq in Hx, Hy, Hz. lia.
  - intros (Hx & Hy & Hz).
    apply in_flat_map. exists x. split; [apply in_seq; lia|].
    apply in_flat_map. exists y. split; [apply in_seq; lia|].
    apply in_map_iff. exists z. split; [reflexivity|apply in_seq; lia].
Qed.

Lemma NoDup_flat_map_disjoint {A B : Type} (h : A -> list B) (l : list A) :
  NoDup l ->
  (forall a, In a l -> NoDup (h a)) ->
  (forall a b c, In c (h a) -> In c (h b) -> a = b) ->
  NoDup (flat_map h l).
Proof.
  intros Hl Hh Hd. induction Hl as [|a l Ha Hl IH]; [constructor|].
  cbn [flat_map]. apply NoDup_app.
  - apply Hh. left. reflexivity.
  - apply IH. intros b Hb. apply Hh. right. exact Hb.
  - intros c Hc Hin. apply in_flat_map in Hin. destruct Hin as (b & Hb & Hcb).
    assert (a = b) by (eapply Hd; eassumption). subst b. contradiction.
Qed.

Lemma NoDup_map_injective_on {A B : Type} (f : A -> B) (l : list A) :
  NoDup l ->
  (forall a b, In a l -> In b l -> f a = f b -> a = b) ->
  NoDup (map f l).
Proof.
  intros Hl Hf. induction Hl as [|a l Ha Hl IH]; [constructor|].
  cbn [map]. constructor.
  - intros Hin. apply in_map_iff in Hin. destruct Hin as (b & E & Hb).
    assert (a = b).
    { apply Hf; [left; reflexivity|right; exact Hb|symmetry; exact E]. }
    subst b. contradiction.
  - apply IH. intros b c Hb Hc. apply Hf; right; assumption.
Qed.

Lemma NoDup_coords (g : nat) : NoDup (coords g).
Proof.
  unfold coords. apply NoDup_flat_map_disjoint.
  - apply seq_NoDup.
  - intros x _. apply NoDup_flat_map_disjoint.
    + apply seq_NoDup.
    + intros y _. apply NoDup_map_injective_on; [apply seq_NoDup|].
      intros a b _ _ E. inversion E. reflexivity.
    + intros a b c Ha Hb.
      apply in_map_iff in Ha, Hb.
      destruct Ha as (z1 & E1 & _). destruct Hb as (z2 & E2 & _).
      subst c. inversion E2. reflexivity.
  - intros a b c Ha Hb.
    apply in_flat_map in Ha, Hb.
    destruct Ha as (y1 & _ & Ha). destruct Hb as (y2 & _ & Hb).
    apply in_map_iff in Ha, Hb.
    destruct Ha as (z1 & E1 & _). destruct Hb as (z2 & E2 & _).
    subst c. inversion E2. reflexivity.
Qed.

Lemma nth_error_seq_lt (start len i : nat) :
  (i < len)%nat -> nth_error (seq start len) i = Some (start + i)%nat.
Proof.
  revert start i. induction len as [|len IH]; intros start i Hi; [lia|].
  destruct i as [|i]; cbn [seq nth_error].
  - f_equal. lia.
  - rewrite IH by lia. f_equal. lia.
Qed.

Lemma nth_error_flat_map_const {A B : Type} (h : A -> list B) (k : nat)
      (l : list A) (i j : nat) :
  (forall a, length (h a) = k) -> (j < k)%nat ->
  nth_error (flat_map h l) (i * k + j)
  = match nth_error l i with
    | Some a => nth_error (h a) j
    | None => None
    end.
Proof.
  intros Hk Hj. revert i. induction l as [|a l IH]; intros i.
  - cbn [flat_map]. destruct i; destruct (_ + _)%nat; reflexivity.
  - cbn [flat_map]. destruct i as [|i].
    + cbn [Nat.mul Nat.add nth_error]. apply nth_error_app1. rewrite Hk. exact Hj.
    + cbn [nth_error]. rewrite nth_error_app2 by (rewrite Hk; lia).
      rewrite Hk. replace (S i * k + j - k)%nat with (i * k + j)%nat by lia.
      apply IH.
Qed.

Lemma nth_error_coords (g x y z : nat) :
  (x < g)%nat -> (y < g)%nat -> (z < g)%nat ->
  nth_error (coords g) (x * (g * g) + (y * g + z)) = Some (x, y, z).
Proof.
  intros Hx Hy Hz. unfold coords.
  rewrite (nth_error_flat_map_const _ (g * g)%nat).
  - rewrite (nth_error_seq_lt 0 g x Hx). cbn [Nat.add].
    rewrite (nth_error_flat_map_const _ g).
    + rewrite (nth_error_seq_lt 0 g y Hy). cbn [Nat.add].
      rewrite nth_error_map, (nth_error_seq_lt 0 g z Hz). reflexivity.
    + intros b. rewrite length_map, length_seq. reflexivity.
    + exact Hz.
  - intros a. rewrite (length_flat_map_const _ g).
    + rewrite length_seq. reflexivity.
    + intros b. rewrite length_map, length_seq. reflexivity.
  - nia.
Qed.

(** X17.  The group holds one cube per grid cell, in loop order:
    [buildMeshesGroup] returns [gridSize]^3 cubes (the
    [GRID_SIZE * GRID_SIZE * GRID_SIZE] the panel announces), a cube is
    in the group exactly when it is the one built for some cell
    [(x, y, z)] with the three indices below [gridSize], and the cube of
    that cell is the entry number [x * gridSize^2 + y * gridSize + z]. *)
Theorem X17_one_cube_per_cell {M : MathLib} (gridSize : nat) (spacing : Q) :
  length (WebGLDemo.buildMeshesGroup gridSize spacing)
  = (gridSize * gridSize * gridSize)%nat
  /\ (forall c,
        In c (WebGLDemo.buildMeshesGroup gridSize spacing)
        <-> exists x y z,
              (x < gridSize)%nat /\ (y < gridSize)%nat /\ (z < gridSize)%nat
              /\ c = WebGLDemo.cube gridSize spacing x y z)
  /\ (forall x y z,
        (x < gridSize)%nat -> (y < gridSize)%nat -> (z < gridSize)%nat ->
        nth_error (WebGLDemo.buildMeshesGroup gridSize spacing)
                  (x * (gridSize * gridSize) + (y * gridSize + z))
        = Some (WebGLDemo.cube gridSize spacing x y z)).
Proof.
  split; [|split].
  - rewrite buildMeshesGroup_coords, length_map. apply length_coords.
  - intros c. rewrite buildMeshesGroup_coords, in_map_iff. split.
    + intros ([[x y] z] & E & Hp). apply in_coords in Hp.
      exists x, y, z. destruct Hp as (Hx & Hy & Hz).
      repeat split; try assumption. symmetry. exact E.
    + intros (x & y & z & Hx & Hy & Hz & E). exists (x, y, z).
      split; [symmetry; exact E|]. apply in_coords. repeat split; assumption.
  - intros x y z Hx Hy Hz.
    rewrite buildMeshesGroup_coords, nth_error_map.
    rewrite (nth_error_coords gridSize x y z Hx Hy Hz). reflexivity.
Qed.

Lemma cube_axis_injective (g : nat) (s : Q) (a b : nat) :
  ~ s == 0 ->
  (inject_Z (Z.of_nat a) - inject_Z (Z.of_nat g) / 2) * s
  == (inject_Z (Z.of_nat b) - inject_Z (Z.of_nat g) / 2) * s ->
  a = b.
Proof.
  intros Hs E.
  assert (E1 : inject_Z (Z.of_nat a) == inject_Z (Z.of_nat b)).
  { apply (proj1 (Qmult_inj_r _ _ s Hs)) in E.
    set (h := inject_Z (Z.of_nat g) / 2) in E. lra. }
  apply (proj1 (inject_Z_injective _ _)) in E1. lia.
Qed.

Lemma cube_axis_bounds (g : nat) (s : Q) (a : nat) :
  0 <= s -> (a < g)%nat ->
  - (inject_Z (Z.of_nat g) / 2) * s
  <= (inject_Z (Z.of_nat a) - inject_Z (Z.of_nat g) / 2) * s
  <= (inject_Z (Z.of_nat g) / 2 - 1) * s.
Proof.
  intros Hs Ha.
  assert (H0 : 0 <= inject_Z (Z.of_nat a)).
  { change 0 with (inject_Z 0). rewrite <- Zle_Qle. lia. }
  assert (H1 : inject_Z (Z.of_nat a) <= inject_Z (Z.of_nat g) - 1).
  { assert (H : inject_Z (Z.of_nat a) + inject_Z 1 <= inject_Z (Z.of_nat g)).
    { rewrite <- inject_Z_plus, <- Zle_Qle. lia. }
    change (inject_Z 1) with 1 in H. lra. }
  assert (Hh : inject_Z (Z.of_nat g) == 2 * (inject_Z (Z.of_nat g) / 2))
    by field.
  set (h := inject_Z (Z.of_nat g) / 2) in *.
  set (q := inject_Z (Z.of_nat a)) in *.
  assert (P1 : 0 <= q * s) by (apply Qmult_le_0_compat; assumption).
  assert (P2 : 0 <= (2 * h - 1 - q) * s)
    by (apply Qmult_le_0_compat; [lra|assumption]).
  split.
  - setoid_replace ((q - h) * s) with (q * s + - h * s) by ring. lra.
  - setoid_replace ((h - 1) * s) with ((2 * h - 1 - q) * s + (q - h) * s) by ring.
    lra.
Qed.

(** X18.  The grid is a lattice that is not centred: with a positive
    spacing, two different entries of the group never share a position,
    and every coordinate lies between [-(gridSize / 2) * spacing] and
    [(gridSize / 2 - 1) * spacing], so the lattice reaches one spacing
    less far on the positive side of each axis than on the negative
    one. *)
Theorem X18_grid_positions {M : MathLib} (gridSize : nat) (spacing : Q) :
  0 < spacing ->
  (forall i j c1 c2,
     nth_error (WebGLDemo.buildMeshesGroup gridSize spacing) i = Some c1 ->
     nth_error (WebGLDemo.buildMeshesGroup gridSize spacing) j = Some c2 ->
     i <> j ->
     ~ same_place (WebGLDemo.position c1) (WebGLDemo.position c2))
  /\ (forall c, In c (WebGLDemo.buildMeshesGroup gridSize spacing) ->
        in_box (- (inject_Z (Z.of_nat gridSize) / 2) * spacing)
               ((inject_Z (Z.of_nat gridSize) / 2 - 1) * spacing)
               (WebGLDemo.position c)).
Proof.
  intros Hs. split.
  - intros i j c1 c2 H1 H2 Hij (Ex & Ey & Ez).
    rewrite buildMeshesGroup_coords, nth_error_map in H1, H2.
    destruct (nth_error (coords gridSize) i) as [[[x1 y1] z1]|] eqn:E1;
      [|discriminate H1].
    destruct (nth_error (coords gridSize) j) as [[[x2 y2] z2]|] eqn:E2;
      [|discriminate H2].
    cbn [option_map cubeAt] in H1, H2.
    inversion H1; subst c1. inversion H2; subst c2.
    cbn [WebGLDemo.cube WebGLDemo.position Vec3.x Vec3.y Vec3.z] in Ex, Ey, Ez.
    assert (Hne : ~ spacing == 0) by lra.
    apply (cube_axis_injective _ _ _ _ Hne) in Ex, Ey, Ez. subst x2 y2 z2.
    apply Hij.
    apply (proj1 (NoDup_nth_error (coords gridSize)) (NoDup_coords gridSize)).
    + apply nth_error_Some. rewrite E1. discriminate.
    + rewrite E1, E2. reflexivity.
  - intros c Hc. rewrite buildMeshesGroup_coords in Hc.
    apply in_map_iff in Hc. destruct Hc as ([[x y] z] & E & Hp).
    apply in_coords in Hp. destruct Hp as (Hx & Hy & Hz). subst c.
    assert (H0 : 0 <= spacing) by lra.
    unfold in_box. cbn [cubeAt WebGLDemo.cube WebGLDemo.position Vec3.x Vec3.y Vec3.z].
    repeat split; apply cube_axis_bounds; assumption.
Qed.

Lemma X18_grid_positions_witness :
  0 < WebGLDemo.SPACING
  /\ forall c,
       In c (@WebGLDemo.buildMeshesGroup taylorMath WebGLDemo.GRID_SIZE
               WebGLDemo.SPACING) ->
       in_box (- (inject_Z 25 / 2) * WebGLDemo.SPACING)
              ((inject_Z 25 / 2 - 1) * WebGLDemo.SPACING)
              (WebGLDemo.position c).
Proof.
  assert (H : 0 < WebGLDemo.SPACING) by reflexivity.
  split; [exact H|].
  exact (proj2 (@X18_grid_positions taylorMath WebGLDemo.GRID_SIZE
                  WebGLDemo.SPACING H)).
Defined.

(** X19.  The colour seed [x * 1000 + y * 100 + z] identifies a cell
    only while the indices stay below 10: it is then different for
    different cells, but from a grid size of 11 on (the demo uses 25)
    the group holds two cubes at different positions that were given the
    same seed, hence the same hue, whatever [Math.sin] is. *)
Theorem X19_seed_collisions {M : MathLib} (gridSize : nat) (spacing : Q) :
  (10 < gridSize)%nat ->
  0 < spacing ->
  (forall x y z x' y' z' : nat,
     (y <= 9)%nat -> (z <= 9)%nat -> (y' <= 9)%nat -> (z' <= 9)%nat ->
     WebGLDemo.seed x y z = WebGLDemo.seed x' y' z' ->
     (x, y, z) = (x', y', z'))
  /\ exists c1 c2,
       In c1 (WebGLDemo.buildMeshesGroup gridSize spacing)
       /\ In c2 (WebGLDemo.buildMeshesGroup gridSize spacing)
       /\ ~ same_place (WebGLDemo.position c1) (WebGLDemo.position c2)
       /\ WebGLDemo.hue c1 = WebGLDemo.hue c2.
Proof.
  intros Hg Hs. split.
  - intros x y z x' y' z' Hy Hz Hy' Hz' E. unfold WebGLDemo.seed in E.
    assert (x = x' /\ y = y' /\ z = z') as (-> & -> & ->) by lia.
    reflexivity.
  - exists (WebGLDemo.cube gridSize spacing 0 10 0),
           (WebGLDemo.cube gridSize spacing 1 0 0).
    split; [|split; [|split]].
    + rewrite buildMeshesGroup_coords. apply in_map_iff. exists (0, 10, 0)%nat.
      split; [reflexivity|]. apply in_coords. cbn [in_grid]. lia.
    + rewrite buildMeshesGroup_coords. apply in_map_iff. exists (1, 0, 0)%nat.
      split; [reflexivity|]. apply in_coords. cbn [in_grid]. lia.
    + intros (Ex & _).
      cbn [WebGLDemo.cube WebGLDemo.position Vec3.x] in Ex.
      assert (Hne : ~ spacing == 0) by lra.
      apply (cube_axis_injective _ _ _ _ Hne) in Ex. discriminate Ex.
    + reflexivity.
Qed.

Lemma X19_seed_collisions_witness :
  (10 < WebGLDemo.GRID_SIZE)%nat
  /\ 0 < WebGLDemo.SPACING
  /\ exists c1 c2,
       In c1 (@WebGLDemo.buildMeshesGroup taylorMath WebGLDemo.GRID_SIZE
                WebGLDemo.SPACING)
       /\ In c2 (@WebGLDemo.buildMeshesGroup taylorMath WebGLDemo.GRID_SIZE
                   WebGLDemo.SPACING)
       /\ ~ same_place (WebGLDemo.position c1) (WebGLDemo.position c2)
       /\ WebGLDemo.hue c1 = WebGLDemo.hue c2.
Proof.
  assert (Hg : (10 < WebGLDemo.GRID_SIZE)%nat) by (unfold WebGLDemo.GRID_SIZE; lia).
  assert (Hs : 0 < WebGLDemo.SPACING) by reflexivity.
  split; [exact Hg|]. split; [exact Hs|].
  exact (proj2 (@X19_seed_collisions taylorMath WebGLDemo.GRID_SIZE
                  WebGLDemo.SPACING Hg Hs)).
Defined.

(** ** The frame-rate display of the WebGL demo *)

Lemma webgl_step_isMounted (e : WebGLDemo.Event) (st : WebGLDemo.t) :
  WebGLDemo.isMounted (WebGLDemo.step e st) = WebGLDemo.isMounted st.
Proof.
  destruct e as [value refs|now|]; cbn [WebGLDemo.step]; [| |reflexivity].
  - unfold WebGLDemo.handleRendererChange, WebGLDemo.switchRenderer.
    destruct (WebGLDemo.RendererType_eqb value (WebGLDemo.rendererType st));
      [reflexivity|].
    destruct refs; cbn [negb WebGLDemo.rendererType]; [|reflexivity].
    destruct value; reflexivity.
  - unfold WebGLDemo.animate.
    destruct (negb (WebGLDemo.isMounted st)); [reflexivity|].
    destruct (_ && _); [|reflexivity].
    destruct (Qlt_le_dec _ _); reflexivity.
Qed.

Lemma webgl_step_off (e : WebGLDemo.Event) (st : WebGLDemo.t) :
  WebGLDemo.rendererTypeRef st = WebGLDemo.none ->
  stays_off e ->
  let st' := WebGLDemo.step e st in
  WebGLDemo.rendererTypeRef st' = WebGLDemo.none
  /\ WebGLDemo.fps st' = WebGLDemo.fps st
  /\ WebGLDemo.frameCount st' = WebGLDemo.frameCount st
  /\ WebGLDemo.lastTime st' = WebGLDemo.lastTime st.
Proof.
  intros Hoff He. cbv zeta.
  destruct e as [value refs|now|]; cbn [WebGLDemo.step].
  - destruct value; [destruct He|].
    unfold WebGLDemo.handleRendererChange, WebGLDemo.switchRenderer.
    destruct (WebGLDemo.RendererType_eqb WebGLDemo.none (WebGLDemo.rendererType st)).
    + repeat split. exact Hoff.
    + destruct refs; cbn; repeat split. exact Hoff.
  - unfold WebGLDemo.animate. rewrite Hoff.
    destruct (negb (WebGLDemo.isMounted st)).
    + repeat split. exact Hoff.
    + cbn. repeat split.
  - repeat split. exact Hoff.
Qed.

(** X20.  The frame-rate display is never reset: while the renderer is
    switched off ([rendererTypeRef] is ['none'] and no event selects
    WebGL), frames, selections and the removal of the component leave
    the displayed [fps], the frame counter and [lastTime] as they were;
    the branch that would set [fps] to 0 never fires.  No event, the
    removal included, ever clears [isMounted], so the frame loop is
    never stopped. *)
Theorem X20_fps_display_is_never_reset (st : WebGLDemo.t)
    (evs : list WebGLDemo.Event) :
  WebGLDemo.rendererTypeRef st = WebGLDemo.none ->
  Forall stays_off evs ->
  let st' := WebGLDemo.run evs st in
  WebGLDemo.fps st' = WebGLDemo.fps st
  /\ WebGLDemo.frameCount st' = WebGLDemo.frameCount st
  /\ WebGLDemo.lastTime st' = WebGLDemo.lastTime st
  /\ WebGLDemo.rendererTypeRef st' = WebGLDemo.none
  /\ (forall evs' st0,
        WebGLDemo.isMounted (WebGLDemo.run evs' st0) = WebGLDemo.isMounted st0).
Proof.
  intros Hoff Hev. cbv zeta.
  assert (G : WebGLDemo.rendererTypeRef (WebGLDemo.run evs st) = WebGLDemo.none
              /\ WebGLDemo.fps (WebGLDemo.run evs st) = WebGLDemo.fps st
              /\ WebGLDemo.frameCount (WebGLDemo.run evs st) = WebGLDemo.frameCount st
              /\ WebGLDemo.lastTime (WebGLDemo.run evs st) = WebGLDemo.lastTime st).
  { revert st Hoff. induction Hev as [|e evs He Hev IH]; intros st Hoff.
    - repeat split. exact Hoff.
    - cbn [WebGLDemo.run].
      destruct (webgl_step_off e st Hoff He) as (A & B & C & D).
      destruct (IH _ A) as (A' & B' & C' & D').
      rewrite B', C', D', B, C, D. repeat split. exact A'. }
  destruct G as (A & B & C & D).
  repeat split; try assumption.
  intros evs'. induction evs' as [|e evs' IH]; intros st0; [reflexivity|].
  cbn [WebGLDemo.run]. rewrite IH. apply webgl_step_isMounted.
Qed.

Lemma X20_fps_display_is_never_reset_witness :
  WebGLDemo.rendererTypeRef samplePaused = WebGLDemo.none
  /\ Forall stays_off [WebGLDemo.Frame 2000; WebGLDemo.Unmount; WebGLDemo.Frame 3000;
                       WebGLDemo.Select WebGLDemo.none true]
  /\ WebGLDemo.fps
       (WebGLDemo.run [WebGLDemo.Frame 2000; WebGLDemo.Unmount; WebGLDemo.Frame 3000;
                       WebGLDemo.Select WebGLDemo.none true] samplePaused)
     = 2%Z.
Proof.
  assert (H1 : WebGLDemo.rendererTypeRef samplePaused = WebGLDemo.none)
    by (vm_compute; reflexivity).
  assert (H2 : Forall stays_off
                 [WebGLDemo.Frame 2000; WebGLDemo.Unmount; WebGLDemo.Frame 3000;
                  WebGLDemo.Select WebGLDemo.none true])
    by (repeat constructor).
  split; [exact H1|]. split; [exact H2|].
  rewrite (proj1 (X20_fps_display_is_never_reset samplePaused _ H1 H2)).
  vm_compute. reflexivity.
Defined.
